(** * Packet transfer driver (drv_pkttransfer): framing, CRC and state machines

    A shallow embedding of [drv_pkttransfer.h] / its implementation:
    the CRC-16/X-25 engine, the byte-stuffing encoder
    ([pkttransfer_prepare_byte]), the decoder ([pkttransfer_process_byte],
    [pkttransfer_process_frame]), the submit operation ([pkttransfer_send])
    and the periodic task in its UART and CAN builds.

    Conventions.
    - [uint8_t], [uint16_t], [uint32_t] and [size_t] values are integers in
      [Z]; every assignment to such an object is written with its
      wrap-around ([u8], [u16], [u32], [usize]).  [size_t] is 32 bits wide:
      [PKTTRANSFER_INSTANCE_SIZE] is 72 bytes in the UART build, which is the
      size of the instance only with 4-byte pointers and 4-byte [size_t].
    - The caller-owned TX and RX buffers are lists of bytes held next to the
      pointers of the configuration.  An access outside the buffer is
      undefined in C; here a read yields 0 and a write does nothing, and the
      theorems that depend on buffer contents assume the documented buffer
      size [payload_size_max + PKTTRANSFER_FRAME_CRC_SIZE].
    - Callbacks: the values returned by the hardware callbacks are inputs of
      one task invocation ([hw_uart_in], [hw_can_in]); the calls made by the
      driver ([tx_cb], [rx_cb] of the CAN build, [app_pkt_cb]) are returned as
      a trace of [event]s, in call order.
    - [assert]s are not part of the functions; they are the boolean
      predicates [*_asserts], shown to hold in every state that satisfies
      the invariant [inv]. *)

From Stdlib Require Import ZArith List Lia Bool.
From stdpp Require Import base list.

Local Open Scope Z_scope.

(** * The model *)

(** ** Fixed-width integers *)

Definition u8 (x : Z) : Z := x mod 2 ^ 8.
Definition u16 (x : Z) : Z := x mod 2 ^ 16.
Definition u32 (x : Z) : Z := x mod 2 ^ 32.
Definition usize (x : Z) : Z := x mod 2 ^ 32.

Definition is_u8 (x : Z) : Prop := 0 <= x < 2 ^ 8.
Definition is_u16 (x : Z) : Prop := 0 <= x < 2 ^ 16.
Definition is_usize (x : Z) : Prop := 0 <= x < 2 ^ 32.

(** ** Macros *)

Definition PKTTRANSFER_CAN_MGS_SIZE : nat := 8.
Definition PKTTRANSFER_FRAME_CRC_SIZE : Z := 2.

Definition PKTTRANSFER_FRAME_DELIMITER_BYTE : Z := 0x7E.
Definition PKTTRANSFER_FRAME_ESCAPE_BYTE : Z := 0x7D.
Definition PKTTRANSFER_FRAME_ENCODED_DELIMITER_BYTE : Z := 0x5E.
Definition PKTTRANSFER_FRAME_ENCODED_ESCAPE_BYTE : Z := 0x5D.

(** ** Buffers *)

(** [buf[i]] for a [size_t] index. *)
Definition rd (buf : list Z) (i : Z) : Z := default 0 (buf !! Z.to_nat i).

(** [buf[i] = v], the stored value truncated to a byte. *)
Definition wr (buf : list Z) (i : Z) (v : Z) : list Z := <[Z.to_nat i := u8 v]> buf.

(** [memcpy(dst, src, n)]. *)
Definition memcpy (dst src : list Z) (n : Z) : list Z :=
  take (Z.to_nat n) src ++ drop (Z.to_nat n) dst.

(** ** CRC engine *)

Module Crc.

(** One iteration of the inner [for] loop of [pkttransfer_crc16]. *)
Definition crc16_bit (crc : Z) : Z :=
  let poly_reversed := 0x8408 in
  u16 (if negb (Z.land crc 0x0001 =? 0)
       then Z.lxor (Z.shiftr crc 1) poly_reversed
       else Z.shiftr crc 1).

(** One iteration of the [while] loop: the byte is XORed in, then eight
    shift steps. *)
Definition crc16_byte (crc : Z) (b : Z) : Z :=
  let crc := u16 (Z.lxor crc (Z.land (u16 b) 0x00FF)) in
  Nat.iter 8 crc16_bit crc.

(** The code after the loop: RefOut, xorout and the byte swap. *)
Definition crc16_finish (crc : Z) : Z :=
  let xorout := 0xFFFF in
  let out0 := u8 (Z.shiftr (Z.land crc 0xFF00) 8) in
  let out1 := u8 (Z.land crc 0x00FF) in
  let out0 := u8 (Z.lxor out0 (Z.land xorout 0x00FF)) in
  let out1 := u8 (Z.lxor out1 (Z.shiftr (Z.land xorout 0xFF00) 8)) in
  let tmp := out0 in
  let out0 := out1 in
  let out1 := tmp in
  u16 (Z.lor (Z.shiftl (Z.land out1 0x00FF) 8) out0).

(** [pkttransfer_crc16(data_p, size)]: the first [size] bytes of [data_p]. *)
Definition pkttransfer_crc16 (data_p : list Z) (size : Z) : Z :=
  crc16_finish (fold_left crc16_byte (take (Z.to_nat size) data_p) 0xFFFF).

(** The CRC-16/X-25 reference, following the specification: reflected
    polynomial 0x8408, initial register 0xFFFF, each byte XORed into the low
    byte, eight right shifts with a conditional XOR of the polynomial when
    the least significant bit is 1, final XOR with 0xFFFF. *)
Definition x25_shift (r : Z) : Z :=
  if Z.testbit r 0 then Z.lxor (Z.shiftr r 1) 0x8408 else Z.shiftr r 1.

Definition x25_byte (r : Z) (b : Z) : Z :=
  Nat.iter 8 x25_shift (Z.lxor r b).

Definition crc16_x25 (data : list Z) : Z :=
  Z.lxor (fold_left x25_byte data 0xFFFF) 0xFFFF.

End Crc.

Export Crc.

(** ** Data model *)

(** [pkttransfer_err_enum_t]; [err_code] gives the [pkttransfer_err_t] value. *)
Inductive pkttransfer_err_enum_t :=
| PKTTRANSFER_ERR_OK
| PKTTRANSFER_ERR_BASE
| PKTTRANSFER_ERR_TX_OVF
| PKTTRANSFER_ERR_RX_OVF
| PKTTRANSFER_ERR_TX_ERR
| PKTTRANSFER_ERR_RX_ERR
| PKTTRANSFER_ERR_NO_CONN
| PKTTRANSFER_ERR_CRC
| PKTTRANSFER_ERR_FRAME.

Definition err_code (e : pkttransfer_err_enum_t) : Z :=
  match e with
  | PKTTRANSFER_ERR_OK => 0
  | PKTTRANSFER_ERR_BASE => 1024
  | PKTTRANSFER_ERR_TX_OVF => 1025
  | PKTTRANSFER_ERR_RX_OVF => 1026
  | PKTTRANSFER_ERR_TX_ERR => 1027
  | PKTTRANSFER_ERR_RX_ERR => 1028
  | PKTTRANSFER_ERR_NO_CONN => 1029
  | PKTTRANSFER_ERR_CRC => 1030
  | PKTTRANSFER_ERR_FRAME => 1031
  end.

(** [pkttransfer_frame_state_enum_t]. *)
Inductive pkttransfer_frame_state_enum_t :=
| PKTTRANSFER_STATE_DELIMITER
| PKTTRANSFER_STATE_BYTE
| PKTTRANSFER_STATE_ENCODED_BYTE.

(** [pkttransfer_config_t]; the two buffer fields hold the bytes the
    pointers refer to. *)
Record pkttransfer_config_t := mk_config {
  payload_size_max : Z;
  buf_rx_p : list Z;
  buf_tx_p : list Z
}.

(** [pkttransfer_state_t]; [can_id_rx] and [can_id_tx] exist in the CAN build
    only and stay 0 in the UART build. *)
Record pkttransfer_state_t := mk_state {
  tx_state : pkttransfer_frame_state_enum_t;
  tx_size : Z;
  sent_size : Z;
  rx_state : pkttransfer_frame_state_enum_t;
  rx_size : Z;
  sof_detections_cnt : Z;
  received_packets_cnt : Z;
  sent_packets_cnt : Z;
  can_id_rx : Z;
  can_id_tx : Z
}.

(** The driver instance: configuration and run-time state.  The hardware and
    application interfaces are the inputs and the trace of the task. *)
Record pkttransfer_t := mk_inst {
  config : pkttransfer_config_t;
  state : pkttransfer_state_t
}.

(** The build: [PKTTRANSFER_OVER_UART] or [PKTTRANSFER_OVER_CAN]. *)
Inductive build := OVER_UART | OVER_CAN.

(** Calls made by the driver, in call order. *)
Inductive event :=
| EvUartTx (byte : Z)
| EvCanTx (data : list Z) (size : Z) (can_id : Z)
| EvCanRx (can_id : Z)
| EvAppPkt (payload : list Z) (size : Z).

(** Values returned by the hardware callbacks during one task invocation. *)
Record hw_uart_in := mk_uart_in {
  uart_tx_is_avail : bool;
  uart_rx_is_ready : bool;
  uart_rx : Z
}.

Record hw_can_in := mk_can_in {
  can_tx_is_avail : bool;
  can_rx_is_ready : bool;
  can_rx : list Z
}.

(** *** Field updates *)

Definition with_state (i : pkttransfer_t) (s : pkttransfer_state_t) : pkttransfer_t :=
  mk_inst (config i) s.

Definition with_buf_rx (i : pkttransfer_t) (b : list Z) : pkttransfer_t :=
  mk_inst (mk_config (payload_size_max (config i)) b (buf_tx_p (config i))) (state i).

Definition with_buf_tx (i : pkttransfer_t) (b : list Z) : pkttransfer_t :=
  mk_inst (mk_config (payload_size_max (config i)) (buf_rx_p (config i)) b) (state i).

Definition set_tx (s : pkttransfer_state_t) (st : pkttransfer_frame_state_enum_t)
    (size sent : Z) : pkttransfer_state_t :=
  mk_state st size sent (rx_state s) (rx_size s) (sof_detections_cnt s)
           (received_packets_cnt s) (sent_packets_cnt s) (can_id_rx s) (can_id_tx s).

Definition set_rx (s : pkttransfer_state_t) (st : pkttransfer_frame_state_enum_t)
    (size : Z) : pkttransfer_state_t :=
  mk_state (tx_state s) (tx_size s) (sent_size s) st size (sof_detections_cnt s)
           (received_packets_cnt s) (sent_packets_cnt s) (can_id_rx s) (can_id_tx s).

Definition set_sof_detections_cnt (s : pkttransfer_state_t) (n : Z) : pkttransfer_state_t :=
  mk_state (tx_state s) (tx_size s) (sent_size s) (rx_state s) (rx_size s) n
           (received_packets_cnt s) (sent_packets_cnt s) (can_id_rx s) (can_id_tx s).

Definition set_received_packets_cnt (s : pkttransfer_state_t) (n : Z) : pkttransfer_state_t :=
  mk_state (tx_state s) (tx_size s) (sent_size s) (rx_state s) (rx_size s)
           (sof_detections_cnt s) n (sent_packets_cnt s) (can_id_rx s) (can_id_tx s).

Definition set_sent_packets_cnt (s : pkttransfer_state_t) (n : Z) : pkttransfer_state_t :=
  mk_state (tx_state s) (tx_size s) (sent_size s) (rx_state s) (rx_size s)
           (sof_detections_cnt s) (received_packets_cnt s) n (can_id_rx s) (can_id_tx s).

Definition set_can_id_rx (s : pkttransfer_state_t) (id : Z) : pkttransfer_state_t :=
  mk_state (tx_state s) (tx_size s) (sent_size s) (rx_state s) (rx_size s)
           (sof_detections_cnt s) (received_packets_cnt s) (sent_packets_cnt s) id (can_id_tx s).

Definition set_can_id_tx (s : pkttransfer_state_t) (id : Z) : pkttransfer_state_t :=
  mk_state (tx_state s) (tx_size s) (sent_size s) (rx_state s) (rx_size s)
           (sof_detections_cnt s) (received_packets_cnt s) (sent_packets_cnt s) (can_id_rx s) id.

(** ** Private functions *)

(** [pkttransfer_bytes_for_sending]. *)
Definition pkttransfer_bytes_for_sending (i : pkttransfer_t) : bool :=
  negb (tx_size (state i) =? 0).

Definition bytes_for_sending_asserts (i : pkttransfer_t) : bool :=
  sent_size (state i) <=? tx_size (state i).

(** [pkttransfer_prepare_byte]: the next wire byte of the frame being sent. *)
Definition pkttransfer_prepare_byte (i : pkttransfer_t) : pkttransfer_t * Z :=
  let s := state i in
  if sent_size s =? tx_size s then
    (* the last byte is already prepared *)
    (with_state i
       (set_sent_packets_cnt (set_tx s PKTTRANSFER_STATE_DELIMITER 0 0)
                             (u32 (sent_packets_cnt s + 1))),
     PKTTRANSFER_FRAME_DELIMITER_BYTE)
  else
    let next_payload_byte := rd (buf_tx_p (config i)) (sent_size s) in
    match tx_state s with
    | PKTTRANSFER_STATE_DELIMITER =>
        (with_state i (set_tx s PKTTRANSFER_STATE_BYTE (tx_size s) (sent_size s)),
         PKTTRANSFER_FRAME_DELIMITER_BYTE)
    | PKTTRANSFER_STATE_BYTE =>
        if (next_payload_byte =? PKTTRANSFER_FRAME_DELIMITER_BYTE)
           || (next_payload_byte =? PKTTRANSFER_FRAME_ESCAPE_BYTE)
        then
          (with_state i (set_tx s PKTTRANSFER_STATE_ENCODED_BYTE (tx_size s) (sent_size s)),
           PKTTRANSFER_FRAME_ESCAPE_BYTE)
        else
          (with_state i (set_tx s PKTTRANSFER_STATE_BYTE (tx_size s) (usize (sent_size s + 1))),
           next_payload_byte)
    | PKTTRANSFER_STATE_ENCODED_BYTE =>
        (with_state i (set_tx s PKTTRANSFER_STATE_BYTE (tx_size s) (usize (sent_size s + 1))),
         if next_payload_byte =? PKTTRANSFER_FRAME_DELIMITER_BYTE
         then PKTTRANSFER_FRAME_ENCODED_DELIMITER_BYTE
         else PKTTRANSFER_FRAME_ENCODED_ESCAPE_BYTE)
    end.

Definition prepare_byte_asserts (i : pkttransfer_t) : bool :=
  negb (tx_size (state i) =? 0)
  && (tx_size (state i) <=? usize (payload_size_max (config i) + PKTTRANSFER_FRAME_CRC_SIZE))
  && (sent_size (state i) <=? tx_size (state i)).

(** [pkttransfer_process_frame]: CRC check of the frame held in the RX buffer
    and delivery to the application.  The callback receives the RX buffer and
    the payload size, that is the first [size] bytes of the buffer. *)
Definition pkttransfer_process_frame (i : pkttransfer_t) : pkttransfer_t * list event :=
  let s := state i in
  let buf := buf_rx_p (config i) in
  if rx_size s <=? PKTTRANSFER_FRAME_CRC_SIZE then (i, [])
  else
    let actual_crc :=
      u16 (Z.lor (Z.shiftl (rd buf (rx_size s - 1)) 8) (rd buf (rx_size s - 2))) in
    let expected_crc := pkttransfer_crc16 buf (rx_size s - PKTTRANSFER_FRAME_CRC_SIZE) in
    if negb (actual_crc =? expected_crc) then (i, [])
    else
      (with_state i (set_received_packets_cnt s (u32 (received_packets_cnt s + 1))),
       [EvAppPkt (take (Z.to_nat (rx_size s - PKTTRANSFER_FRAME_CRC_SIZE)) buf)
                 (rx_size s - PKTTRANSFER_FRAME_CRC_SIZE)]).

Definition process_asserts (i : pkttransfer_t) : bool :=
  rx_size (state i) <=? usize (payload_size_max (config i) + PKTTRANSFER_FRAME_CRC_SIZE).

(** [pkttransfer_process_byte]: one received wire byte. *)
Definition pkttransfer_process_byte (i : pkttransfer_t) (byte : Z) : pkttransfer_t * list event :=
  let s := state i in
  match rx_state s with
  | PKTTRANSFER_STATE_DELIMITER =>
      if byte =? PKTTRANSFER_FRAME_DELIMITER_BYTE then
        (with_state i
           (set_rx (set_sof_detections_cnt s (u32 (sof_detections_cnt s + 1)))
                   PKTTRANSFER_STATE_BYTE (rx_size s)), [])
      else (i, [])
  | PKTTRANSFER_STATE_BYTE =>
      if byte =? PKTTRANSFER_FRAME_ESCAPE_BYTE then
        (with_state i (set_rx s PKTTRANSFER_STATE_ENCODED_BYTE (rx_size s)), [])
      else if byte =? PKTTRANSFER_FRAME_DELIMITER_BYTE then
        let (i1, evs) := pkttransfer_process_frame i in
        (with_state i1 (set_rx (state i1) PKTTRANSFER_STATE_DELIMITER 0), evs)
      else if payload_size_max (config i) <=? rx_size s then
        (with_state i (set_rx s PKTTRANSFER_STATE_DELIMITER 0), [])
      else
        (with_state (with_buf_rx i (wr (buf_rx_p (config i)) (rx_size s) byte))
                    (set_rx s PKTTRANSFER_STATE_BYTE (usize (rx_size s + 1))), [])
  | PKTTRANSFER_STATE_ENCODED_BYTE =>
      if (negb (byte =? PKTTRANSFER_FRAME_ENCODED_DELIMITER_BYTE)
          && negb (byte =? PKTTRANSFER_FRAME_ENCODED_ESCAPE_BYTE))
         || (payload_size_max (config i) <=? rx_size s)
      then
        (with_state i (set_rx s PKTTRANSFER_STATE_DELIMITER 0), [])
      else
        let byte := if byte =? PKTTRANSFER_FRAME_ENCODED_DELIMITER_BYTE
                    then PKTTRANSFER_FRAME_DELIMITER_BYTE
                    else PKTTRANSFER_FRAME_ESCAPE_BYTE in
        (with_state (with_buf_rx i (wr (buf_rx_p (config i)) (rx_size s) byte))
                    (set_rx s PKTTRANSFER_STATE_BYTE (usize (rx_size s + 1))), [])
  end.

(** ** Public functions *)

Definition state_zero : pkttransfer_state_t :=
  mk_state PKTTRANSFER_STATE_DELIMITER 0 0 PKTTRANSFER_STATE_DELIMITER 0 0 0 0 0 0.

(** [pkttransfer_init]: the instance is zeroed, then the configuration is
    copied in.  The buffers keep whatever bytes the caller's memory holds. *)
Definition pkttransfer_init (config_p : pkttransfer_config_t) : pkttransfer_t :=
  mk_inst config_p state_zero.

Definition init_asserts (config_p : pkttransfer_config_t) : bool :=
  negb (payload_size_max config_p =? 0).

(** [pkttransfer_deinit]: the whole instance is zeroed (null buffer pointers). *)
Definition pkttransfer_deinit (i : pkttransfer_t) : pkttransfer_t :=
  mk_inst (mk_config 0 [] []) state_zero.

(** [pkttransfer_is_init]. *)
Definition pkttransfer_is_init (i : pkttransfer_t) : bool :=
  negb (payload_size_max (config i) =? 0).

(** [pkttransfer_send]; [can_id_tx] is a parameter of the CAN build only. *)
Definition pkttransfer_send (b : build) (i : pkttransfer_t) (payload_p : list Z) (size : Z)
    (can_id_tx : Z) : pkttransfer_t * pkttransfer_err_enum_t :=
  let s := state i in
  if payload_size_max (config i) <? size then (i, PKTTRANSFER_ERR_TX_OVF)
  else if negb (tx_size s =? 0) then (i, PKTTRANSFER_ERR_TX_OVF)
  else
    let buf := memcpy (buf_tx_p (config i)) payload_p size in
    let s := set_tx s (tx_state s) (usize (size + PKTTRANSFER_FRAME_CRC_SIZE)) 0 in
    let s := match b with
             | OVER_UART => s
             | OVER_CAN => set_can_id_tx s (u32 can_id_tx)
             end in
    let crc := pkttransfer_crc16 buf size in
    let buf := wr buf size (Z.land crc 0xFF) in
    let buf := wr buf (usize (size + 1)) (Z.shiftr crc 8) in
    (with_state (with_buf_tx i buf) s, PKTTRANSFER_ERR_OK).

(** [pkttransfer_set_can_id_rx] (CAN build). *)
Definition pkttransfer_set_can_id_rx (i : pkttransfer_t) (id : Z) : pkttransfer_t :=
  with_state i (set_can_id_rx (state i) (u32 id)).

(** The transmit loop of the CAN task: up to [n] bytes are prepared, the loop
    is left as soon as nothing is left to send. *)
Fixpoint can_prepare_bytes (n : nat) (i : pkttransfer_t) : pkttransfer_t * list Z :=
  match n with
  | O => (i, [])
  | S n' =>
      let (i1, byte) := pkttransfer_prepare_byte i in
      if negb (pkttransfer_bytes_for_sending i1) then (i1, [byte])
      else
        let (i2, bytes) := can_prepare_bytes n' i1 in
        (i2, byte :: bytes)
  end.

(** The receive loop of the CAN task. *)
Fixpoint process_bytes (i : pkttransfer_t) (bytes : list Z) : pkttransfer_t * list event :=
  match bytes with
  | [] => (i, [])
  | byte :: rest =>
      let (i1, evs1) := pkttransfer_process_byte i byte in
      let (i2, evs2) := process_bytes i1 rest in
      (i2, evs1 ++ evs2)
  end.

(** [pkttransfer_task], UART build. *)
Definition pkttransfer_task_uart (i : pkttransfer_t) (hw : hw_uart_in)
    : pkttransfer_t * list event :=
  let (i1, evs_tx) :=
    if pkttransfer_bytes_for_sending i then
      if uart_tx_is_avail hw then
        let (i', transmit_byte) := pkttransfer_prepare_byte i in
        (i', [EvUartTx transmit_byte])
      else (i, [])
    else (i, []) in
  let (i2, evs_rx) :=
    if uart_rx_is_ready hw then pkttransfer_process_byte i1 (uart_rx hw)
    else (i1, []) in
  (i2, evs_tx ++ evs_rx).

(** [pkttransfer_task], CAN build.  [can_rx hw] holds the bytes the receive
    callback copied out, their number being its return value (at most
    [PKTTRANSFER_CAN_MGS_SIZE] by the callback's contract). *)
Definition pkttransfer_task_can (i : pkttransfer_t) (hw : hw_can_in)
    : pkttransfer_t * list event :=
  let (i1, evs_tx) :=
    if pkttransfer_bytes_for_sending i then
      if can_tx_is_avail hw then
        let (i', transmit_buf) := can_prepare_bytes PKTTRANSFER_CAN_MGS_SIZE i in
        (i', [EvCanTx transmit_buf (Z.of_nat (length transmit_buf)) (can_id_tx (state i'))])
      else (i, [])
    else (i, []) in
  let (i2, evs_rx) :=
    if can_rx_is_ready hw then
      let (i', evs) := process_bytes i1 (can_rx hw) in
      (i', EvCanRx (can_id_rx (state i1)) :: evs)
    else (i1, []) in
  (i2, evs_tx ++ evs_rx).

(** ** Runs of the driver *)

(** Operations of the application on an instance. *)
Inductive op :=
| OpSend (payload_p : list Z) (size : Z) (can_id_tx : Z)
| OpSetCanIdRx (can_id_rx : Z)
| OpTaskUart (hw : hw_uart_in)
| OpTaskCan (hw : hw_can_in).

Definition step (b : build) (i : pkttransfer_t) (o : op) : pkttransfer_t * list event :=
  match o with
  | OpSend payload_p size id => (fst (pkttransfer_send b i payload_p size id), [])
  | OpSetCanIdRx id => (pkttransfer_set_can_id_rx i id, [])
  | OpTaskUart hw => pkttransfer_task_uart i hw
  | OpTaskCan hw => pkttransfer_task_can i hw
  end.

(** An operation the build offers, with arguments of its C types: a size is a
    [size_t], and an accepted payload has at least [size] bytes. *)
Definition op_ok (b : build) (i : pkttransfer_t) (o : op) : Prop :=
  match o with
  | OpSend payload_p size _ =>
      is_usize size /\
      (size <= payload_size_max (config i) -> size <= Z.of_nat (length payload_p))
  | OpSetCanIdRx _ => b = OVER_CAN
  | OpTaskUart _ => b = OVER_UART
  | OpTaskCan _ => b = OVER_CAN
  end.

(** A configuration [pkttransfer_init] accepts: a non-zero maximum payload
    size and two buffers of [payload_size_max + PKTTRANSFER_FRAME_CRC_SIZE]
    bytes. *)
Definition config_ok (c : pkttransfer_config_t) : Prop :=
  0 < payload_size_max c /\
  is_usize (payload_size_max c + PKTTRANSFER_FRAME_CRC_SIZE) /\
  Z.of_nat (length (buf_rx_p c)) = payload_size_max c + PKTTRANSFER_FRAME_CRC_SIZE /\
  Z.of_nat (length (buf_tx_p c)) = payload_size_max c + PKTTRANSFER_FRAME_CRC_SIZE.

(** States reachable from [pkttransfer_init] by submit, set-id and task
    operations, whatever the hardware callbacks return. *)
Inductive reachable (b : build) (c : pkttransfer_config_t) : pkttransfer_t -> Prop :=
| reach_init : config_ok c -> reachable b c (pkttransfer_init c)
| reach_step i o : reachable b c i -> op_ok b i o -> reachable b c (fst (step b i o)).

(** The bytes handed to the hardware by a trace, and the payloads delivered
    to the application. *)
Definition wire_of (e : event) : list Z :=
  match e with
  | EvUartTx byte => [byte]
  | EvCanTx data _ _ => data
  | _ => []
  end.

Definition wire (evs : list event) : list Z := flat_map wire_of evs.

Definition delivered_of (e : event) : list (list Z) :=
  match e with
  | EvAppPkt payload _ => [payload]
  | _ => []
  end.

Definition delivered (evs : list event) : list (list Z) := flat_map delivered_of evs.

(** The task pump of the UART build: one task invocation per hardware input,
    until [tx_size == 0]. *)
Fixpoint pump_uart (i : pkttransfer_t) (hws : list hw_uart_in) : pkttransfer_t * list event :=
  match hws with
  | [] => (i, [])
  | hw :: rest =>
      if tx_size (state i) =? 0 then (i, [])
      else
        let (i1, evs1) := pkttransfer_task_uart i hw in
        let (i2, evs2) := pump_uart i1 rest in
        (i2, evs1 ++ evs2)
  end.

(** The same for the CAN build. *)
Fixpoint pump_can (i : pkttransfer_t) (hws : list hw_can_in) : pkttransfer_t * list event :=
  match hws with
  | [] => (i, [])
  | hw :: rest =>
      if tx_size (state i) =? 0 then (i, [])
      else
        let (i1, evs1) := pkttransfer_task_can i hw in
        let (i2, evs2) := pump_can i1 rest in
        (i2, evs1 ++ evs2)
  end.

(** Feeding a byte sequence to the decoder, one byte per UART task. *)
Definition uart_rx_in (byte : Z) : hw_uart_in := mk_uart_in false true byte.

Fixpoint run_uart (i : pkttransfer_t) (hws : list hw_uart_in) : pkttransfer_t * list event :=
  match hws with
  | [] => (i, [])
  | hw :: rest =>
      let (i1, evs1) := pkttransfer_task_uart i hw in
      let (i2, evs2) := run_uart i1 rest in
      (i2, evs1 ++ evs2)
  end.

Fixpoint run_can (i : pkttransfer_t) (hws : list hw_can_in) : pkttransfer_t * list event :=
  match hws with
  | [] => (i, [])
  | hw :: rest =>
      let (i1, evs1) := pkttransfer_task_can i hw in
      let (i2, evs2) := run_can i1 rest in
      (i2, evs1 ++ evs2)
  end.

(** ** The wire format, following the specification *)

Definition stuff (byte : Z) : list Z :=
  if byte =? 0x7E then [0x7D; 0x5E]
  else if byte =? 0x7D then [0x7D; 0x5D]
  else [byte].

Definition stuffed (body : list Z) : list Z := flat_map stuff body.

Definition crc_lo (p : list Z) : Z := Z.land (crc16_x25 p) 0xFF.
Definition crc_hi (p : list Z) : Z := Z.shiftr (crc16_x25 p) 8.

Definition framed (p : list Z) : list Z :=
  0x7E :: stuffed (p ++ [crc_lo p; crc_hi p]) ++ [0x7E].

(** ** Test configurations and hardware inputs *)

Definition test_config (pm : Z) : pkttransfer_config_t :=
  mk_config pm (replicate (Z.to_nat (pm + 2)) 0) (replicate (Z.to_nat (pm + 2)) 0).

Definition avail_uart : hw_uart_in := mk_uart_in true false 0.
Definition avail_can : hw_can_in := mk_can_in true false [].

(** ** Deciding a property of 16-bit values *)

(** A property of 16-bit values decided by running through all of them. *)
Fixpoint all_from (n : nat) (c : Z) (P : Z -> bool) : bool :=
  match n with
  | O => true
  | S n' => P c && all_from n' (c + 1) P
  end.

Definition all_u16 (P : Z -> bool) : bool := all_from (Z.to_nat 65536) 0 P.

(** ** Invariants of an initialized instance *)

(** The configuration is the one given to [pkttransfer_init]; only the
    contents of the buffers change. *)
Definition cfg_inv (c : pkttransfer_config_t) (i : pkttransfer_t) : Prop :=
  config_ok c /\
  payload_size_max (config i) = payload_size_max c /\
  length (buf_rx_p (config i)) = length (buf_rx_p c) /\
  length (buf_tx_p (config i)) = length (buf_tx_p c).

Definition tx_inv (i : pkttransfer_t) : Prop :=
  0 <= sent_size (state i) <= tx_size (state i) /\
  tx_size (state i) <= payload_size_max (config i) + PKTTRANSFER_FRAME_CRC_SIZE /\
  (tx_size (state i) = 0 -> tx_state (state i) = PKTTRANSFER_STATE_DELIMITER).

(** The part of the RX buffer that is never written: everything from index
    [payload_size_max] on keeps the bytes it had at initialization. *)
Definition rx_inv (c : pkttransfer_config_t) (i : pkttransfer_t) : Prop :=
  0 <= rx_size (state i) <= payload_size_max (config i) /\
  drop (Z.to_nat (payload_size_max c)) (buf_rx_p (config i))
  = drop (Z.to_nat (payload_size_max c)) (buf_rx_p c).

Definition inv (c : pkttransfer_config_t) (i : pkttransfer_t) : Prop :=
  cfg_inv c i /\ tx_inv i /\ rx_inv c i.

(** What the transmit side reads; the decoder leaves it alone. *)
Definition tx_view (i : pkttransfer_t) :=
  (tx_state (state i), tx_size (state i), sent_size (state i), sent_packets_cnt (state i),
   buf_tx_p (config i), payload_size_max (config i), can_id_tx (state i)).

(** ** Runs of operations *)

(** A run of operations from a state. *)
Fixpoint run_ops (b : build) (i : pkttransfer_t) (ops : list op) : pkttransfer_t :=
  match ops with
  | [] => i
  | o :: rest => run_ops b (fst (step b i o)) rest
  end.

Fixpoint ops_ok (b : build) (i : pkttransfer_t) (ops : list op) : Prop :=
  match ops with
  | [] => True
  | o :: rest => op_ok b i o /\ ops_ok b (fst (step b i o)) rest
  end.

(** ** The wire bytes still to be sent *)

(** The bytes of the TX buffer still to be encoded. *)
Definition tx_body (i : pkttransfer_t) : list Z :=
  drop (Z.to_nat (sent_size (state i)))
       (take (Z.to_nat (tx_size (state i))) (buf_tx_p (config i))).

(** The wire bytes the encoder has yet to produce for the frame in the TX
    buffer, read off its state. *)
Definition pending (i : pkttransfer_t) : list Z :=
  if tx_size (state i) =? 0 then []
  else
    match tx_body i with
    | [] => [0x7E]
    | byte :: rest =>
        match tx_state (state i) with
        | PKTTRANSFER_STATE_DELIMITER => 0x7E :: stuffed (byte :: rest) ++ [0x7E]
        | PKTTRANSFER_STATE_BYTE => stuffed (byte :: rest) ++ [0x7E]
        | PKTTRANSFER_STATE_ENCODED_BYTE =>
            (if byte =? 0x7E then 0x5E else 0x5D) :: stuffed rest ++ [0x7E]
        end
    end.

(** The encoder is ready to run: something is being sent and the cursor is
    inside the TX buffer. *)
Definition tx_ready (i : pkttransfer_t) : Prop :=
  0 <= sent_size (state i) <= tx_size (state i)
  /\ tx_size (state i) <= Z.of_nat (length (buf_tx_p (config i)))
  /\ is_usize (tx_size (state i)).

(** The state of the encoder after a task step, or idle. *)
Definition tx_next (i : pkttransfer_t) : Prop :=
  tx_size (state i) = 0 \/ tx_ready i.

(** ** The receive part of an operation *)

(** The instance when the receive part of an operation begins: the result of
    the same operation with the same transmit-side callback values and
    [rx_is_ready_cb] returning false. *)
Definition rx_start (b : build) (i : pkttransfer_t) (o : op) : pkttransfer_t :=
  match o with
  | OpTaskUart hw =>
      fst (pkttransfer_task_uart i (mk_uart_in (uart_tx_is_avail hw) false 0))
  | OpTaskCan hw =>
      fst (pkttransfer_task_can i (mk_can_in (can_tx_is_avail hw) false []))
  | _ => fst (step b i o)
  end.

(** The bytes an operation passes to [pkttransfer_process_byte], in call
    order. *)
Definition rx_input (o : op) : list Z :=
  match o with
  | OpTaskUart hw => if uart_rx_is_ready hw then [uart_rx hw] else []
  | OpTaskCan hw => if can_rx_is_ready hw then can_rx hw else []
  | _ => []
  end.

(** ** The CAN scenario *)

Definition can_payload : list Z := [0x31;0x32;0x33;0x34;0x35;0x36;0x37;0x38;0x39].

Definition can_frame : list Z :=
  [0x7E;0x31;0x32;0x33;0x34;0x35;0x36;0x37;0x38;0x39;0x6E;0x90;0x7E].

(** The instance of the scenario: initialized with [payload_size_max = 512],
    the receive identifier set to 2. *)
Definition can_inst : pkttransfer_t :=
  pkttransfer_set_can_id_rx (pkttransfer_init (test_config 512)) 2.

Definition can_rx_in (data : list Z) : hw_can_in := mk_can_in false true data.

(** ** States of the decoder inside a frame *)

(** The decoder is inside a frame, in state [st], and has buffered the bytes
    [acc]. *)
Definition buffered (st : pkttransfer_frame_state_enum_t) (pm : Z) (len : nat) (cnt : Z)
    (acc : list Z) (j : pkttransfer_t) : Prop :=
  rx_state (state j) = st
  /\ rx_size (state j) = Z.of_nat (length acc)
  /\ take (length acc) (buf_rx_p (config j)) = acc
  /\ length (buf_rx_p (config j)) = len
  /\ payload_size_max (config j) = pm
  /\ received_packets_cnt (state j) = cnt.

(** The decoder after an escape byte, and after storing a byte. *)
Definition rx_escape (j : pkttransfer_t) : pkttransfer_t :=
  with_state j (set_rx (state j) PKTTRANSFER_STATE_ENCODED_BYTE (rx_size (state j))).

Definition rx_push (j : pkttransfer_t) (v : Z) : pkttransfer_t :=
  with_state (with_buf_rx j (wr (buf_rx_p (config j)) (rx_size (state j)) v))
             (set_rx (state j) PKTTRANSFER_STATE_BYTE (usize (rx_size (state j) + 1))).

(** The decoder after dropping the frame in progress. *)
Definition rx_drop (j : pkttransfer_t) : pkttransfer_t :=
  with_state j (set_rx (state j) PKTTRANSFER_STATE_DELIMITER 0).

(** ** The CRC function of the earlier implementation file *)

(** The code after the loop of the three-argument [pkttransfer_crc16] of
    [drv_pkttransfer.c]: the same steps as [crc16_finish], made on the
    caller's two-byte array [out_p], which is returned with the value. *)
Definition crc16_out_finish (crc : Z) : Z * list Z :=
  let xorout := 0xFFFF in
  let out_p0 := u8 (Z.shiftr (Z.land crc 0xFF00) 8) in
  let out_p1 := u8 (Z.land crc 0x00FF) in
  let out_p0 := u8 (Z.lxor out_p0 (Z.land xorout 0x00FF)) in
  let out_p1 := u8 (Z.lxor out_p1 (Z.shiftr (Z.land xorout 0xFF00) 8)) in
  let tmp := out_p0 in
  let out_p0 := out_p1 in
  let out_p1 := tmp in
  (u16 (Z.lor (Z.shiftl (Z.land out_p1 0x00FF) 8) out_p0), [out_p0; out_p1]).

(** [pkttransfer_crc16(data_p, size, out_p)] of [drv_pkttransfer.c]: the
    returned value and the contents of [out_p]. *)
Definition pkttransfer_crc16_out (data_p : list Z) (size : Z) : Z * list Z :=
  crc16_out_finish (fold_left crc16_byte (take (Z.to_nat size) data_p) 0xFFFF).

(** ** Observations on runs *)

(** The number of task invocations in which the UART was ready to send. *)
Definition uart_avail_count (hws : list hw_uart_in) : nat :=
  length (List.filter uart_tx_is_avail hws).

(** The consecutive slices of [n] bytes of a byte sequence, the last one
    shorter when the length is no multiple of [n]; [fuel] bounds the number
    of slices. *)
Fixpoint chunks_aux (n : nat) (fuel : nat) (l : list Z) : list (list Z) :=
  match fuel with
  | O => []
  | S fuel' =>
      match l with
      | [] => []
      | _ :: _ => take n l :: chunks_aux n fuel' (drop n l)
      end
  end.

Definition chunks (n : nat) (l : list Z) : list (list Z) := chunks_aux n (length l) l.

(** The CAN messages of a trace: data, size and identifier given to [tx_cb]. *)
Definition can_msg_of (e : event) : list (list Z * Z * Z) :=
  match e with
  | EvCanTx data size can_id => [(data, size, can_id)]
  | _ => []
  end.

Definition can_msgs (evs : list event) : list (list Z * Z * Z) := flat_map can_msg_of evs.

(** The transmit side after a submit with packet counter [k]: still sending,
    or idle again with the counter advanced. *)
Definition tx_phase (k : Z) (i : pkttransfer_t) : Prop :=
  (tx_size (state i) <> 0 /\ sent_packets_cnt (state i) = k)
  \/ (tx_size (state i) = 0 /\ sent_size (state i) = 0
      /\ tx_state (state i) = PKTTRANSFER_STATE_DELIMITER
      /\ sent_packets_cnt (state i) = u32 (k + 1)).

(** What the receive side reads and writes. *)
Definition rx_view (i : pkttransfer_t) :=
  (rx_state (state i), rx_size (state i), sof_detections_cnt (state i),
   received_packets_cnt (state i), buf_rx_p (config i), payload_size_max (config i)).

(** The bytes read from the hardware by a sequence of task invocations. *)
Definition uart_rx_bytes (hws : list hw_uart_in) : list Z :=
  flat_map (fun hw => if uart_rx_is_ready hw then [uart_rx hw] else []) hws.

Definition can_rx_bytes (hws : list hw_can_in) : list Z :=
  flat_map (fun hw => if can_rx_is_ready hw then can_rx hw else []) hws.

(** The decoder is between frames, with nothing buffered. *)
Definition rx_idle (pm : Z) (len : nat) (cnt : Z) (j : pkttransfer_t) : Prop :=
  rx_state (state j) = PKTTRANSFER_STATE_DELIMITER
  /\ rx_size (state j) = 0
  /\ length (buf_rx_p (config j)) = len
  /\ payload_size_max (config j) = pm
  /\ received_packets_cnt (state j) = cnt.

(** Outside a frame nothing is buffered. *)
Definition rx_phase_ok (i : pkttransfer_t) : Prop :=
  rx_state (state i) = PKTTRANSFER_STATE_DELIMITER -> rx_size (state i) = 0.

(** A received stream: frames, each after some bytes of line noise. *)
Definition stream_of (frames : list (list Z * list Z)) : list Z :=
  flat_map (fun f => fst f ++ framed (snd f)) frames.

(** A frame the decoder can hold, after noise without delimiter. *)
Definition frame_ok (pm : Z) (f : list Z * list Z) : Prop :=
  Forall (fun byte => byte <> 0x7E) (fst f)
  /\ Forall is_u8 (snd f)
  /\ 1 <= Z.of_nat (length (snd f)) <= pm - 2.

(** The decoder after a start-of-frame delimiter. *)
Definition rx_open (j : pkttransfer_t) : pkttransfer_t :=
  with_state j (set_rx (set_sof_detections_cnt (state j) (u32 (sof_detections_cnt (state j) + 1)))
                       PKTTRANSFER_STATE_BYTE (rx_size (state j))).

(** The trace of a run of operations. *)
Fixpoint trace (b : build) (i : pkttransfer_t) (ops : list op) : list event :=
  match ops with
  | [] => []
  | o :: rest => snd (step b i o) ++ trace b (fst (step b i o)) rest
  end.

(** The number of submits of a run that were accepted. *)
Definition accepted_of (b : build) (i : pkttransfer_t) (o : op) : Z :=
  match o with
  | OpSend payload_p size id =>
      match snd (pkttransfer_send b i payload_p size id) with
      | PKTTRANSFER_ERR_OK => 1
      | _ => 0
      end
  | _ => 0
  end.

Fixpoint accepted (b : build) (i : pkttransfer_t) (ops : list op) : Z :=
  match ops with
  | [] => 0
  | o :: rest => accepted_of b i o + accepted b (fst (step b i o)) rest
  end.

(** 1 while a frame is being sent, 0 when idle. *)
Definition in_flight (i : pkttransfer_t) : Z := if tx_size (state i) =? 0 then 0 else 1.

(** The identifiers given to the receive callback of the CAN build. *)
Definition rx_request_of (e : event) : list Z :=
  match e with
  | EvCanRx can_id => [can_id]
  | _ => []
  end.

Definition rx_requests (evs : list event) : list Z := flat_map rx_request_of evs.

(** The conditions asserted at the entry of the driver's functions. *)
Definition asserts_ok (i : pkttransfer_t) : Prop :=
  pkttransfer_is_init i = true
  /\ bytes_for_sending_asserts i = true
  /\ process_asserts i = true
  /\ (pkttransfer_bytes_for_sending i = true -> prepare_byte_asserts i = true).

(** [sent_packets_cnt] is the number [a] of accepted submits less the one in
    flight. *)
Definition sent_ok (a : Z) (i : pkttransfer_t) : Prop :=
  sent_packets_cnt (state i) = u32 (a - in_flight i).

(** An operation other than [pkttransfer_set_can_id_rx]. *)
Definition keeps_can_id_rx (o : op) : Prop :=
  match o with
  | OpSetCanIdRx _ => False
  | _ => True
  end.

(** * Proofs *)

(** ** Test vectors *)

Example crc16_check : pkttransfer_crc16 [0x31;0x32;0x33;0x34;0x35;0x36;0x37;0x38;0x39] 9 = 0x906E.
Proof. reflexivity. Qed.

Example vector3_tx :
  wire (snd (pump_uart (fst (pkttransfer_send OVER_UART (pkttransfer_init (test_config 512))
                                              [0x01;0x7D;0x02;0x7E] 4 0))
                       (replicate 20 avail_uart)))
  = [0x7E;0x01;0x7D;0x5D;0x02;0x7D;0x5E;0x8B;0x36;0x7E].
Proof. vm_compute. reflexivity. Qed.

Example vector3_rx :
  delivered (snd (run_uart (pkttransfer_init (test_config 512))
                           (map uart_rx_in [0x7E;0x01;0x7D;0x5D;0x02;0x7D;0x5E;0x8B;0x36;0x7E])))
  = [[0x01;0x7D;0x02;0x7E]].
Proof. vm_compute. reflexivity. Qed.

Example vector3_framed :
  framed [0x01;0x7D;0x02;0x7E] = [0x7E;0x01;0x7D;0x5D;0x02;0x7D;0x5E;0x8B;0x36;0x7E].
Proof. vm_compute. reflexivity. Qed.

Example vector1_framed : framed [0x00] = [0x7E;0x00;0x78;0xF0;0x7E].
Proof. vm_compute. reflexivity. Qed.

Example vector1_tx :
  wire (snd (pump_uart (fst (pkttransfer_send OVER_UART (pkttransfer_init (test_config 512))
                                              [0x00] 1 0))
                       (replicate 10 avail_uart)))
  = [0x7E;0x00;0x78;0xF0;0x7E].
Proof. vm_compute. reflexivity. Qed.

Example vector1_rx :
  delivered (snd (run_uart (pkttransfer_init (test_config 512))
                           (map uart_rx_in [0x7E;0x00;0x78;0xF0;0x7E])))
  = [[0x00]].
Proof. vm_compute. reflexivity. Qed.

Example vector4_tx :
  wire (snd (pump_uart (fst (pkttransfer_send OVER_UART (pkttransfer_init (test_config 512))
                                              [0x7E;0x7D;0x7E;0x7D] 4 0))
                       (replicate 24 avail_uart)))
  = [0x7E;0x7D;0x5E;0x7D;0x5D;0x7D;0x5E;0x7D;0x5D;0xC8;0xB5;0x7E].
Proof. vm_compute. reflexivity. Qed.

Example vector4_rx :
  delivered (snd (run_uart (pkttransfer_init (test_config 512))
                           (map uart_rx_in
                                [0x7E;0x7D;0x5E;0x7D;0x5D;0x7D;0x5E;0x7D;0x5D;0xC8;0xB5;0x7E])))
  = [[0x7E;0x7D;0x7E;0x7D]].
Proof. vm_compute. reflexivity. Qed.

(** ** Fixed-width arithmetic *)

Lemma u8_range x : is_u8 (u8 x).
Proof. unfold is_u8, u8. apply Z.mod_pos_bound. lia. Qed.

Lemma u16_range x : is_u16 (u16 x).
Proof. unfold is_u16, u16. apply Z.mod_pos_bound. lia. Qed.

Lemma usize_range x : is_usize (usize x).
Proof. unfold is_usize, usize. apply Z.mod_pos_bound. lia. Qed.

Lemma u8_id x : is_u8 x -> u8 x = x.
Proof. unfold is_u8, u8. intros H. apply Z.mod_small. lia. Qed.

Lemma u16_id x : is_u16 x -> u16 x = x.
Proof. unfold is_u16, u16. intros H. apply Z.mod_small. lia. Qed.

Lemma usize_id x : is_usize x -> usize x = x.
Proof. unfold is_usize, usize. intros H. apply Z.mod_small. lia. Qed.

Lemma usize_le x : 0 <= x -> usize x <= x.
Proof. intros H. unfold usize. apply Z.mod_le; lia. Qed.

Lemma land_lxor_distr a b m : Z.land (Z.lxor a b) m = Z.lxor (Z.land a m) (Z.land b m).
Proof.
  apply Z.bits_inj'. intros n _.
  rewrite !Z.land_spec, !Z.lxor_spec, !Z.land_spec.
  destruct (Z.testbit a n), (Z.testbit b n), (Z.testbit m n); reflexivity.
Qed.

Lemma lxor_u16 a b : is_u16 a -> is_u16 b -> is_u16 (Z.lxor a b).
Proof.
  intros Ha Hb.
  rewrite <- (u16_id a Ha), <- (u16_id b Hb). unfold u16.
  rewrite <- !(Z.land_ones _ 16) by lia.
  rewrite <- land_lxor_distr, Z.land_ones by lia.
  apply u16_range.
Qed.

Lemma all_from_spec n P :
  forall c0, all_from n c0 P = true -> forall c, c0 <= c < c0 + Z.of_nat n -> P c = true.
Proof.
  induction n as [|n IH]; intros c0 H c Hc.
  - lia.
  - cbn [all_from] in H. apply andb_prop in H as [H1 H2].
    destruct (Z.eq_dec c c0) as [->|Hne]; [exact H1|].
    apply (IH (c0 + 1) H2). lia.
Qed.

Lemma all_u16_spec P : all_u16 P = true -> forall c, is_u16 c -> P c = true.
Proof.
  unfold all_u16, is_u16. intros H c Hc.
  apply (all_from_spec _ _ _ H). lia.
Qed.

(** ** CRC engine *)

Lemma crc16_bit_x25 c : is_u16 c -> crc16_bit c = x25_shift c.
Proof.
  intros Hc. apply Z.eqb_eq.
  apply (all_u16_spec (fun c => crc16_bit c =? x25_shift c)); [|exact Hc].
  vm_compute. reflexivity.
Qed.

Lemma x25_shift_range c : is_u16 c -> is_u16 (x25_shift c).
Proof.
  intros Hc. rewrite <- crc16_bit_x25 by assumption.
  unfold crc16_bit. apply u16_range.
Qed.

Lemma iter_shift_x25 n c :
  is_u16 c -> Nat.iter n crc16_bit c = Nat.iter n x25_shift c /\ is_u16 (Nat.iter n x25_shift c).
Proof.
  intros Hc. induction n as [|n [IH1 IH2]].
  - split; [reflexivity | assumption].
  - rewrite !Nat.iter_succ, IH1. split.
    + apply crc16_bit_x25, IH2.
    + apply x25_shift_range, IH2.
Qed.

Lemma u8_u16 b : is_u8 b -> is_u16 b.
Proof. unfold is_u8, is_u16. lia. Qed.

Lemma land_byte b : is_u8 b -> Z.land (u16 b) 0xFF = b.
Proof.
  intros Hb. rewrite u16_id by (apply u8_u16, Hb).
  change 0xFF with (Z.ones 8). rewrite Z.land_ones by lia.
  apply (u8_id b Hb).
Qed.

Lemma crc16_byte_x25 c b :
  is_u16 c -> is_u8 b -> crc16_byte c b = x25_byte c b /\ is_u16 (x25_byte c b).
Proof.
  intros Hc Hb. unfold crc16_byte, x25_byte.
  rewrite land_byte by assumption.
  assert (Hx : is_u16 (Z.lxor c b)) by (apply lxor_u16; [assumption | apply u8_u16, Hb]).
  rewrite (u16_id _ Hx).
  apply iter_shift_x25, Hx.
Qed.

Lemma fold_left_cons {A B : Type} (f : A -> B -> A) (x : B) (l : list B) (a : A) :
  fold_left f (x :: l) a = fold_left f l (f a x).
Proof. reflexivity. Qed.

Lemma crc16_fold_x25 data c :
  is_u16 c -> Forall is_u8 data ->
  fold_left crc16_byte data c = fold_left x25_byte data c
  /\ is_u16 (fold_left x25_byte data c).
Proof.
  intros Hc Hd. revert c Hc.
  induction Hd as [|b data Hb Hd IH]; intros c Hc.
  - split; [reflexivity | assumption].
  - rewrite !fold_left_cons.
    destruct (crc16_byte_x25 c b Hc Hb) as [-> Hr]. apply IH, Hr.
Qed.

Lemma crc16_finish_xor c : is_u16 c -> crc16_finish c = Z.lxor c 0xFFFF.
Proof.
  intros Hc. apply Z.eqb_eq.
  apply (all_u16_spec (fun c => crc16_finish c =? Z.lxor c 0xFFFF)); [|exact Hc].
  vm_compute. reflexivity.
Qed.

Lemma crc16_finish_range c : is_u16 (crc16_finish c).
Proof. unfold crc16_finish. apply u16_range. Qed.

Lemma pkttransfer_crc16_range buf size : is_u16 (pkttransfer_crc16 buf size).
Proof. apply crc16_finish_range. Qed.

Lemma crc16_eq_x25 (data : list Z) :
  Forall is_u8 data -> pkttransfer_crc16 data (Z.of_nat (length data)) = crc16_x25 data.
Proof.
  intros Hdata. unfold pkttransfer_crc16, crc16_x25.
  rewrite Nat2Z.id, firstn_all.
  destruct (crc16_fold_x25 data 0xFFFF) as [-> Hr]; [unfold is_u16; lia | assumption |].
  apply crc16_finish_xor, Hr.
Qed.

(** C5. [pkttransfer_crc16] is CRC-16/X-25: on every buffer of bytes it
    returns the value of the reference definition [crc16_x25] (reflected
    polynomial 0x8408, initial register 0xFFFF, byte XORed into the low byte,
    eight conditional right shifts, final XOR 0xFFFF), and the CRC of the
    nine bytes 0x31..0x39 is 0x906E. *)
Theorem pkttransfer_crc16_is_x25 (data : list Z) (Hdata : Forall is_u8 data) :
  pkttransfer_crc16 data (Z.of_nat (length data)) = crc16_x25 data
  /\ pkttransfer_crc16 [0x31;0x32;0x33;0x34;0x35;0x36;0x37;0x38;0x39] 9 = 0x906E.
Proof.
  split; [|reflexivity]. apply crc16_eq_x25, Hdata.
Qed.

Lemma pkttransfer_crc16_is_x25_witness :
  Forall is_u8 [0x31;0x32;0x33;0x34;0x35;0x36;0x37;0x38;0x39]
  /\ pkttransfer_crc16 [0x31;0x32;0x33;0x34;0x35;0x36;0x37;0x38;0x39] 9
     = crc16_x25 [0x31;0x32;0x33;0x34;0x35;0x36;0x37;0x38;0x39].
Proof.
  assert (H : Forall is_u8 [0x31;0x32;0x33;0x34;0x35;0x36;0x37;0x38;0x39]).
  { repeat constructor; unfold is_u8; lia. }
  split; [exact H|].
  exact (proj1 (pkttransfer_crc16_is_x25 _ H)).
Defined.

(** ** Invariants of an initialized instance *)

Arguments pkttransfer_crc16 : simpl never.
Arguments u8 : simpl never.
Arguments u16 : simpl never.
Arguments u32 : simpl never.
Arguments usize : simpl never.

Ltac inst_cases i :=
  destruct i as [[?pm ?brx ?btx] [?ts ?tsz ?ssz ?rs ?rsz ?sof ?rcv ?snt ?idr ?idt]].

Ltac zbool :=
  repeat match goal with
  | H : (_ =? _) = true |- _ => apply Z.eqb_eq in H
  | H : (_ =? _) = false |- _ => apply Z.eqb_neq in H
  | H : (_ <=? _) = true |- _ => apply Z.leb_le in H
  | H : (_ <=? _) = false |- _ => apply Z.leb_gt in H
  | H : (_ <? _) = true |- _ => apply Z.ltb_lt in H
  | H : (_ <? _) = false |- _ => apply Z.ltb_ge in H
  end.

Lemma init_inv c : config_ok c -> inv c (pkttransfer_init c).
Proof.
  intros Hc. pose proof Hc as (Hpm & Hsz & Hrx & Htx).
  unfold inv, cfg_inv, tx_inv, rx_inv, pkttransfer_init, PKTTRANSFER_FRAME_CRC_SIZE.
  cbn. split; [split; [exact Hc | auto] |].
  split; [repeat split; try lia; reflexivity | split; [lia | reflexivity]].
Qed.

(** *** The encoder *)

Lemma prepare_byte_config i : config (fst (pkttransfer_prepare_byte i)) = config i.
Proof.
  unfold pkttransfer_prepare_byte.
  destruct (sent_size (state i) =? tx_size (state i)); [reflexivity|].
  destruct (tx_state (state i)); try reflexivity.
  destruct (_ || _); reflexivity.
Qed.

Lemma prepare_byte_rx i :
  rx_size (state (fst (pkttransfer_prepare_byte i))) = rx_size (state i)
  /\ rx_state (state (fst (pkttransfer_prepare_byte i))) = rx_state (state i).
Proof.
  unfold pkttransfer_prepare_byte.
  destruct (sent_size (state i) =? tx_size (state i)); [split; reflexivity|].
  destruct (tx_state (state i)); try (split; reflexivity).
  destruct (_ || _); split; reflexivity.
Qed.

Lemma prepare_byte_tx_inv i :
  tx_inv i -> is_usize (payload_size_max (config i) + PKTTRANSFER_FRAME_CRC_SIZE) ->
  tx_inv (fst (pkttransfer_prepare_byte i)).
Proof.
  unfold tx_inv, is_usize, PKTTRANSFER_FRAME_CRC_SIZE, pkttransfer_prepare_byte.
  intros (Hs & Hm & Hd) Hu.
  destruct (sent_size (state i) =? tx_size (state i)) eqn:E; zbool.
  - cbn. repeat split; auto; lia.
  - assert (Hw : usize (sent_size (state i) + 1) = sent_size (state i) + 1)
      by (apply usize_id; unfold is_usize; lia).
    destruct (tx_state (state i)) eqn:Es.
    + cbn. repeat split; auto; try lia; try (intros; lia).
    + destruct (_ || _); cbn; rewrite ?Hw; repeat split; auto; try lia; try (intros; lia).
    + cbn. rewrite Hw. repeat split; auto; try lia; try (intros; lia).
Qed.

Lemma prepare_byte_inv c i :
  inv c i -> inv c (fst (pkttransfer_prepare_byte i)).
Proof.
  intros ((Hc & Hpm & Hlr & Hlt) & Ht & Hr).
  assert (Hu : is_usize (payload_size_max (config i) + PKTTRANSFER_FRAME_CRC_SIZE)).
  { rewrite Hpm. apply Hc. }
  split; [|split].
  - unfold cfg_inv. rewrite prepare_byte_config. auto.
  - apply prepare_byte_tx_inv; assumption.
  - unfold rx_inv in *. rewrite prepare_byte_config, (proj1 (prepare_byte_rx i)). assumption.
Qed.

Lemma can_prepare_bytes_inv c n : forall i,
  inv c i -> inv c (fst (can_prepare_bytes n i)).
Proof.
  induction n as [|n IH]; intros i Hi; [exact Hi|].
  cbn [can_prepare_bytes].
  pose proof (prepare_byte_inv c i Hi) as H1.
  destruct (pkttransfer_prepare_byte i) as [i1 byte]. cbn [fst] in H1.
  destruct (negb (pkttransfer_bytes_for_sending i1)); [exact H1|].
  specialize (IH i1 H1).
  destruct (can_prepare_bytes n i1) as [i2 bytes]. exact IH.
Qed.

(** *** The decoder *)

Lemma process_frame_spec i :
  (pkttransfer_process_frame i = (i, []))
  \/ (PKTTRANSFER_FRAME_CRC_SIZE < rx_size (state i)
      /\ u16 (Z.lor (Z.shiftl (rd (buf_rx_p (config i)) (rx_size (state i) - 1)) 8)
                    (rd (buf_rx_p (config i)) (rx_size (state i) - 2)))
         = pkttransfer_crc16 (buf_rx_p (config i)) (rx_size (state i) - PKTTRANSFER_FRAME_CRC_SIZE)
      /\ pkttransfer_process_frame i
         = (with_state i (set_received_packets_cnt (state i)
                            (u32 (received_packets_cnt (state i) + 1))),
            [EvAppPkt (take (Z.to_nat (rx_size (state i) - PKTTRANSFER_FRAME_CRC_SIZE))
                            (buf_rx_p (config i)))
                      (rx_size (state i) - PKTTRANSFER_FRAME_CRC_SIZE)])).
Proof.
  unfold pkttransfer_process_frame.
  destruct (rx_size (state i) <=? PKTTRANSFER_FRAME_CRC_SIZE) eqn:E1; [left; reflexivity|].
  destruct (_ =? _) eqn:E2; cbn [negb]; [|left; reflexivity].
  right. zbool. auto.
Qed.

Lemma process_frame_config i : config (fst (pkttransfer_process_frame i)) = config i.
Proof. destruct (process_frame_spec i) as [-> | (_ & _ & ->)]; reflexivity. Qed.

Lemma process_frame_tx_view i : tx_view (fst (pkttransfer_process_frame i)) = tx_view i.
Proof. destruct (process_frame_spec i) as [-> | (_ & _ & ->)]; reflexivity. Qed.

Lemma process_frame_rx i :
  rx_size (state (fst (pkttransfer_process_frame i))) = rx_size (state i).
Proof. destruct (process_frame_spec i) as [-> | (_ & _ & ->)]; reflexivity. Qed.

Lemma process_byte_tx_view i byte :
  tx_view (fst (pkttransfer_process_byte i byte)) = tx_view i.
Proof.
  unfold pkttransfer_process_byte.
  destruct (rx_state (state i)).
  - destruct (byte =? _); reflexivity.
  - destruct (byte =? PKTTRANSFER_FRAME_ESCAPE_BYTE); [reflexivity|].
    destruct (byte =? PKTTRANSFER_FRAME_DELIMITER_BYTE).
    + pose proof (process_frame_tx_view i) as H.
      destruct (pkttransfer_process_frame i) as [i1 evs]. exact H.
    + destruct (_ <=? _); reflexivity.
  - destruct (_ || _); reflexivity.
Qed.

(** The buffer after one byte: untouched, or written at index [rx_size],
    which is below [payload_size_max]. *)
Lemma process_byte_write i byte :
  payload_size_max (config (fst (pkttransfer_process_byte i byte)))
  = payload_size_max (config i)
  /\ (buf_rx_p (config (fst (pkttransfer_process_byte i byte))) = buf_rx_p (config i)
      \/ exists v, rx_size (state i) < payload_size_max (config i)
                   /\ buf_rx_p (config (fst (pkttransfer_process_byte i byte)))
                      = wr (buf_rx_p (config i)) (rx_size (state i)) v).
Proof.
  unfold pkttransfer_process_byte.
  destruct (rx_state (state i)).
  - destruct (byte =? _); cbn; auto.
  - destruct (byte =? PKTTRANSFER_FRAME_ESCAPE_BYTE); [cbn; auto|].
    destruct (byte =? PKTTRANSFER_FRAME_DELIMITER_BYTE).
    + pose proof (process_frame_config i) as H.
      destruct (pkttransfer_process_frame i) as [i1 evs]. cbn in *. rewrite H. auto.
    + destruct (_ <=? _) eqn:E; cbn; [auto|]. zbool. split; [reflexivity|]. right. eauto.
  - destruct (negb _ && negb _); cbn [orb].
    + cbn; auto.
    + destruct (_ <=? _) eqn:E; cbn; [auto|]. zbool. split; [reflexivity|]. right. eauto.
Qed.

Lemma process_byte_rx_size i byte :
  0 <= rx_size (state i) <= payload_size_max (config i) ->
  is_usize (payload_size_max (config i)) ->
  0 <= rx_size (state (fst (pkttransfer_process_byte i byte))) <= payload_size_max (config i).
Proof.
  intros Hr Hu. unfold is_usize in Hu.
  assert (Hw : rx_size (state i) < payload_size_max (config i) ->
               usize (rx_size (state i) + 1) = rx_size (state i) + 1)
    by (intros; apply usize_id; unfold is_usize; lia).
  unfold pkttransfer_process_byte.
  destruct (rx_state (state i)).
  - destruct (byte =? _); cbn; lia.
  - destruct (byte =? PKTTRANSFER_FRAME_ESCAPE_BYTE); [cbn; lia|].
    destruct (byte =? PKTTRANSFER_FRAME_DELIMITER_BYTE).
    + destruct (pkttransfer_process_frame i) as [i1 evs]. cbn. lia.
    + destruct (_ <=? _) eqn:E; cbn; [lia|]. zbool. rewrite Hw; lia.
  - destruct (negb _ && negb _); cbn [orb].
    + cbn; lia.
    + destruct (_ <=? _) eqn:E; cbn; [lia|]. zbool. rewrite Hw; lia.
Qed.

Lemma wr_length buf k v : length (wr buf k v) = length buf.
Proof. unfold wr. apply length_insert. Qed.

Lemma wr_drop buf k v n : 0 <= k < n -> drop (Z.to_nat n) (wr buf k v) = drop (Z.to_nat n) buf.
Proof. intros H. unfold wr. apply drop_insert_lt. lia. Qed.

Lemma process_byte_inv c i byte :
  inv c i -> inv c (fst (pkttransfer_process_byte i byte)).
Proof.
  intros ((Hc & Hpm & Hlr & Hlt) & Ht & (Hr & Hd)).
  pose proof (process_byte_tx_view i byte) as Hv.
  pose proof (process_byte_write i byte) as (Hp & Hb).
  assert (Hu : is_usize (payload_size_max (config i))).
  { rewrite Hpm. destruct Hc as (? & ? & _).
    unfold is_usize, PKTTRANSFER_FRAME_CRC_SIZE in *. lia. }
  pose proof (process_byte_rx_size i byte Hr Hu) as Hs.
  unfold tx_view in Hv. injection Hv as E1 E2 E3 E4 E5 E6 E7.
  split; [|split].
  - unfold cfg_inv. rewrite E6, E5. split; [exact Hc|]. split; [exact Hpm|].
    split; [|exact Hlt].
    destruct Hb as [-> | (v & _ & ->)]; [assumption|]. rewrite wr_length. assumption.
  - unfold tx_inv in *. rewrite E1, E2, E3, E6. assumption.
  - unfold rx_inv. rewrite E6. split; [assumption|].
    destruct Hb as [-> | (v & Hlt' & ->)]; [assumption|].
    rewrite wr_drop by lia. assumption.
Qed.

Lemma process_bytes_inv c bytes : forall i,
  inv c i -> inv c (fst (process_bytes i bytes)).
Proof.
  induction bytes as [|byte rest IH]; intros i Hi; [exact Hi|].
  cbn [process_bytes].
  pose proof (process_byte_inv c i byte Hi) as H1.
  destruct (pkttransfer_process_byte i byte) as [i1 evs1]. cbn [fst] in H1.
  specialize (IH i1 H1).
  destruct (process_bytes i1 rest) as [i2 evs2]. exact IH.
Qed.

(** *** Submit and task *)

Lemma memcpy_length dst src n :
  0 <= n -> n <= Z.of_nat (length src) -> n <= Z.of_nat (length dst) ->
  length (memcpy dst src n) = length dst.
Proof.
  intros H0 H1 H2. unfold memcpy.
  rewrite length_app, length_take, length_drop. lia.
Qed.

Lemma send_rejected b i payload_p size id :
  snd (pkttransfer_send b i payload_p size id) = PKTTRANSFER_ERR_TX_OVF ->
  fst (pkttransfer_send b i payload_p size id) = i.
Proof.
  unfold pkttransfer_send.
  destruct (_ <? _); [reflexivity|].
  destruct (negb _); [reflexivity|].
  cbn. discriminate.
Qed.

Lemma send_result b i payload_p size id :
  snd (pkttransfer_send b i payload_p size id)
  = if (payload_size_max (config i) <? size) || negb (tx_size (state i) =? 0)
    then PKTTRANSFER_ERR_TX_OVF else PKTTRANSFER_ERR_OK.
Proof.
  unfold pkttransfer_send.
  destruct (_ <? _); [reflexivity|].
  destruct (negb _); reflexivity.
Qed.

(** The instance after an accepted submit. *)
Lemma send_accepted b i payload_p size id :
  size <= payload_size_max (config i) -> tx_size (state i) = 0 ->
  let buf := memcpy (buf_tx_p (config i)) payload_p size in
  let crc := pkttransfer_crc16 buf size in
  let i' := fst (pkttransfer_send b i payload_p size id) in
  snd (pkttransfer_send b i payload_p size id) = PKTTRANSFER_ERR_OK
  /\ buf_tx_p (config i') = wr (wr buf size (Z.land crc 0xFF)) (usize (size + 1)) (Z.shiftr crc 8)
  /\ buf_rx_p (config i') = buf_rx_p (config i)
  /\ payload_size_max (config i') = payload_size_max (config i)
  /\ tx_size (state i') = usize (size + PKTTRANSFER_FRAME_CRC_SIZE)
  /\ sent_size (state i') = 0
  /\ tx_state (state i') = tx_state (state i)
  /\ rx_size (state i') = rx_size (state i)
  /\ rx_state (state i') = rx_state (state i)
  /\ can_id_tx (state i') = match b with OVER_UART => can_id_tx (state i) | OVER_CAN => u32 id end.
Proof.
  intros Hs Ht. unfold pkttransfer_send.
  destruct (_ <? _) eqn:E1; zbool; [lia|].
  rewrite Ht. cbn [Z.eqb negb fst snd].
  destruct b; cbn; repeat split; reflexivity.
Qed.

Lemma send_inv b c i payload_p size id :
  inv c i -> op_ok b i (OpSend payload_p size id) ->
  inv c (fst (pkttransfer_send b i payload_p size id)).
Proof.
  intros Hi (Hsz & Hlen).
  destruct (snd (pkttransfer_send b i payload_p size id)) eqn:Er;
    try (rewrite send_result in Er; destruct (_ || _); discriminate).
  2: { rewrite send_rejected by assumption. exact Hi. }
  rewrite send_result in Er.
  destruct (_ <? _) eqn:E1; [discriminate|].
  destruct (tx_size (state i) =? 0) eqn:E2; [|discriminate]. zbool.
  destruct (send_accepted b i payload_p size id E1 E2)
    as (_ & Hbt & Hbr & Hpm' & Hts & Hss & Hst & Hrs & _).
  destruct Hi as ((Hc & Hpm & Hlr & Hlt) & Ht & (Hr & Hd)).
  pose proof Hc as (Hc1 & Hc2 & Hc3 & Hc4).
  unfold is_usize, PKTTRANSFER_FRAME_CRC_SIZE in *.
  split; [|split].
  - split; [exact Hc|]. rewrite Hpm', Hbr, Hbt, !wr_length.
    split; [exact Hpm|]. split; [exact Hlr|].
    rewrite memcpy_length; [exact Hlt | lia | apply Hlen; lia | lia].
  - unfold tx_inv. rewrite Hts, Hss, Hst, Hpm'.
    rewrite usize_id by (unfold is_usize; lia).
    unfold PKTTRANSFER_FRAME_CRC_SIZE. repeat split; try lia.
  - unfold rx_inv. rewrite Hrs, Hpm', Hbr. split; assumption.
Qed.

Lemma task_uart_inv c i hw : inv c i -> inv c (fst (pkttransfer_task_uart i hw)).
Proof.
  intros Hi. unfold pkttransfer_task_uart.
  assert (H1 : inv c (fst (if pkttransfer_bytes_for_sending i
                           then if uart_tx_is_avail hw
                                then let (i', transmit_byte) := pkttransfer_prepare_byte i in
                                     (i', [EvUartTx transmit_byte])
                                else (i, [])
                           else (i, [])))).
  { destruct (pkttransfer_bytes_for_sending i); [|exact Hi].
    destruct (uart_tx_is_avail hw); [|exact Hi].
    pose proof (prepare_byte_inv c i Hi) as H.
    destruct (pkttransfer_prepare_byte i). exact H. }
  destruct (if pkttransfer_bytes_for_sending i then _ else _) as [i1 evs_tx].
  cbn [fst] in H1.
  destruct (uart_rx_is_ready hw).
  - pose proof (process_byte_inv c i1 (uart_rx hw) H1) as H2.
    destruct (pkttransfer_process_byte i1 (uart_rx hw)). exact H2.
  - exact H1.
Qed.

Lemma task_can_inv c i hw : inv c i -> inv c (fst (pkttransfer_task_can i hw)).
Proof.
  intros Hi. unfold pkttransfer_task_can.
  assert (H1 : inv c (fst (if pkttransfer_bytes_for_sending i
                           then if can_tx_is_avail hw
                                then let (i', transmit_buf) :=
                                       can_prepare_bytes PKTTRANSFER_CAN_MGS_SIZE i in
                                     (i', [EvCanTx transmit_buf (Z.of_nat (length transmit_buf))
                                                   (can_id_tx (state i'))])
                                else (i, [])
                           else (i, [])))).
  { destruct (pkttransfer_bytes_for_sending i); [|exact Hi].
    destruct (can_tx_is_avail hw); [|exact Hi].
    pose proof (can_prepare_bytes_inv c PKTTRANSFER_CAN_MGS_SIZE i Hi) as H.
    destruct (can_prepare_bytes PKTTRANSFER_CAN_MGS_SIZE i). exact H. }
  destruct (if pkttransfer_bytes_for_sending i then _ else _) as [i1 evs_tx].
  cbn [fst] in H1.
  destruct (can_rx_is_ready hw).
  - pose proof (process_bytes_inv c (can_rx hw) i1 H1) as H2.
    destruct (process_bytes i1 (can_rx hw)). exact H2.
  - exact H1.
Qed.

Lemma set_can_id_rx_inv c i id : inv c i -> inv c (pkttransfer_set_can_id_rx i id).
Proof. intros Hi. exact Hi. Qed.

Lemma step_inv b c i o : inv c i -> op_ok b i o -> inv c (fst (step b i o)).
Proof.
  intros Hi Ho. destruct o; cbn [step fst].
  - apply send_inv; assumption.
  - apply set_can_id_rx_inv, Hi.
  - apply task_uart_inv, Hi.
  - apply task_can_inv, Hi.
Qed.

Lemma reachable_inv b c i : reachable b c i -> inv c i.
Proof.
  induction 1 as [Hc | i o Hr IH Ho].
  - apply init_inv, Hc.
  - apply step_inv; assumption.
Qed.

Lemma reachable_run_ops b c ops : forall i,
  reachable b c i -> ops_ok b i ops -> reachable b c (run_ops b i ops).
Proof.
  induction ops as [|o rest IH]; intros i Hr Hok; [exact Hr|].
  destruct Hok as [Ho Hrest]. cbn [run_ops].
  apply IH; [|exact Hrest]. apply reach_step; assumption.
Qed.

Lemma test_config_ok pm : 0 < pm -> pm + 2 < 2 ^ 32 -> config_ok (test_config pm).
Proof.
  intros H1 H2. unfold config_ok, test_config, is_usize, PKTTRANSFER_FRAME_CRC_SIZE. cbn.
  rewrite length_replicate. lia.
Qed.

(** ** The transmit-side invariant *)

(** C6. In every state reachable from [pkttransfer_init] by submit and task
    operations, whatever the hardware and the application callbacks do,
    [sent_size <= tx_size <= payload_size_max + 2], and [tx_state] is
    [Delimiter] whenever [tx_size] is 0. *)
Theorem tx_state_invariant (b : build) (c : pkttransfer_config_t) (i : pkttransfer_t)
    (Hreach : reachable b c i) :
  sent_size (state i) <= tx_size (state i)
  /\ tx_size (state i) <= payload_size_max (config i) + 2
  /\ (tx_size (state i) = 0 -> tx_state (state i) = PKTTRANSFER_STATE_DELIMITER).
Proof.
  destruct (reachable_inv b c i Hreach) as (_ & (Hs & Hm & Hd) & _).
  unfold PKTTRANSFER_FRAME_CRC_SIZE in Hm. repeat split; [lia | lia | exact Hd].
Qed.

Lemma tx_state_invariant_witness :
  let i := run_ops OVER_UART (pkttransfer_init (test_config 4))
                   [OpSend [0x01;0x7D;0x02;0x7E] 4 0; OpTaskUart avail_uart; OpTaskUart avail_uart] in
  reachable OVER_UART (test_config 4) i
  /\ sent_size (state i) <= tx_size (state i)
  /\ tx_size (state i) <= payload_size_max (config i) + 2
  /\ (tx_size (state i) = 0 -> tx_state (state i) = PKTTRANSFER_STATE_DELIMITER).
Proof.
  intros i.
  assert (Hr : reachable OVER_UART (test_config 4) i).
  { apply reachable_run_ops.
    - apply reach_init, test_config_ok; lia.
    - cbn. unfold is_usize. repeat split; lia. }
  split; [exact Hr|].
  exact (tx_state_invariant OVER_UART (test_config 4) i Hr).
Defined.

(** ** The receive-side write bound *)

(** C8. In every reachable state [rx_size <= payload_size_max]; one decoder
    step leaves the RX buffer alone or writes it at index [rx_size] with
    [rx_size < payload_size_max]; and the bytes of the RX buffer from index
    [payload_size_max] on (the last two of its [payload_size_max + 2] bytes)
    still hold what they held at initialization. *)
Theorem rx_write_bound (b : build) (c : pkttransfer_config_t) (i : pkttransfer_t)
    (Hreach : reachable b c i) :
  rx_size (state i) <= payload_size_max (config i)
  /\ (forall byte,
        buf_rx_p (config (fst (pkttransfer_process_byte i byte))) = buf_rx_p (config i)
        \/ exists v, rx_size (state i) < payload_size_max (config i)
                     /\ buf_rx_p (config (fst (pkttransfer_process_byte i byte)))
                        = <[Z.to_nat (rx_size (state i)) := v]> (buf_rx_p (config i)))
  /\ Z.of_nat (length (buf_rx_p (config i))) = payload_size_max (config i) + 2
  /\ drop (Z.to_nat (payload_size_max (config i))) (buf_rx_p (config i))
     = drop (Z.to_nat (payload_size_max (config i))) (buf_rx_p c).
Proof.
  destruct (reachable_inv b c i Hreach) as ((Hc & Hpm & Hlr & Hlt) & _ & (Hr & Hd)).
  destruct Hc as (_ & _ & Hc3 & _). unfold PKTTRANSFER_FRAME_CRC_SIZE in Hc3.
  split; [lia|]. split; [|split].
  - intros byte. destruct (process_byte_write i byte) as (_ & [H | (v & Hlt' & H)]).
    + left. exact H.
    + right. exists (u8 v). split; [exact Hlt' | exact H].
  - rewrite Hlr, Hpm. exact Hc3.
  - rewrite Hpm. exact Hd.
Qed.

Lemma rx_write_bound_witness :
  let c := mk_config 4 [0;0;0;0;0xAA;0xBB] [0;0;0;0;0;0] in
  let i := run_ops OVER_UART (pkttransfer_init c)
                   (map (fun byte => OpTaskUart (uart_rx_in byte)) [0x7E;0x01;0x02;0x03;0x04]) in
  reachable OVER_UART c i
  /\ rx_size (state i) = 4
  /\ buf_rx_p (config i) = [0x01;0x02;0x03;0x04;0xAA;0xBB]
  /\ rx_size (state i) <= payload_size_max (config i)
  /\ drop (Z.to_nat (payload_size_max (config i))) (buf_rx_p (config i))
     = drop (Z.to_nat (payload_size_max (config i))) (buf_rx_p c).
Proof.
  intros c i.
  assert (Hr : reachable OVER_UART c i).
  { apply reachable_run_ops.
    - apply reach_init. unfold config_ok, is_usize, PKTTRANSFER_FRAME_CRC_SIZE, c. cbn. lia.
    - cbn. repeat split. }
  split; [exact Hr|]. split; [reflexivity|]. split; [reflexivity|].
  pose proof (rx_write_bound OVER_UART c i Hr) as (H1 & _ & _ & H2).
  split; [exact H1 | exact H2].
Defined.

(** ** The encoder emits the framed encoding *)

Lemma pending_view i j : tx_view i = tx_view j -> pending i = pending j.
Proof.
  unfold tx_view, pending, tx_body. intros H.
  injection H as -> -> -> _ -> _ _. reflexivity.
Qed.

Lemma tx_ready_view i j : tx_view i = tx_view j -> tx_ready i -> tx_ready j.
Proof.
  unfold tx_view, tx_ready. intros H.
  injection H as _ -> -> _ -> _ _. auto.
Qed.

Lemma pending_nil i : pending i = [] <-> tx_size (state i) = 0.
Proof.
  unfold pending. destruct (tx_size (state i) =? 0) eqn:E; zbool.
  - tauto.
  - split; [|tauto]. destruct (tx_body i); [discriminate|].
    destruct (tx_state (state i)); try discriminate.
    unfold stuffed. cbn [flat_map]. unfold stuff at 1.
    destruct (z =? 0x7E); [discriminate|]. destruct (z =? 0x7D); discriminate.
Qed.

Lemma tx_body_nil i : sent_size (state i) = tx_size (state i) -> 0 <= tx_size (state i) ->
  tx_body i = [].
Proof.
  intros H H0. unfold tx_body. apply drop_ge. rewrite length_take, H. lia.
Qed.

Lemma tx_body_cons i :
  0 <= sent_size (state i) < tx_size (state i) ->
  tx_size (state i) <= Z.of_nat (length (buf_tx_p (config i))) ->
  tx_body i
  = rd (buf_tx_p (config i)) (sent_size (state i))
    :: drop (Z.to_nat (sent_size (state i) + 1))
            (take (Z.to_nat (tx_size (state i))) (buf_tx_p (config i))).
Proof.
  intros Hs Hl. unfold tx_body, rd.
  destruct (lookup_lt_is_Some_2 (buf_tx_p (config i)) (Z.to_nat (sent_size (state i))))
    as [x Hx]; [lia|].
  rewrite Hx. cbn [default from_option id].
  replace (Z.to_nat (sent_size (state i) + 1)) with (S (Z.to_nat (sent_size (state i)))) by lia.
  apply drop_S.
  rewrite lookup_take_lt by lia. exact Hx.
Qed.

Lemma stuffed_cons byte rest : stuffed (byte :: rest) = stuff byte ++ stuffed rest.
Proof. reflexivity. Qed.

Lemma stuffed_app l1 l2 : stuffed (l1 ++ l2) = stuffed l1 ++ stuffed l2.
Proof. unfold stuffed. apply flat_map_app. Qed.

(** One encoder step emits the head of [pending] and leaves its tail. *)
Lemma prepare_byte_pending i :
  tx_ready i -> tx_size (state i) <> 0 ->
  pending i = snd (pkttransfer_prepare_byte i) :: pending (fst (pkttransfer_prepare_byte i))
  /\ (tx_size (state (fst (pkttransfer_prepare_byte i))) = 0
      \/ tx_ready (fst (pkttransfer_prepare_byte i))).
Proof.
  intros (Hs & Hl & Hu) Hn. unfold is_usize in Hu.
  unfold pending at 1.
  destruct (tx_size (state i) =? 0) eqn:E0; [apply Z.eqb_eq in E0; contradiction|].
  unfold pkttransfer_prepare_byte.
  destruct (sent_size (state i) =? tx_size (state i)) eqn:E;
    [apply Z.eqb_eq in E | apply Z.eqb_neq in E].
  - rewrite tx_body_nil by lia. cbn [fst snd]. split; [reflexivity | left; reflexivity].
  - rewrite tx_body_cons by lia.
    assert (Hw : usize (sent_size (state i) + 1) = sent_size (state i) + 1)
      by (apply usize_id; unfold is_usize; lia).
    set (byte := rd (buf_tx_p (config i)) (sent_size (state i))).
    set (rest := drop (Z.to_nat (sent_size (state i) + 1))
                      (take (Z.to_nat (tx_size (state i))) (buf_tx_p (config i)))).
    assert (Hrest : forall s,
      pending (with_state i (set_tx (state i) s (tx_size (state i)) (sent_size (state i) + 1)))
      = match s with
        | PKTTRANSFER_STATE_BYTE => stuffed rest ++ [0x7E]
        | _ => pending (with_state i (set_tx (state i) s (tx_size (state i))
                                             (sent_size (state i) + 1)))
        end).
    { intros s. destruct s; try reflexivity.
      unfold pending, tx_body. cbn [with_state set_tx state config tx_size sent_size tx_state].
      rewrite E0. fold rest. destruct rest; reflexivity. }
    assert (Hsame : forall s,
      pending (with_state i (set_tx (state i) s (tx_size (state i)) (sent_size (state i))))
      = match s with
        | PKTTRANSFER_STATE_DELIMITER => 0x7E :: stuffed (byte :: rest) ++ [0x7E]
        | PKTTRANSFER_STATE_BYTE => stuffed (byte :: rest) ++ [0x7E]
        | PKTTRANSFER_STATE_ENCODED_BYTE =>
            (if byte =? 0x7E then 0x5E else 0x5D) :: stuffed rest ++ [0x7E]
        end).
    { intros s. unfold pending.
      cbn [with_state set_tx state config tx_size tx_state]. rewrite E0.
      replace (tx_body _) with (byte :: rest); [reflexivity|].
      symmetry. change (tx_body i = byte :: rest). apply tx_body_cons; lia. }
    assert (Hready : forall s k, sent_size (state i) <= k <= tx_size (state i) ->
      tx_ready (with_state i (set_tx (state i) s (tx_size (state i)) k))).
    { intros s k Hk. unfold tx_ready, is_usize.
      cbn [with_state set_tx state config tx_size sent_size]. lia. }
    destruct (tx_state (state i)) eqn:Es.
    + cbn [fst snd]. rewrite Hsame. split; [reflexivity|]. right. apply Hready. lia.
    + destruct (_ || _) eqn:Eb; cbn [fst snd].
      * rewrite Hsame, stuffed_cons. unfold stuff. fold byte in Eb.
        unfold PKTTRANSFER_FRAME_DELIMITER_BYTE, PKTTRANSFER_FRAME_ESCAPE_BYTE in *.
        split; [|right; apply Hready; lia].
        destruct (byte =? 0x7E) eqn:E1; [reflexivity|].
        destruct (byte =? 0x7D) eqn:E2; [reflexivity|]. discriminate.
      * rewrite Hw, (Hrest PKTTRANSFER_STATE_BYTE), stuffed_cons. unfold stuff. fold byte in Eb.
        unfold PKTTRANSFER_FRAME_DELIMITER_BYTE, PKTTRANSFER_FRAME_ESCAPE_BYTE in *.
        apply orb_false_elim in Eb as [-> ->].
        split; [reflexivity|]. right. apply Hready. lia.
    + cbn [fst snd]. rewrite Hw, (Hrest PKTTRANSFER_STATE_BYTE).
      unfold PKTTRANSFER_FRAME_DELIMITER_BYTE, PKTTRANSFER_FRAME_ENCODED_DELIMITER_BYTE,
        PKTTRANSFER_FRAME_ENCODED_ESCAPE_BYTE.
      split; [reflexivity|]. right. apply Hready. lia.
Qed.

Lemma wire_app evs1 evs2 : wire (evs1 ++ evs2) = wire evs1 ++ wire evs2.
Proof. unfold wire. apply flat_map_app. Qed.

Lemma wire_cons e evs : wire (e :: evs) = wire_of e ++ wire evs.
Proof. reflexivity. Qed.

Lemma wire_can_tx data size id : wire [EvCanTx data size id] = data.
Proof. unfold wire. cbn. apply app_nil_r. Qed.

Lemma process_frame_wire i : wire (snd (pkttransfer_process_frame i)) = [].
Proof. destruct (process_frame_spec i) as [-> | (_ & _ & ->)]; reflexivity. Qed.

Lemma process_byte_wire i byte : wire (snd (pkttransfer_process_byte i byte)) = [].
Proof.
  unfold pkttransfer_process_byte.
  destruct (rx_state (state i)).
  - destruct (byte =? _); reflexivity.
  - destruct (byte =? PKTTRANSFER_FRAME_ESCAPE_BYTE); [reflexivity|].
    destruct (byte =? PKTTRANSFER_FRAME_DELIMITER_BYTE).
    + pose proof (process_frame_wire i) as H.
      destruct (pkttransfer_process_frame i) as [i1 evs]. exact H.
    + destruct (_ <=? _); reflexivity.
  - destruct (_ || _); reflexivity.
Qed.

Lemma process_bytes_tx bytes : forall i,
  tx_view (fst (process_bytes i bytes)) = tx_view i
  /\ wire (snd (process_bytes i bytes)) = [].
Proof.
  induction bytes as [|byte rest IH]; intros i; [split; reflexivity|].
  cbn [process_bytes].
  pose proof (process_byte_tx_view i byte) as Hv.
  pose proof (process_byte_wire i byte) as Hw.
  destruct (pkttransfer_process_byte i byte) as [i1 evs1]. cbn [fst snd] in Hv, Hw.
  destruct (IH i1) as [Hv2 Hw2].
  destruct (process_bytes i1 rest) as [i2 evs2]. cbn [fst snd] in *.
  split; [congruence|]. rewrite wire_app, Hw, Hw2. reflexivity.
Qed.

Lemma tx_next_view i j : tx_view i = tx_view j -> tx_next i -> tx_next j.
Proof.
  intros H [H0 | Hr].
  - left. unfold tx_view in H. injection H as _ E _ _ _ _ _. congruence.
  - right. exact (tx_ready_view i j H Hr).
Qed.

(** One UART task with the hardware ready to send emits exactly the next
    pending byte. *)
Lemma task_uart_tx i hw :
  tx_ready i -> tx_size (state i) <> 0 -> uart_tx_is_avail hw = true ->
  pending i = wire (snd (pkttransfer_task_uart i hw)) ++ pending (fst (pkttransfer_task_uart i hw))
  /\ length (wire (snd (pkttransfer_task_uart i hw))) = 1%nat
  /\ tx_next (fst (pkttransfer_task_uart i hw)).
Proof.
  intros Hr Hn Ha. unfold pkttransfer_task_uart, pkttransfer_bytes_for_sending.
  rewrite Ha. destruct (tx_size (state i) =? 0) eqn:E0; [apply Z.eqb_eq in E0; contradiction|].
  cbn [negb].
  destruct (prepare_byte_pending i Hr Hn) as [Hp Hnext].
  destruct (pkttransfer_prepare_byte i) as [i1 byte]. cbn [fst snd] in Hp, Hnext.
  destruct (uart_rx_is_ready hw).
  - pose proof (process_byte_tx_view i1 (uart_rx hw)) as Hv.
    pose proof (process_byte_wire i1 (uart_rx hw)) as Hw.
    destruct (pkttransfer_process_byte i1 (uart_rx hw)) as [i2 evs]. cbn [fst snd] in *.
    rewrite wire_app, Hw, (pending_view i2 i1 Hv).
    split; [exact Hp|]. split; [reflexivity|].
    apply (tx_next_view i1 i2); [symmetry; exact Hv | exact Hnext].
  - cbn [fst snd]. split; [exact Hp|]. split; [reflexivity | exact Hnext].
Qed.

(** The UART pump, given at least as many task invocations as there are
    pending bytes, emits them all and leaves the encoder idle. *)
Lemma pump_uart_wire hws : forall i,
  tx_next i -> Forall (fun hw => uart_tx_is_avail hw = true) hws ->
  (length (pending i) <= length hws)%nat ->
  wire (snd (pump_uart i hws)) = pending i
  /\ tx_size (state (fst (pump_uart i hws))) = 0.
Proof.
  induction hws as [|hw rest IH]; intros i Hnext Hav Hlen.
  - cbn [pump_uart fst snd]. destruct (pending i) eqn:Ep; [|cbn in Hlen; lia].
    split; [reflexivity|]. apply pending_nil, Ep.
  - cbn [pump_uart].
    destruct (tx_size (state i) =? 0) eqn:E0.
    + apply Z.eqb_eq in E0. cbn [fst snd]. split; [|exact E0].
      symmetry. apply pending_nil, E0.
    + apply Z.eqb_neq in E0. destruct Hnext as [H0 | Hr]; [contradiction|].
      inversion Hav as [|? ? Ha Hav']; subst.
      destruct (task_uart_tx i hw Hr E0 Ha) as (Hp & Hl & Hnext').
      destruct (pkttransfer_task_uart i hw) as [i1 evs1]. cbn [fst snd] in *.
      assert (Hlen' : (length (pending i1) <= length rest)%nat).
      { rewrite Hp, length_app, Hl in Hlen. cbn in Hlen. lia. }
      destruct (IH i1 Hnext' Hav' Hlen') as [Hw Hz].
      destruct (pump_uart i1 rest) as [i2 evs2]. cbn [fst snd] in *.
      rewrite wire_app, Hw, Hp. split; [reflexivity | exact Hz].
Qed.

(** The transmit loop of the CAN task emits a non-empty prefix of the pending
    bytes, of at most [n] bytes. *)
Lemma can_prepare_bytes_pending n : forall i,
  tx_ready i -> tx_size (state i) <> 0 -> n <> O ->
  pending i = snd (can_prepare_bytes n i) ++ pending (fst (can_prepare_bytes n i))
  /\ (1 <= length (snd (can_prepare_bytes n i)) <= n)%nat
  /\ tx_next (fst (can_prepare_bytes n i)).
Proof.
  induction n as [|n IH]; intros i Hr Hn Hnz; [contradiction|].
  cbn [can_prepare_bytes].
  destruct (prepare_byte_pending i Hr Hn) as [Hp Hnext].
  destruct (pkttransfer_prepare_byte i) as [i1 byte]. cbn [fst snd] in Hp, Hnext.
  unfold pkttransfer_bytes_for_sending.
  destruct (tx_size (state i1) =? 0) eqn:E1; cbn [negb].
  - cbn [fst snd length]. split; [exact Hp|]. split; [lia | exact Hnext].
  - apply Z.eqb_neq in E1. destruct Hnext as [H0 | Hr1]; [contradiction|].
    destruct n as [|n'].
    + cbn [can_prepare_bytes fst snd length]. split; [exact Hp|]. split; [lia|].
      right. exact Hr1.
    + destruct (IH i1 Hr1 E1 ltac:(discriminate)) as (Hp2 & Hl2 & Hnext2).
      destruct (can_prepare_bytes (S n') i1) as [i2 bytes]. cbn [fst snd length] in *.
      split; [rewrite Hp, Hp2; reflexivity|]. split; [lia | exact Hnext2].
Qed.

Lemma task_can_tx i hw :
  tx_ready i -> tx_size (state i) <> 0 -> can_tx_is_avail hw = true ->
  pending i = wire (snd (pkttransfer_task_can i hw)) ++ pending (fst (pkttransfer_task_can i hw))
  /\ (1 <= length (wire (snd (pkttransfer_task_can i hw))))%nat
  /\ tx_next (fst (pkttransfer_task_can i hw)).
Proof.
  intros Hr Hn Ha. unfold pkttransfer_task_can, pkttransfer_bytes_for_sending.
  rewrite Ha. destruct (tx_size (state i) =? 0) eqn:E0; [apply Z.eqb_eq in E0; contradiction|].
  cbn [negb].
  destruct (can_prepare_bytes_pending PKTTRANSFER_CAN_MGS_SIZE i Hr Hn ltac:(discriminate))
    as (Hp & Hl & Hnext).
  destruct (can_prepare_bytes PKTTRANSFER_CAN_MGS_SIZE i) as [i1 bytes].
  cbn [fst snd] in Hp, Hl, Hnext.
  destruct (can_rx_is_ready hw).
  - destruct (process_bytes_tx (can_rx hw) i1) as [Hv Hw].
    destruct (process_bytes i1 (can_rx hw)) as [i2 evs]. cbn [fst snd] in *.
    rewrite wire_app, wire_can_tx, wire_cons, Hw. cbn [wire_of app].
    rewrite app_nil_r, (pending_view i2 i1 Hv).
    split; [exact Hp|]. split; [lia|].
    apply (tx_next_view i1 i2); [symmetry; exact Hv | exact Hnext].
  - cbn [fst snd]. rewrite app_nil_r, wire_can_tx.
    split; [exact Hp|]. split; [lia | exact Hnext].
Qed.

Lemma pump_can_wire hws : forall i,
  tx_next i -> Forall (fun hw => can_tx_is_avail hw = true) hws ->
  (length (pending i) <= length hws)%nat ->
  wire (snd (pump_can i hws)) = pending i
  /\ tx_size (state (fst (pump_can i hws))) = 0.
Proof.
  induction hws as [|hw rest IH]; intros i Hnext Hav Hlen.
  - cbn [pump_can fst snd]. destruct (pending i) eqn:Ep; [|cbn in Hlen; lia].
    split; [reflexivity|]. apply pending_nil, Ep.
  - cbn [pump_can].
    destruct (tx_size (state i) =? 0) eqn:E0.
    + apply Z.eqb_eq in E0. cbn [fst snd]. split; [|exact E0].
      symmetry. apply pending_nil, E0.
    + apply Z.eqb_neq in E0. destruct Hnext as [H0 | Hr]; [contradiction|].
      inversion Hav as [|? ? Ha Hav']; subst.
      destruct (task_can_tx i hw Hr E0 Ha) as (Hp & Hl & Hnext').
      destruct (pkttransfer_task_can i hw) as [i1 evs1]. cbn [fst snd] in *.
      assert (Hlen' : (length (pending i1) <= length rest)%nat).
      { rewrite Hp, length_app in Hlen. cbn in Hlen. lia. }
      destruct (IH i1 Hnext' Hav' Hlen') as [Hw Hz].
      destruct (pump_can i1 rest) as [i2 evs2]. cbn [fst snd] in *.
      rewrite wire_app, Hw, Hp. split; [reflexivity | exact Hz].
Qed.

(** *** The TX buffer after a submit *)

Lemma crc_lo_u8 crc : is_u8 (Z.land crc 0xFF).
Proof.
  change 0xFF with (Z.ones 8). rewrite Z.land_ones by lia. apply u8_range.
Qed.

Lemma crc_hi_u8 crc : is_u16 crc -> is_u8 (Z.shiftr crc 8).
Proof.
  unfold is_u16, is_u8. intros H. rewrite Z.shiftr_div_pow2 by lia.
  split; [apply Z.div_pos; lia | apply Z.div_lt_upper_bound; lia].
Qed.

Lemma crc16_prefix p rest : pkttransfer_crc16 (p ++ rest) (Z.of_nat (length p))
                            = pkttransfer_crc16 p (Z.of_nat (length p)).
Proof.
  unfold pkttransfer_crc16. rewrite Nat2Z.id, take_app_length, firstn_all. reflexivity.
Qed.

(** [memcpy] of the payload followed by the two CRC stores. *)
Lemma send_buf buf p lo hi :
  (length p + 2 <= length buf)%nat -> is_usize (Z.of_nat (length p) + 1) ->
  wr (wr (memcpy buf p (Z.of_nat (length p))) (Z.of_nat (length p)) lo)
     (usize (Z.of_nat (length p) + 1)) hi
  = p ++ [u8 lo; u8 hi] ++ drop (length p + 2) buf.
Proof.
  intros Hlen Hu. rewrite (usize_id _ Hu). unfold memcpy, wr.
  rewrite Nat2Z.id, firstn_all.
  replace (Z.to_nat (Z.of_nat (length p) + 1)) with (length p + 1)%nat by lia.
  assert (Hd : drop 2 (drop (length p) buf) = drop (length p + 2) buf) by apply drop_drop.
  assert (Hl : length (drop (length p) buf) = (length buf - length p)%nat) by apply length_drop.
  destruct (drop (length p) buf) as [|x [|y rest]]; cbn [length] in Hl; try lia.
  cbn [drop] in Hd. rewrite <- Hd.
  rewrite (insert_app_r_alt p) by lia.
  rewrite (insert_app_r_alt p) by (rewrite ?length_insert; lia).
  replace (length p - length p)%nat with 0%nat by lia.
  replace (length p + 1 - length p)%nat with 1%nat by lia.
  reflexivity.
Qed.

(** After an accepted submit the pending wire bytes are the framed encoding
    of the payload. *)
Lemma send_pending b c i p id :
  inv c i -> Forall is_u8 p ->
  snd (pkttransfer_send b i p (Z.of_nat (length p)) id) = PKTTRANSFER_ERR_OK ->
  pending (fst (pkttransfer_send b i p (Z.of_nat (length p)) id)) = framed p
  /\ tx_ready (fst (pkttransfer_send b i p (Z.of_nat (length p)) id))
  /\ tx_size (state (fst (pkttransfer_send b i p (Z.of_nat (length p)) id)))
     = Z.of_nat (length p) + 2
  /\ buf_tx_p (config (fst (pkttransfer_send b i p (Z.of_nat (length p)) id)))
     = p ++ [crc_lo p; crc_hi p] ++ drop (length p + 2) (buf_tx_p (config i)).
Proof.
  intros ((Hc & Hpm & Hlr & Hlt) & (Hs & Hm & Hd) & _) Hp Hok.
  rewrite send_result in Hok.
  destruct (_ <? _) eqn:E1; [discriminate|].
  destruct (tx_size (state i) =? 0) eqn:E2; [|discriminate]. zbool.
  destruct (send_accepted b i p (Z.of_nat (length p)) id E1 E2)
    as (_ & Hbt & _ & Hpm' & Hts & Hss & Hst & _).
  destruct Hc as (Hc1 & Hc2 & Hc3 & Hc4).
  unfold is_usize, PKTTRANSFER_FRAME_CRC_SIZE in *.
  set (i' := fst (pkttransfer_send b i p (Z.of_nat (length p)) id)) in *.
  assert (Hsz : tx_size (state i') = Z.of_nat (length p) + 2).
  { rewrite Hts. apply usize_id. unfold is_usize. lia. }
  assert (Hbuf : buf_tx_p (config i')
                 = p ++ [crc_lo p; crc_hi p] ++ drop (length p + 2) (buf_tx_p (config i))).
  { rewrite Hbt, send_buf by (unfold is_usize; lia).
    unfold memcpy. rewrite Nat2Z.id, firstn_all, crc16_prefix, (crc16_eq_x25 p Hp).
    unfold crc_lo, crc_hi.
    rewrite (u8_id _ (crc_lo_u8 _)).
    rewrite (u8_id (Z.shiftr _ _)); [reflexivity|].
    apply crc_hi_u8. rewrite <- (crc16_eq_x25 p Hp). apply pkttransfer_crc16_range. }
  assert (Hlen : length (buf_tx_p (config i')) = length (buf_tx_p (config i))).
  { rewrite Hbuf, !length_app, length_drop. cbn [length]. lia. }
  split; [|split; [|split]]; [| |exact Hsz|exact Hbuf].
  - unfold pending, tx_body. rewrite Hsz, Hss, Hst, (Hd E2), Hbuf.
    destruct (Z.of_nat (length p) + 2 =? 0) eqn:E0; [zbool; lia|].
    change (Z.to_nat 0) with 0%nat. rewrite drop_0.
    replace (Z.to_nat (Z.of_nat (length p) + 2)) with (length (p ++ [crc_lo p; crc_hi p]))
      by (rewrite length_app; cbn [length]; lia).
    rewrite app_assoc, take_app_length.
    unfold framed.
    destruct (p ++ [crc_lo p; crc_hi p]) eqn:Eb; [|reflexivity].
    apply (f_equal length) in Eb. rewrite length_app in Eb. cbn in Eb. lia.
  - unfold tx_ready, is_usize. rewrite Hsz, Hss, Hlen. lia.
Qed.

(** ** Transmit framing *)

(** C3. For every accepted submission of a payload [p], running the task
    with the hardware always ready to send until [tx_size == 0] hands the
    hardware exactly [0x7E, stuffed (p ++ [CRC_LO; CRC_HI]), 0x7E], the CRC
    being CRC-16/X-25 of [p], low byte first: byte by byte in the UART build,
    as the concatenation of the CAN messages in the CAN build.  The payload
    01 7D 02 7E gives 7E 01 7D 5D 02 7D 5E 8B 36 7E. *)
Theorem tx_framing (b : build) (c : pkttransfer_config_t) (i : pkttransfer_t)
    (p : list Z) (id : Z)
    (Hreach : reachable b c i) (Hbytes : Forall is_u8 p)
    (Haccepted : snd (pkttransfer_send b i p (Z.of_nat (length p)) id) = PKTTRANSFER_ERR_OK) :
  match b with
  | OVER_UART =>
      forall hws, Forall (fun hw => uart_tx_is_avail hw = true) hws ->
                  (length (framed p) <= length hws)%nat ->
        wire (snd (pump_uart (fst (pkttransfer_send b i p (Z.of_nat (length p)) id)) hws))
        = framed p
        /\ tx_size (state (fst (pump_uart (fst (pkttransfer_send b i p (Z.of_nat (length p)) id))
                                          hws))) = 0
  | OVER_CAN =>
      forall hws, Forall (fun hw => can_tx_is_avail hw = true) hws ->
                  (length (framed p) <= length hws)%nat ->
        wire (snd (pump_can (fst (pkttransfer_send b i p (Z.of_nat (length p)) id)) hws))
        = framed p
        /\ tx_size (state (fst (pump_can (fst (pkttransfer_send b i p (Z.of_nat (length p)) id))
                                         hws))) = 0
  end
  /\ framed [0x01;0x7D;0x02;0x7E] = [0x7E;0x01;0x7D;0x5D;0x02;0x7D;0x5E;0x8B;0x36;0x7E].
Proof.
  split; [|vm_compute; reflexivity].
  destruct (send_pending b c i p id (reachable_inv b c i Hreach) Hbytes Haccepted)
    as (Hp & Hr & _).
  destruct b; intros hws Hav Hlen; rewrite <- Hp in *.
  - apply pump_uart_wire; [right; exact Hr | exact Hav | exact Hlen].
  - apply pump_can_wire; [right; exact Hr | exact Hav | exact Hlen].
Qed.

Lemma tx_framing_witness :
  let i := pkttransfer_init (test_config 512) in
  let p := [0x01;0x7D;0x02;0x7E] in
  reachable OVER_UART (test_config 512) i
  /\ Forall is_u8 p
  /\ snd (pkttransfer_send OVER_UART i p 4 0) = PKTTRANSFER_ERR_OK
  /\ wire (snd (pump_uart (fst (pkttransfer_send OVER_UART i p 4 0)) (replicate 10 avail_uart)))
     = [0x7E;0x01;0x7D;0x5D;0x02;0x7D;0x5E;0x8B;0x36;0x7E].
Proof.
  intros i p.
  assert (Hr : reachable OVER_UART (test_config 512) i)
    by (apply reach_init, test_config_ok; lia).
  assert (Hp : Forall is_u8 p) by (repeat constructor; unfold is_u8; lia).
  assert (Ha : snd (pkttransfer_send OVER_UART i p (Z.of_nat (length p)) 0) = PKTTRANSFER_ERR_OK)
    by reflexivity.
  split; [exact Hr|]. split; [exact Hp|]. split; [exact Ha|].
  destruct (tx_framing OVER_UART (test_config 512) i p 0 Hr Hp Ha) as [H Hv].
  rewrite <- Hv.
  apply (H (replicate 10 avail_uart)).
  - repeat constructor.
  - unfold p. rewrite Hv. cbn. lia.
Defined.

(** ** Submit: failure condition and atomicity *)

(** C4. On an initialized instance [pkttransfer_send] returns [TxOverflow]
    exactly when the size exceeds [payload_size_max] or [tx_size != 0]; then
    the instance is left as it was; otherwise it returns [Ok].  A size of
    [payload_size_max] is accepted on an idle instance, a size of
    [payload_size_max + 1] is rejected. *)
Theorem send_overflow (b : build) (i : pkttransfer_t) (payload_p : list Z) (size id : Z)
    (Hinit : pkttransfer_is_init i = true) (Hsize : is_usize size) :
  (snd (pkttransfer_send b i payload_p size id) = PKTTRANSFER_ERR_TX_OVF
   <-> (payload_size_max (config i) < size \/ tx_size (state i) <> 0))
  /\ (snd (pkttransfer_send b i payload_p size id) = PKTTRANSFER_ERR_TX_OVF ->
      fst (pkttransfer_send b i payload_p size id) = i)
  /\ (snd (pkttransfer_send b i payload_p size id) <> PKTTRANSFER_ERR_TX_OVF ->
      snd (pkttransfer_send b i payload_p size id) = PKTTRANSFER_ERR_OK)
  /\ (tx_size (state i) = 0 ->
      snd (pkttransfer_send b i payload_p (payload_size_max (config i)) id)
      = PKTTRANSFER_ERR_OK)
  /\ (is_usize (payload_size_max (config i) + 1) ->
      snd (pkttransfer_send b i payload_p (payload_size_max (config i) + 1) id)
      = PKTTRANSFER_ERR_TX_OVF).
Proof.
  split; [|split; [|split; [|split]]].
  - rewrite send_result.
    destruct (_ <? _) eqn:E1; destruct (tx_size (state i) =? 0) eqn:E2; zbool; cbn;
      split; intros H; try discriminate; try reflexivity; try lia; auto.
  - apply send_rejected.
  - rewrite send_result. destruct (_ || _); [intros H; contradiction | reflexivity].
  - intros H0. rewrite send_result, H0.
    destruct (_ <? _) eqn:E1; zbool; [lia | reflexivity].
  - intros _. rewrite send_result.
    destruct (_ <? _) eqn:E1; zbool; [reflexivity | lia].
Qed.

Lemma send_overflow_witness :
  let i := pkttransfer_init (test_config 4) in
  pkttransfer_is_init i = true
  /\ is_usize 5
  /\ snd (pkttransfer_send OVER_UART i [1;2;3;4;5] 5 0) = PKTTRANSFER_ERR_TX_OVF
  /\ fst (pkttransfer_send OVER_UART i [1;2;3;4;5] 5 0) = i
  /\ snd (pkttransfer_send OVER_UART i [1;2;3;4;5] 4 0) = PKTTRANSFER_ERR_OK.
Proof.
  intros i.
  assert (Hi : pkttransfer_is_init i = true) by reflexivity.
  assert (Hs : is_usize 5) by (unfold is_usize; lia).
  destruct (send_overflow OVER_UART i [1;2;3;4;5] 5 0 Hi Hs) as (H1 & H2 & _ & H4 & _).
  split; [exact Hi|]. split; [exact Hs|].
  assert (Hovf : snd (pkttransfer_send OVER_UART i [1;2;3;4;5] 5 0) = PKTTRANSFER_ERR_TX_OVF).
  { apply H1. left. cbn. lia. }
  split; [exact Hovf|]. split; [exact (H2 Hovf)|].
  apply H4. reflexivity.
Defined.

(** ** Zero-length submit *)

Lemma send_zero_payload b i payload_p id :
  pkttransfer_send b i payload_p 0 id = pkttransfer_send b i [] 0 id.
Proof. reflexivity. Qed.

(** C10. On an idle initialized instance a submit of size 0 is accepted: it
    returns [Ok], sets [tx_size = 2] and [sent_size = 0], and writes only the
    two CRC bytes of the empty payload (both 0x00), low byte first, at the
    start of the TX buffer; the frame emitted afterwards is the bare-CRC
    frame 7E 00 00 7E. *)
Theorem send_zero_length (b : build) (c : pkttransfer_config_t) (i : pkttransfer_t)
    (payload_p : list Z) (id : Z)
    (Hreach : reachable b c i) (Hidle : tx_size (state i) = 0) :
  snd (pkttransfer_send b i payload_p 0 id) = PKTTRANSFER_ERR_OK
  /\ tx_size (state (fst (pkttransfer_send b i payload_p 0 id))) = 2
  /\ sent_size (state (fst (pkttransfer_send b i payload_p 0 id))) = 0
  /\ buf_tx_p (config (fst (pkttransfer_send b i payload_p 0 id)))
     = [Z.land (crc16_x25 []) 0xFF; Z.shiftr (crc16_x25 []) 8] ++ drop 2 (buf_tx_p (config i))
  /\ [Z.land (crc16_x25 []) 0xFF; Z.shiftr (crc16_x25 []) 8] = [0x00; 0x00]
  /\ match b with
     | OVER_UART =>
         forall hws, Forall (fun hw => uart_tx_is_avail hw = true) hws -> (4 <= length hws)%nat ->
           wire (snd (pump_uart (fst (pkttransfer_send b i payload_p 0 id)) hws))
           = [0x7E; 0x00; 0x00; 0x7E]
     | OVER_CAN =>
         forall hws, Forall (fun hw => can_tx_is_avail hw = true) hws -> (4 <= length hws)%nat ->
           wire (snd (pump_can (fst (pkttransfer_send b i payload_p 0 id)) hws))
           = [0x7E; 0x00; 0x00; 0x7E]
     end.
Proof.
  pose proof (reachable_inv b c i Hreach) as Hinv.
  assert (Hok : snd (pkttransfer_send b i [] (Z.of_nat (length (@nil Z))) id) = PKTTRANSFER_ERR_OK).
  { rewrite send_result, Hidle.
    destruct Hinv as ((Hc & Hpm & _) & _). destruct Hc as (Hc1 & _).
    destruct (_ <? _) eqn:E; zbool; [cbn in E; lia | reflexivity]. }
  destruct (send_pending b c i [] id Hinv (List.Forall_nil _) Hok) as (Hp & Hr & Hsz & Hbuf).
  destruct (send_accepted b i [] 0 id) as (_ & _ & _ & _ & _ & Hss & _).
  { destruct Hinv as ((Hc & Hpm & _) & _). destruct Hc as (Hc1 & _). lia. }
  { exact Hidle. }
  rewrite send_zero_payload.
  change (Z.of_nat (length (@nil Z))) with 0 in *.
  change (framed []) with [0x7E; 0x00; 0x00; 0x7E] in Hp.
  split; [exact Hok|]. split; [exact Hsz|]. split; [exact Hss|].
  split; [exact Hbuf|]. split; [reflexivity|].
  destruct b; intros hws Hav Hlen.
  - destruct (pump_uart_wire hws _ (or_intror Hr) Hav) as [Hw _];
      [rewrite Hp; exact Hlen | rewrite Hw; exact Hp].
  - destruct (pump_can_wire hws _ (or_intror Hr) Hav) as [Hw _];
      [rewrite Hp; exact Hlen | rewrite Hw; exact Hp].
Qed.

Lemma send_zero_length_witness :
  let i := pkttransfer_init (test_config 4) in
  reachable OVER_UART (test_config 4) i
  /\ tx_size (state i) = 0
  /\ snd (pkttransfer_send OVER_UART i [] 0 0) = PKTTRANSFER_ERR_OK
  /\ tx_size (state (fst (pkttransfer_send OVER_UART i [] 0 0))) = 2
  /\ wire (snd (pump_uart (fst (pkttransfer_send OVER_UART i [] 0 0)) (replicate 4 avail_uart)))
     = [0x7E; 0x00; 0x00; 0x7E].
Proof.
  intros i.
  assert (Hr : reachable OVER_UART (test_config 4) i)
    by (apply reach_init, test_config_ok; lia).
  assert (H0 : tx_size (state i) = 0) by reflexivity.
  destruct (send_zero_length OVER_UART (test_config 4) i [] 0 Hr H0)
    as (H1 & H2 & _ & _ & _ & H3).
  split; [exact Hr|]. split; [exact H0|]. split; [exact H1|]. split; [exact H2|].
  apply H3; [repeat constructor | cbn; lia].
Defined.

(** ** Deliveries to the application *)

Lemma process_frame_app_pkt i payload size :
  In (EvAppPkt payload size) (snd (pkttransfer_process_frame i)) ->
  2 < rx_size (state i)
  /\ size = rx_size (state i) - 2
  /\ payload = take (Z.to_nat size) (buf_rx_p (config i))
  /\ u16 (Z.lor (Z.shiftl (rd (buf_rx_p (config i)) (size + 1)) 8)
                (rd (buf_rx_p (config i)) size))
     = pkttransfer_crc16 (buf_rx_p (config i)) size.
Proof.
  destruct (process_frame_spec i) as [-> | (Hlt & Hcrc & ->)]; cbn [snd].
  - intros [].
  - unfold PKTTRANSFER_FRAME_CRC_SIZE in *.
    intros [H | []]. injection H as <- <-.
    replace (rx_size (state i) - 2 + 1) with (rx_size (state i) - 1) by lia.
    auto.
Qed.

(** The converse: a buffered frame of more than two bytes whose last two
    bytes are the CRC of the others is passed to the application. *)
Lemma process_frame_delivers i :
  2 < rx_size (state i) ->
  u16 (Z.lor (Z.shiftl (rd (buf_rx_p (config i)) (rx_size (state i) - 1)) 8)
             (rd (buf_rx_p (config i)) (rx_size (state i) - 2)))
  = pkttransfer_crc16 (buf_rx_p (config i)) (rx_size (state i) - 2) ->
  snd (pkttransfer_process_frame i)
  = [EvAppPkt (take (Z.to_nat (rx_size (state i) - 2)) (buf_rx_p (config i)))
              (rx_size (state i) - 2)].
Proof.
  intros Hlt Hcrc. unfold pkttransfer_process_frame, PKTTRANSFER_FRAME_CRC_SIZE.
  destruct (rx_size (state i) <=? 2) eqn:E; [apply Z.leb_le in E; lia|].
  rewrite Hcrc, Z.eqb_refl. reflexivity.
Qed.

Lemma process_byte_app_pkt i byte payload size :
  In (EvAppPkt payload size) (snd (pkttransfer_process_byte i byte)) ->
  In (EvAppPkt payload size) (snd (pkttransfer_process_frame i)).
Proof.
  unfold pkttransfer_process_byte.
  destruct (rx_state (state i)).
  - destruct (byte =? _); intros [].
  - destruct (byte =? PKTTRANSFER_FRAME_ESCAPE_BYTE); [intros []|].
    destruct (byte =? PKTTRANSFER_FRAME_DELIMITER_BYTE).
    + destruct (pkttransfer_process_frame i) as [i1 evs]. auto.
    + destruct (_ <=? _); intros [].
  - destruct (_ || _); intros [].
Qed.

(** [pkttransfer_process_byte] calls the application only on a delimiter
    received inside a frame, and then makes the calls of
    [pkttransfer_process_frame]. *)
Lemma process_byte_delivers i byte :
  snd (pkttransfer_process_byte i byte) <> [] ->
  byte = PKTTRANSFER_FRAME_DELIMITER_BYTE
  /\ rx_state (state i) = PKTTRANSFER_STATE_BYTE.
Proof.
  unfold pkttransfer_process_byte.
  destruct (rx_state (state i)).
  - destruct (byte =? _); intros []; reflexivity.
  - destruct (byte =? PKTTRANSFER_FRAME_ESCAPE_BYTE); [intros []; reflexivity|].
    destruct (byte =? PKTTRANSFER_FRAME_DELIMITER_BYTE) eqn:E.
    + intros _. apply Z.eqb_eq in E. auto.
    + destruct (_ <=? _); intros []; reflexivity.
  - destruct (_ || _); intros []; reflexivity.
Qed.

Lemma process_byte_close i :
  rx_state (state i) = PKTTRANSFER_STATE_BYTE ->
  snd (pkttransfer_process_byte i PKTTRANSFER_FRAME_DELIMITER_BYTE)
  = snd (pkttransfer_process_frame i).
Proof.
  intros Hst. unfold pkttransfer_process_byte. rewrite Hst.
  change (PKTTRANSFER_FRAME_DELIMITER_BYTE =? PKTTRANSFER_FRAME_ESCAPE_BYTE) with false.
  rewrite Z.eqb_refl.
  destruct (pkttransfer_process_frame i) as [i1 evs]. reflexivity.
Qed.

Lemma process_bytes_app bytes1 bytes2 : forall i,
  process_bytes i (bytes1 ++ bytes2)
  = let (i1, evs1) := process_bytes i bytes1 in
    let (i2, evs2) := process_bytes i1 bytes2 in
    (i2, evs1 ++ evs2).
Proof.
  induction bytes1 as [|byte rest IH]; intros i.
  - cbn [app process_bytes]. destruct (process_bytes i bytes2). reflexivity.
  - cbn [app process_bytes].
    destruct (pkttransfer_process_byte i byte) as [i1 evs1].
    rewrite IH. destruct (process_bytes i1 rest) as [i2 evs2].
    destruct (process_bytes i2 bytes2) as [i3 evs3].
    rewrite app_assoc. reflexivity.
Qed.

(** A delivery during the receive loop happens at one of its bytes, in the
    state the bytes before it lead to. *)
Lemma process_bytes_app_pkt bytes : forall i payload size,
  In (EvAppPkt payload size) (snd (process_bytes i bytes)) ->
  exists pre byte post,
    bytes = pre ++ byte :: post
    /\ In (EvAppPkt payload size)
          (snd (pkttransfer_process_byte (fst (process_bytes i pre)) byte)).
Proof.
  induction bytes as [|byte rest IH]; intros i payload size Hin; [destruct Hin|].
  cbn [process_bytes] in Hin.
  destruct (pkttransfer_process_byte i byte) as [i1 evs1] eqn:E1.
  destruct (process_bytes i1 rest) as [i2 evs2] eqn:E2.
  cbn [snd] in Hin. apply in_app_or in Hin as [Hin | Hin].
  - exists [], byte, rest. cbn [app process_bytes fst]. rewrite E1. auto.
  - destruct (IH i1 payload size) as (pre & byte' & post & -> & Hin').
    { rewrite E2. exact Hin. }
    exists (byte :: pre), byte', post. split; [reflexivity|].
    cbn [process_bytes]. rewrite E1.
    destruct (process_bytes i1 pre). exact Hin'.
Qed.

(** Conversely, what one byte of the receive loop delivers is delivered by
    the loop. *)
Lemma process_bytes_at pre byte post i e :
  In e (snd (pkttransfer_process_byte (fst (process_bytes i pre)) byte)) ->
  In e (snd (process_bytes i (pre ++ byte :: post))).
Proof.
  intros Hin. rewrite process_bytes_app.
  destruct (process_bytes i pre) as [i1 evs1]. cbn [fst] in Hin.
  cbn [process_bytes].
  destruct (pkttransfer_process_byte i1 byte) as [i2 evs2]. cbn [snd] in Hin.
  destruct (process_bytes i2 post) as [i3 evs3]. cbn [snd].
  apply in_or_app. right. apply in_or_app. left. exact Hin.
Qed.

(** The application callbacks of an operation are those of its receive
    part: the decoder run from [rx_start] over [rx_input]. *)
Lemma step_app_pkt b i o payload size :
  In (EvAppPkt payload size) (snd (step b i o))
  <-> In (EvAppPkt payload size) (snd (process_bytes (rx_start b i o) (rx_input o))).
Proof.
  destruct o as [payload_p sz id | id | hw | hw]; cbn [step rx_start rx_input snd fst process_bytes];
    try tauto.
  - unfold pkttransfer_task_uart. cbn [uart_tx_is_avail uart_rx_is_ready].
    set (tx := if pkttransfer_bytes_for_sending i then _ else _).
    assert (Htx : ~ In (EvAppPkt payload size) (snd tx)).
    { subst tx. destruct (pkttransfer_bytes_for_sending i); [|intros []].
      destruct (uart_tx_is_avail hw); [|intros []].
      destruct (pkttransfer_prepare_byte i). intros [H | []]. discriminate. }
    destruct tx as [i1 evs_tx]. cbn [fst snd] in *.
    destruct (uart_rx_is_ready hw); cbn [process_bytes snd].
    + destruct (pkttransfer_process_byte i1 (uart_rx hw)) as [i2 evs_rx]. cbn [snd].
      rewrite app_nil_r, in_app_iff. tauto.
    + rewrite in_app_iff. cbn [In]. tauto.
  - unfold pkttransfer_task_can. cbn [can_tx_is_avail can_rx_is_ready].
    set (tx := if pkttransfer_bytes_for_sending i then _ else _).
    assert (Htx : ~ In (EvAppPkt payload size) (snd tx)).
    { subst tx. destruct (pkttransfer_bytes_for_sending i); [|intros []].
      destruct (can_tx_is_avail hw); [|intros []].
      destruct (can_prepare_bytes _ i). intros [H | []]. discriminate. }
    destruct tx as [i1 evs_tx]. cbn [fst snd] in *.
    destruct (can_rx_is_ready hw); cbn [process_bytes snd].
    + destruct (process_bytes i1 (can_rx hw)) as [i2 evs_rx]. cbn [snd].
      rewrite in_app_iff. cbn [In].
      split; [intros [H | [H | H]]; [tauto | discriminate | exact H] | tauto].
    + rewrite in_app_iff. cbn [In]. tauto.
Qed.

Lemma rx_start_inv b c i o : inv c i -> op_ok b i o -> inv c (rx_start b i o).
Proof.
  intros Hinv Hop. destruct o as [payload_p sz id | id | hw | hw]; cbn [rx_start].
  - exact (step_inv b c i _ Hinv Hop).
  - exact (step_inv b c i _ Hinv Hop).
  - apply task_uart_inv, Hinv.
  - apply task_can_inv, Hinv.
Qed.

Lemma crc16_take buf size :
  0 <= size -> pkttransfer_crc16 (take (Z.to_nat size) buf) size = pkttransfer_crc16 buf size.
Proof.
  intros H. unfold pkttransfer_crc16. rewrite take_take, Nat.min_id. reflexivity.
Qed.

(** C9. The application callback is invoked by an operation on a reachable
    state exactly at a delimiter byte of its receive part that arrives while
    the decoder is inside a frame ([j] being the instance at that moment: the
    operation's instance after its transmit part and the received bytes
    before that delimiter) with [rx_size = s + 2] bytes buffered whose last
    two, read little-endian, are [pkttransfer_crc16] of the first [s]; the
    delivered size is then [s], with [1 <= s <= payload_size_max - 2], and
    the delivered bytes are the first [s] bytes of the RX buffer of [j]. *)
Theorem app_callback_bound (b : build) (c : pkttransfer_config_t) (i : pkttransfer_t) (o : op)
    (payload : list Z) (size : Z)
    (Hreach : reachable b c i) (Hop : op_ok b i o) :
  In (EvAppPkt payload size) (snd (step b i o))
  <-> exists pre post,
        rx_input o = pre ++ PKTTRANSFER_FRAME_DELIMITER_BYTE :: post
        /\ rx_state (state (fst (process_bytes (rx_start b i o) pre))) = PKTTRANSFER_STATE_BYTE
        /\ 1 <= size <= payload_size_max c - 2
        /\ rx_size (state (fst (process_bytes (rx_start b i o) pre))) = size + 2
        /\ payload = take (Z.to_nat size)
                          (buf_rx_p (config (fst (process_bytes (rx_start b i o) pre))))
        /\ Z.of_nat (length payload) = size
        /\ u16 (Z.lor (Z.shiftl (rd (buf_rx_p (config (fst (process_bytes (rx_start b i o) pre))))
                                    (size + 1)) 8)
                      (rd (buf_rx_p (config (fst (process_bytes (rx_start b i o) pre)))) size))
           = pkttransfer_crc16 payload size.
Proof.
  rewrite step_app_pkt. split.
  - intros Hin.
    apply process_bytes_app_pkt in Hin as (pre & byte & post & Hsplit & Hin).
    set (j := fst (process_bytes (rx_start b i o) pre)) in *.
    assert (Hinv : inv c j).
    { apply process_bytes_inv, (rx_start_inv b), Hop. apply (reachable_inv b), Hreach. }
    destruct (process_byte_delivers j byte) as [-> Hst].
    { intros E. rewrite E in Hin. destruct Hin. }
    apply process_byte_app_pkt, process_frame_app_pkt in Hin as (H2 & Hs & Hp & Hcrc).
    destruct Hinv as ((Hc & Hpm & Hlr & _) & _ & (Hr & _)).
    exists pre, post. fold j. split; [exact Hsplit|]. split; [exact Hst|].
    split; [lia|]. split; [lia|]. split; [exact Hp|]. split.
    + rewrite Hp, length_take. destruct Hc as (_ & _ & Hc3 & _).
      unfold PKTTRANSFER_FRAME_CRC_SIZE in Hc3. lia.
    + rewrite Hp, crc16_take by lia. exact Hcrc.
  - intros (pre & post & Hsplit & Hst & Hsz & Hrx & Hp & Hlen & Hcrc).
    rewrite Hsplit. apply process_bytes_at.
    set (j := fst (process_bytes (rx_start b i o) pre)) in *.
    rewrite (process_byte_close j Hst), process_frame_delivers.
    + replace (rx_size (state j) - 2) with size by lia. rewrite <- Hp. left. reflexivity.
    + lia.
    + replace (rx_size (state j) - 1) with (size + 1) by lia.
      replace (rx_size (state j) - 2) with size by lia.
      rewrite Hcrc, Hp, crc16_take by lia. reflexivity.
Qed.

Lemma app_callback_bound_witness :
  let c := test_config 4 in
  let i := run_ops OVER_UART (pkttransfer_init c)
                   (map (fun byte => OpTaskUart (uart_rx_in byte)) [0x7E;0x00;0x78;0xF0]) in
  let o := OpTaskUart (uart_rx_in 0x7E) in
  reachable OVER_UART c i
  /\ op_ok OVER_UART i o
  /\ In (EvAppPkt [0x00] 1) (snd (step OVER_UART i o))
  /\ ~ In (EvAppPkt [0x01] 1) (snd (step OVER_UART i o))
  /\ 1 <= 1 <= payload_size_max c - 2.
Proof.
  intros c i o.
  assert (Hr : reachable OVER_UART c i).
  { apply reachable_run_ops.
    - apply reach_init, test_config_ok; lia.
    - cbn. repeat split. }
  assert (Ho : op_ok OVER_UART i o) by reflexivity.
  assert (Hin : In (EvAppPkt [0x00] 1) (snd (step OVER_UART i o))).
  { vm_compute. left. reflexivity. }
  split; [exact Hr|]. split; [exact Ho|]. split; [exact Hin|]. split.
  - intros Hbad.
    apply (app_callback_bound OVER_UART c i o [0x01] 1 Hr Ho) in Hbad
      as (pre & post & Hsplit & _ & _ & _ & Hp & _).
    destruct pre as [|x [|y pre]]; cbn in Hsplit; try discriminate Hsplit.
    revert Hp. vm_compute. discriminate.
  - apply (app_callback_bound OVER_UART c i o [0x00] 1 Hr Ho) in Hin
      as (pre & post & _ & _ & Hsz & _).
    exact Hsz.
Defined.

(** ** The CAN scenario *)

Lemma pump_can_idle i hws : tx_size (state i) = 0 -> pump_can i hws = (i, []).
Proof.
  intros H. destruct hws as [|hw rest]; [reflexivity|].
  cbn [pump_can]. rewrite H. reflexivity.
Qed.

(** C7. CAN build, [payload_size_max = 512]: after the 9-byte payload
    31 .. 39 is submitted with [can_id_tx = 1], the task pump with the
    hardware always ready to send emits exactly two CAN messages, both with
    identifier 1, of 8 and 5 bytes, whose concatenation is the 13-byte frame
    7E 31 .. 39 6E 90 7E, however long the pump runs; feeding these bytes back
    through the CAN receive path, as the two messages or one byte per
    message, requests identifier 2 and delivers the 9-byte payload once. *)
Theorem can_chunking :
  snd (pkttransfer_send OVER_CAN can_inst can_payload 9 1) = PKTTRANSFER_ERR_OK
  /\ (forall n,
        snd (pump_can (fst (pkttransfer_send OVER_CAN can_inst can_payload 9 1))
                      (replicate (2 + n) avail_can))
        = [EvCanTx [0x7E;0x31;0x32;0x33;0x34;0x35;0x36;0x37] 8 1;
           EvCanTx [0x38;0x39;0x6E;0x90;0x7E] 5 1])
  /\ [0x7E;0x31;0x32;0x33;0x34;0x35;0x36;0x37] ++ [0x38;0x39;0x6E;0x90;0x7E] = can_frame
  /\ snd (run_can can_inst [can_rx_in [0x7E;0x31;0x32;0x33;0x34;0x35;0x36;0x37];
                            can_rx_in [0x38;0x39;0x6E;0x90;0x7E]])
     = [EvCanRx 2; EvCanRx 2; EvAppPkt can_payload 9]
  /\ delivered (snd (run_can can_inst (map (fun byte => can_rx_in [byte]) can_frame)))
     = [can_payload].
Proof.
  split; [vm_compute; reflexivity|].
  split; [|split; [reflexivity|split; vm_compute; reflexivity]].
  intros n. cbn [Nat.add replicate pump_can].
  set (i1 := fst (pkttransfer_send OVER_CAN can_inst can_payload 9 1)).
  assert (E1 : (tx_size (state i1) =? 0) = false) by (vm_compute; reflexivity).
  rewrite E1.
  destruct (pkttransfer_task_can i1 avail_can) as [i2 evs2] eqn:T1.
  assert (E2 : (tx_size (state i2) =? 0) = false).
  { replace i2 with (fst (pkttransfer_task_can i1 avail_can)) by (rewrite T1; reflexivity).
    vm_compute. reflexivity. }
  rewrite E2.
  destruct (pkttransfer_task_can i2 avail_can) as [i3 evs3] eqn:T2.
  assert (E3 : tx_size (state i3) = 0).
  { replace i3 with (fst (pkttransfer_task_can i2 avail_can)) by (rewrite T2; reflexivity).
    replace i2 with (fst (pkttransfer_task_can i1 avail_can)) by (rewrite T1; reflexivity).
    vm_compute. reflexivity. }
  rewrite (pump_can_idle i3 _ E3). cbn [snd].
  replace evs3 with (snd (pkttransfer_task_can i2 avail_can)) by (rewrite T2; reflexivity).
  replace i2 with (fst (pkttransfer_task_can i1 avail_can)) by (rewrite T1; reflexivity).
  replace evs2 with (snd (pkttransfer_task_can i1 avail_can)) by (rewrite T1; reflexivity).
  vm_compute. reflexivity.
Qed.

(** ** Decoding a frame *)

Lemma task_uart_rx i byte :
  pkttransfer_task_uart i (uart_rx_in byte) = pkttransfer_process_byte i byte.
Proof.
  unfold pkttransfer_task_uart, uart_rx_in. cbn [uart_tx_is_avail uart_rx_is_ready uart_rx].
  destruct (pkttransfer_bytes_for_sending i);
    destruct (pkttransfer_process_byte i byte); reflexivity.
Qed.

Lemma run_uart_rx bytes : forall i,
  run_uart i (map uart_rx_in bytes) = process_bytes i bytes.
Proof.
  induction bytes as [|byte rest IH]; intros i; [reflexivity|].
  cbn [map run_uart process_bytes]. rewrite task_uart_rx.
  destruct (pkttransfer_process_byte i byte) as [i1 evs1]. rewrite IH. reflexivity.
Qed.

Lemma take_wr buf (k : nat) v :
  (k < length buf)%nat -> take (S k) (wr buf (Z.of_nat k) v) = take k buf ++ [u8 v].
Proof.
  intros H. unfold wr. rewrite Nat2Z.id.
  rewrite (take_S_r _ _ (u8 v)) by (apply list_lookup_insert_eq; exact H).
  rewrite take_insert_ge by lia. reflexivity.
Qed.

Lemma process_byte_escape j :
  rx_state (state j) = PKTTRANSFER_STATE_BYTE ->
  pkttransfer_process_byte j 0x7D = (rx_escape j, []).
Proof. intros H. unfold pkttransfer_process_byte. rewrite H. reflexivity. Qed.

Lemma process_byte_encoded j byte :
  rx_state (state j) = PKTTRANSFER_STATE_ENCODED_BYTE ->
  byte = 0x5E \/ byte = 0x5D ->
  rx_size (state j) < payload_size_max (config j) ->
  pkttransfer_process_byte j byte = (rx_push j (if byte =? 0x5E then 0x7E else 0x7D), []).
Proof.
  intros H Hb Hlt. unfold pkttransfer_process_byte. rewrite H.
  replace (payload_size_max (config j) <=? rx_size (state j)) with false
    by (symmetry; apply Z.leb_gt; exact Hlt).
  destruct Hb as [-> | ->]; reflexivity.
Qed.

Lemma process_byte_plain j byte :
  rx_state (state j) = PKTTRANSFER_STATE_BYTE ->
  byte <> 0x7D -> byte <> 0x7E ->
  rx_size (state j) < payload_size_max (config j) ->
  pkttransfer_process_byte j byte = (rx_push j byte, []).
Proof.
  intros H H1 H2 Hlt. unfold pkttransfer_process_byte. rewrite H.
  unfold PKTTRANSFER_FRAME_ESCAPE_BYTE, PKTTRANSFER_FRAME_DELIMITER_BYTE.
  replace (byte =? 0x7D) with false by (symmetry; apply Z.eqb_neq; exact H1).
  replace (byte =? 0x7E) with false by (symmetry; apply Z.eqb_neq; exact H2).
  replace (payload_size_max (config j) <=? rx_size (state j)) with false
    by (symmetry; apply Z.leb_gt; exact Hlt).
  reflexivity.
Qed.

Lemma buffered_escape pm len cnt acc j :
  buffered PKTTRANSFER_STATE_BYTE pm len cnt acc j ->
  buffered PKTTRANSFER_STATE_ENCODED_BYTE pm len cnt acc (rx_escape j).
Proof.
  intros (Hst & Hsz & Htk & Hlen & Hpm & Hcnt). unfold buffered, rx_escape. cbn. auto 10.
Qed.

Lemma buffered_push st pm len cnt acc j v :
  buffered st pm len cnt acc j ->
  Z.of_nat (length acc) < pm -> pm <= Z.of_nat len -> is_usize pm -> is_u8 v ->
  buffered PKTTRANSFER_STATE_BYTE pm len cnt (acc ++ [v]) (rx_push j v).
Proof.
  intros (Hst & Hsz & Htk & Hlen & Hpm & Hcnt) Hlt Hle Hu Hv.
  unfold buffered, rx_push.
  cbn [state config with_state with_buf_rx set_rx rx_state rx_size buf_rx_p payload_size_max
       received_packets_cnt].
  split; [reflexivity|]. split; [|split; [|split; [|split]]]; auto.
  - rewrite Hsz, length_app. cbn [length]. rewrite usize_id; [lia|].
    unfold is_usize in *. lia.
  - rewrite Hsz, length_app. cbn [length].
    replace (length acc + 1)%nat with (S (length acc)) by lia.
    rewrite take_wr by lia. rewrite Htk, (u8_id v Hv). reflexivity.
  - rewrite wr_length. exact Hlen.
Qed.

(** One body byte, stuffed, adds that byte to the buffered ones. *)
Lemma decode_stuff pm len cnt acc j x :
  buffered PKTTRANSFER_STATE_BYTE pm len cnt acc j ->
  Z.of_nat (length acc) < pm -> pm <= Z.of_nat len -> is_usize pm -> is_u8 x ->
  snd (process_bytes j (stuff x)) = []
  /\ buffered PKTTRANSFER_STATE_BYTE pm len cnt (acc ++ [x]) (fst (process_bytes j (stuff x))).
Proof.
  intros Hb Hlt Hle Hu Hx.
  pose proof Hb as (Hst & Hsz & _ & _ & Hpm & _).
  pose proof (buffered_escape pm len cnt acc j Hb) as He.
  pose proof He as (Hst' & Hsz' & _ & _ & Hpm' & _).
  unfold stuff.
  destruct (x =? 0x7E) eqn:E1; [|destruct (x =? 0x7D) eqn:E2]; cbn [process_bytes].
  - apply Z.eqb_eq in E1. subst x.
    rewrite (process_byte_escape j Hst).
    rewrite (process_byte_encoded (rx_escape j) 0x5E Hst') by (auto; lia).
    cbn [fst snd app]. split; [reflexivity|].
    apply (buffered_push _ _ _ _ _ _ _ He); auto.
  - apply Z.eqb_eq in E2. subst x.
    rewrite (process_byte_escape j Hst).
    rewrite (process_byte_encoded (rx_escape j) 0x5D Hst') by (auto; lia).
    cbn [fst snd app]. split; [reflexivity|].
    apply (buffered_push _ _ _ _ _ _ _ He); auto.
  - apply Z.eqb_neq in E1, E2.
    rewrite (process_byte_plain j x Hst) by (auto; lia).
    cbn [fst snd app]. split; [reflexivity|].
    apply (buffered_push _ _ _ _ _ _ _ Hb); auto.
Qed.

(** A stuffed body adds its bytes to the buffered ones. *)
Lemma decode_stuffed pm len cnt body : forall acc j,
  buffered PKTTRANSFER_STATE_BYTE pm len cnt acc j ->
  Z.of_nat (length acc + length body) <= pm -> pm <= Z.of_nat len -> is_usize pm ->
  Forall is_u8 body ->
  snd (process_bytes j (stuffed body)) = []
  /\ buffered PKTTRANSFER_STATE_BYTE pm len cnt (acc ++ body)
              (fst (process_bytes j (stuffed body))).
Proof.
  induction body as [|x rest IH]; intros acc j Hb Hlen Hle Hu Hbody.
  - cbn. rewrite app_nil_r. auto.
  - inversion Hbody as [|? ? Hx Hrest]; subst.
    cbn [length] in Hlen.
    rewrite stuffed_cons, process_bytes_app.
    destruct (decode_stuff pm len cnt acc j x Hb) as [He Hb1]; auto; [lia|].
    destruct (process_bytes j (stuff x)) as [j1 evs1]. cbn [fst snd] in He, Hb1. subst evs1.
    destruct (IH (acc ++ [x]) j1 Hb1) as [He2 Hb2]; auto.
    { rewrite length_app. cbn [length]. lia. }
    destruct (process_bytes j1 (stuffed rest)) as [j2 evs2]. cbn [fst snd] in *.
    subst evs2. split; [reflexivity|].
    rewrite <- app_assoc in Hb2. exact Hb2.
Qed.

Lemma le16_crc c : is_u16 c -> u16 (Z.lor (Z.shiftl (Z.shiftr c 8) 8) (Z.land c 0xFF)) = c.
Proof.
  intros Hc. apply Z.eqb_eq.
  apply (all_u16_spec (fun c => u16 (Z.lor (Z.shiftl (Z.shiftr c 8) 8) (Z.land c 0xFF)) =? c));
    [|exact Hc].
  vm_compute. reflexivity.
Qed.

Lemma crc16_x25_range p : Forall is_u8 p -> is_u16 (crc16_x25 p).
Proof. intros Hp. rewrite <- (crc16_eq_x25 p Hp). apply pkttransfer_crc16_range. Qed.

Lemma rd_take buf (n k : nat) : (k < n)%nat -> rd buf (Z.of_nat k) = rd (take n buf) (Z.of_nat k).
Proof. intros H. unfold rd. rewrite Nat2Z.id, lookup_take_lt by exact H. reflexivity. Qed.

(** The closing delimiter of a buffered body [p ++ CRC] delivers [p]. *)
Lemma frame_close pm len cnt p j :
  buffered PKTTRANSFER_STATE_BYTE pm len cnt (p ++ [crc_lo p; crc_hi p]) j ->
  (1 <= length p)%nat -> Forall is_u8 p ->
  snd (pkttransfer_process_byte j 0x7E) = [EvAppPkt p (Z.of_nat (length p))]
  /\ rx_state (state (fst (pkttransfer_process_byte j 0x7E))) = PKTTRANSFER_STATE_DELIMITER
  /\ rx_size (state (fst (pkttransfer_process_byte j 0x7E))) = 0
  /\ received_packets_cnt (state (fst (pkttransfer_process_byte j 0x7E))) = u32 (cnt + 1).
Proof.
  intros (Hst & Hsz & Htk & Hlen & Hpm & Hcnt) Hp1 Hp.
  rewrite length_app in Hsz, Htk. cbn [length] in Hsz, Htk.
  assert (Hlo : rd (buf_rx_p (config j)) (Z.of_nat (length p)) = crc_lo p).
  { rewrite (rd_take _ (length p + 2)) by lia. rewrite Htk. unfold rd.
    rewrite Nat2Z.id, lookup_app_r by lia.
    replace (length p - length p)%nat with 0%nat by lia. reflexivity. }
  assert (Hhi : rd (buf_rx_p (config j)) (Z.of_nat (length p) + 1) = crc_hi p).
  { replace (Z.of_nat (length p) + 1) with (Z.of_nat (length p + 1)) by lia.
    rewrite (rd_take _ (length p + 2)) by lia. rewrite Htk. unfold rd.
    rewrite Nat2Z.id, lookup_app_r by lia.
    replace (length p + 1 - length p)%nat with 1%nat by lia. reflexivity. }
  assert (Hpay : take (length p) (buf_rx_p (config j)) = p).
  { replace (length p) with (min (length p) (length p + 2)) at 1 by lia.
    rewrite <- take_take, Htk. apply take_app_length. }
  assert (Hcrc : pkttransfer_crc16 (buf_rx_p (config j)) (Z.of_nat (length p)) = crc16_x25 p).
  { rewrite <- crc16_take by lia. rewrite Nat2Z.id, Hpay. apply crc16_eq_x25, Hp. }
  assert (Hframe : pkttransfer_process_frame j
                   = (with_state j (set_received_packets_cnt (state j) (u32 (cnt + 1))),
                      [EvAppPkt p (Z.of_nat (length p))])).
  { unfold pkttransfer_process_frame, PKTTRANSFER_FRAME_CRC_SIZE. rewrite Hsz, Hcnt.
    replace (Z.of_nat (length p + 2) <=? 2) with false by (symmetry; apply Z.leb_gt; lia).
    replace (Z.of_nat (length p + 2) - 1) with (Z.of_nat (length p) + 1) by lia.
    replace (Z.of_nat (length p + 2) - 2) with (Z.of_nat (length p)) by lia.
    rewrite Hlo, Hhi, Hcrc, Nat2Z.id, Hpay. unfold crc_hi, crc_lo.
    rewrite (le16_crc _ (crc16_x25_range p Hp)), Z.eqb_refl. reflexivity. }
  unfold pkttransfer_process_byte. rewrite Hst, Hframe. cbn. auto.
Qed.

(** The opening delimiter on a fresh instance. *)
Lemma frame_open c :
  pkttransfer_process_byte (pkttransfer_init c) 0x7E
  = (with_state (pkttransfer_init c)
       (set_rx (set_sof_detections_cnt state_zero (u32 1)) PKTTRANSFER_STATE_BYTE 0), []).
Proof. reflexivity. Qed.

(** Round trip within the capacity of the decoder: on a freshly initialized
    instance, the framed encoding of a payload [p] of 1 to
    [payload_size_max - 2] bytes, fed byte by byte, invokes the application
    callback exactly once, with [p]. *)
Lemma roundtrip_within_capacity c p :
  config_ok c -> Forall is_u8 p ->
  1 <= Z.of_nat (length p) <= payload_size_max c - 2 ->
  snd (run_uart (pkttransfer_init c) (map uart_rx_in (framed p)))
  = [EvAppPkt p (Z.of_nat (length p))].
Proof.
  intros (Hc1 & Hc2 & Hc3 & Hc4) Hp Hlen.
  unfold is_usize, PKTTRANSFER_FRAME_CRC_SIZE in *.
  rewrite run_uart_rx. unfold framed.
  change (0x7E :: stuffed (p ++ [crc_lo p; crc_hi p]) ++ [0x7E])
    with ([0x7E] ++ stuffed (p ++ [crc_lo p; crc_hi p]) ++ [0x7E]).
  rewrite process_bytes_app.
  cbn [process_bytes]. rewrite frame_open.
  set (j0 := with_state (pkttransfer_init c) _).
  rewrite process_bytes_app.
  assert (Hb0 : buffered PKTTRANSFER_STATE_BYTE (payload_size_max c)
                         (length (buf_rx_p c)) 0 [] j0).
  { unfold buffered, j0. cbn. auto 10. }
  assert (Hbody : Forall is_u8 (p ++ [crc_lo p; crc_hi p])).
  { apply Forall_app. split; [exact Hp|].
    pose proof (crc16_x25_range p Hp) as Hr.
    apply List.Forall_cons; [apply crc_lo_u8|].
    apply List.Forall_cons; [apply crc_hi_u8, Hr | apply List.Forall_nil]. }
  destruct (decode_stuffed (payload_size_max c) (length (buf_rx_p c)) 0
              (p ++ [crc_lo p; crc_hi p]) [] j0 Hb0) as [He Hb1]; auto.
  { rewrite length_app. cbn [length]. lia. }
  { lia. }
  { unfold is_usize. lia. }
  destruct (process_bytes j0 (stuffed (p ++ [crc_lo p; crc_hi p]))) as [j1 evs1].
  cbn [fst snd app] in *. subst evs1.
  destruct (frame_close _ _ _ p j1 Hb1) as (Hev & _); [lia | exact Hp |].
  cbn [process_bytes].
  destruct (pkttransfer_process_byte j1 0x7E) as [j2 evs2]. cbn [fst snd app] in *.
  rewrite app_nil_r. exact Hev.
Qed.

(** *** Frames beyond the capacity of the decoder *)

Lemma stuffed_no_delimiter body : Forall (fun byte => byte <> 0x7E) (stuffed body).
Proof.
  induction body as [|x rest IH]; [apply List.Forall_nil|].
  rewrite stuffed_cons. apply Forall_app. split; [|exact IH].
  unfold stuff. destruct (x =? 0x7E) eqn:E1; [|destruct (x =? 0x7D) eqn:E2].
  - repeat (apply List.Forall_cons; [lia|]). apply List.Forall_nil.
  - repeat (apply List.Forall_cons; [lia|]). apply List.Forall_nil.
  - apply Z.eqb_neq in E1. apply List.Forall_cons; [exact E1 | apply List.Forall_nil].
Qed.

(** Outside a frame everything but the delimiter is ignored. *)
Lemma process_bytes_ignored bytes j :
  rx_state (state j) = PKTTRANSFER_STATE_DELIMITER ->
  Forall (fun byte => byte <> 0x7E) bytes ->
  process_bytes j bytes = (j, []).
Proof.
  intros Hst Hb. induction Hb as [|byte rest Hne Hrest IH]; [reflexivity|].
  cbn [process_bytes]. unfold pkttransfer_process_byte. rewrite Hst.
  unfold PKTTRANSFER_FRAME_DELIMITER_BYTE.
  replace (byte =? 0x7E) with false by (symmetry; apply Z.eqb_neq; exact Hne).
  rewrite IH. reflexivity.
Qed.

(** With [payload_size_max] bytes buffered, the next body byte drops the
    frame, whatever it is. *)
Lemma decode_overflow pm len cnt acc j x :
  buffered PKTTRANSFER_STATE_BYTE pm len cnt acc j ->
  pm <= Z.of_nat (length acc) ->
  process_bytes j (stuff x) = (rx_drop j, []).
Proof.
  intros (Hst & Hsz & _ & _ & Hpm & _) Hge.
  assert (Hfull : (payload_size_max (config j) <=? rx_size (state j)) = true).
  { apply Z.leb_le. lia. }
  unfold stuff.
  destruct (x =? 0x7E) eqn:E1; [|destruct (x =? 0x7D) eqn:E2]; cbn [process_bytes].
  - rewrite (process_byte_escape j Hst).
    unfold pkttransfer_process_byte, rx_escape.
    cbn [state config with_state set_rx rx_state rx_size payload_size_max].
    rewrite Hfull, orb_true_r. reflexivity.
  - rewrite (process_byte_escape j Hst).
    unfold pkttransfer_process_byte, rx_escape.
    cbn [state config with_state set_rx rx_state rx_size payload_size_max].
    rewrite Hfull, orb_true_r. reflexivity.
  - unfold pkttransfer_process_byte. rewrite Hst.
    unfold PKTTRANSFER_FRAME_ESCAPE_BYTE, PKTTRANSFER_FRAME_DELIMITER_BYTE.
    rewrite E1, E2, Hfull. reflexivity.
Qed.

(** A frame whose body (payload and CRC) has more than [payload_size_max]
    bytes is dropped: nothing is delivered.  This is the case of every
    payload of [payload_size_max - 1] or [payload_size_max] bytes, which
    [pkttransfer_send] accepts. *)
Lemma roundtrip_lost_beyond_capacity c p :
  config_ok c -> Forall is_u8 p ->
  payload_size_max c - 2 < Z.of_nat (length p) ->
  snd (run_uart (pkttransfer_init c) (map uart_rx_in (framed p))) = [].
Proof.
  intros (Hc1 & Hc2 & Hc3 & Hc4) Hp Hlen.
  unfold is_usize, PKTTRANSFER_FRAME_CRC_SIZE in *.
  set (body := p ++ [crc_lo p; crc_hi p]).
  assert (Hbody : Forall is_u8 body).
  { apply Forall_app. split; [exact Hp|].
    pose proof (crc16_x25_range p Hp) as Hr.
    apply List.Forall_cons; [apply crc_lo_u8|].
    apply List.Forall_cons; [apply crc_hi_u8, Hr | apply List.Forall_nil]. }
  assert (Hbl : (Z.to_nat (payload_size_max c) < length body)%nat).
  { unfold body. rewrite length_app. cbn [length]. lia. }
  destruct (lookup_lt_is_Some_2 body (Z.to_nat (payload_size_max c)) Hbl) as [x Hx].
  pose proof (take_drop_middle body _ x Hx) as Hsplit.
  set (b1 := take (Z.to_nat (payload_size_max c)) body) in *.
  set (b2 := drop (S (Z.to_nat (payload_size_max c))) body) in *.
  assert (Hl1 : length b1 = Z.to_nat (payload_size_max c)).
  { unfold b1. rewrite length_take. lia. }
  assert (Hb1 : Forall is_u8 b1) by (apply Forall_take, Hbody).
  rewrite run_uart_rx. unfold framed. fold body. rewrite <- Hsplit.
  change (0x7E :: stuffed (b1 ++ x :: b2) ++ [0x7E])
    with ([0x7E] ++ stuffed (b1 ++ x :: b2) ++ [0x7E]).
  rewrite stuffed_app, stuffed_cons, <- !app_assoc.
  rewrite process_bytes_app. cbn [process_bytes]. rewrite frame_open.
  set (j0 := with_state (pkttransfer_init c) _).
  assert (Hj0 : buffered PKTTRANSFER_STATE_BYTE (payload_size_max c)
                         (length (buf_rx_p c)) 0 [] j0).
  { unfold buffered, j0. cbn. auto 10. }
  destruct (decode_stuffed (payload_size_max c) (length (buf_rx_p c)) 0 b1 [] j0 Hj0)
    as [He Hj1]; auto; [cbn [length]; lia | lia | unfold is_usize; lia |].
  rewrite process_bytes_app.
  destruct (process_bytes j0 (stuffed b1)) as [j1 evs1]. cbn [fst snd app] in *. subst evs1.
  rewrite process_bytes_app.
  rewrite (decode_overflow _ _ _ b1 j1 x Hj1) by lia.
  rewrite process_bytes_app.
  rewrite (process_bytes_ignored (stuffed b2) (rx_drop j1)) by
    (auto using stuffed_no_delimiter).
  cbn [process_bytes]. unfold pkttransfer_process_byte at 1.
  cbn [rx_drop state with_state set_rx rx_state].
  reflexivity.
Qed.

(** ** Round trip at [payload_size_max] *)

(** C1 (code). The payload 01 7D 02 7E with [payload_size_max = 4]: the
    submit is accepted and the encoder emits the frame
    7E 01 7D 5D 02 7D 5E 8B 36 7E, but a freshly initialized decoder fed this
    frame delivers nothing: the frame is dropped when the first CRC byte
    arrives with [rx_size == payload_size_max].  With
    [payload_size_max = 6] the same frame is delivered. *)
Theorem roundtrip_at_payload_max_lost :
  let p := [0x01;0x7D;0x02;0x7E] in
  let c := test_config 4 in
  snd (pkttransfer_send OVER_UART (pkttransfer_init c) p 4 0) = PKTTRANSFER_ERR_OK
  /\ wire (snd (pump_uart (fst (pkttransfer_send OVER_UART (pkttransfer_init c) p 4 0))
                          (replicate 10 avail_uart)))
     = framed p
  /\ framed p = [0x7E;0x01;0x7D;0x5D;0x02;0x7D;0x5E;0x8B;0x36;0x7E]
  /\ snd (run_uart (pkttransfer_init c) (map uart_rx_in (framed p))) = []
  /\ snd (run_uart (pkttransfer_init (test_config 6)) (map uart_rx_in (framed p)))
     = [EvAppPkt p 4].
Proof.
  intros p c.
  assert (Hp : Forall is_u8 p) by (repeat (apply List.Forall_cons; [unfold is_u8; lia|]);
                                   apply List.Forall_nil).
  split; [reflexivity|]. split; [vm_compute; reflexivity|]. split; [vm_compute; reflexivity|].
  split.
  - apply roundtrip_lost_beyond_capacity; [apply test_config_ok; lia | exact Hp | cbn; lia].
  - apply (roundtrip_within_capacity (test_config 6) p);
      [apply test_config_ok; lia | exact Hp | cbn; lia].
Qed.

(** ** The overflow threshold of the decoder *)

(** C2 (code). With [payload_size_max = 4] and four bytes buffered
    ([rx_size = 4 < payload_size_max + 2]) the decoder in state [Byte] does
    not append an ordinary byte: it drops the frame ([rx_size := 0], state
    [Delimiter]) and leaves the RX buffer as it is; the same happens to an
    escaped byte in state [EncodedByte]. *)
Theorem decoder_drops_at_payload_max :
  let c := test_config 4 in
  let j := run_ops OVER_UART (pkttransfer_init c)
                   (map (fun byte => OpTaskUart (uart_rx_in byte)) [0x7E;0x01;0x02;0x03;0x04]) in
  reachable OVER_UART c j
  /\ rx_state (state j) = PKTTRANSFER_STATE_BYTE
  /\ rx_size (state j) = 4
  /\ rx_size (state j) < payload_size_max (config j) + 2
  /\ rx_size (state (fst (pkttransfer_process_byte j 0x8B))) = 0
  /\ rx_state (state (fst (pkttransfer_process_byte j 0x8B))) = PKTTRANSFER_STATE_DELIMITER
  /\ buf_rx_p (config (fst (pkttransfer_process_byte j 0x8B))) = buf_rx_p (config j)
  /\ rx_state (state (fst (pkttransfer_process_byte j 0x7D))) = PKTTRANSFER_STATE_ENCODED_BYTE
  /\ rx_size (state (fst (process_bytes j [0x7D; 0x5E]))) = 0
  /\ rx_state (state (fst (process_bytes j [0x7D; 0x5E]))) = PKTTRANSFER_STATE_DELIMITER.
Proof.
  intros c j. split.
  - apply reachable_run_ops.
    + apply reach_init, test_config_ok; lia.
    + cbn. repeat split.
  - vm_compute. repeat split; reflexivity.
Qed.

(** ** Assertions *)

(** The assertions of the private functions hold in every state that
    satisfies the invariant, that is in every state the driver is in between
    and inside operations. *)
Lemma inv_asserts c i :
  inv c i ->
  bytes_for_sending_asserts i = true
  /\ process_asserts i = true
  /\ (pkttransfer_bytes_for_sending i = true -> prepare_byte_asserts i = true).
Proof.
  intros ((Hc & Hpm & _) & (Hs & Hm & _) & (Hr & _)).
  destruct Hc as (Hc1 & Hc2 & _).
  unfold bytes_for_sending_asserts, process_asserts, prepare_byte_asserts,
    pkttransfer_bytes_for_sending.
  rewrite Hpm in *. rewrite (usize_id _ Hc2).
  unfold PKTTRANSFER_FRAME_CRC_SIZE in *.
  split; [apply Z.leb_le; lia|]. split; [apply Z.leb_le; lia|].
  intros ->. cbn [andb].
  rewrite andb_true_iff. split; apply Z.leb_le; lia.
Qed.

Lemma config_ok_init_asserts c : config_ok c -> init_asserts c = true.
Proof.
  intros (Hc1 & _). unfold init_asserts.
  destruct (payload_size_max c =? 0) eqn:E; [apply Z.eqb_eq in E; lia | reflexivity].
Qed.

(** * Further properties of the code *)

(** ** CRC *)

Lemma x25_fold_range p : Forall is_u8 p -> is_u16 (fold_left x25_byte p 0xFFFF).
Proof.
  intros Hp. apply (crc16_fold_x25 p 0xFFFF); [unfold is_u16; lia | exact Hp].
Qed.

Lemma x25_residue_step r :
  is_u16 r ->
  x25_byte (x25_byte r (Z.land (Z.lxor r 0xFFFF) 0xFF)) (Z.shiftr (Z.lxor r 0xFFFF) 8) = 0xF0B8.
Proof.
  intros Hr. apply Z.eqb_eq.
  apply (all_u16_spec
           (fun r => x25_byte (x25_byte r (Z.land (Z.lxor r 0xFFFF) 0xFF))
                              (Z.shiftr (Z.lxor r 0xFFFF) 8) =? 0xF0B8)); [|exact Hr].
  vm_compute. reflexivity.
Qed.

(** X1. The CRC of a payload followed by its own CRC, low byte first, is the
    constant 0x0F47, whatever the payload: a receiver may check a frame body
    by computing [pkttransfer_crc16] over all of it. *)
Theorem crc16_residue (p : list Z) (Hp : Forall is_u8 p) :
  let crc := pkttransfer_crc16 p (Z.of_nat (length p)) in
  pkttransfer_crc16 (p ++ [Z.land crc 0xFF; Z.shiftr crc 8]) (Z.of_nat (length p) + 2) = 0x0F47.
Proof.
  intros crc.
  assert (Hcrc : crc = crc16_x25 p) by apply (crc16_eq_x25 p Hp).
  assert (Hbody : Forall is_u8 (p ++ [Z.land crc 0xFF; Z.shiftr crc 8])).
  { apply Forall_app. split; [exact Hp|].
    apply List.Forall_cons; [apply crc_lo_u8|].
    apply List.Forall_cons; [|apply List.Forall_nil].
    apply crc_hi_u8. unfold crc. apply pkttransfer_crc16_range. }
  replace (Z.of_nat (length p) + 2)
    with (Z.of_nat (length (p ++ [Z.land crc 0xFF; Z.shiftr crc 8])))
    by (rewrite length_app; cbn [length]; lia).
  rewrite (crc16_eq_x25 _ Hbody). unfold crc16_x25 at 1.
  rewrite fold_left_app, !fold_left_cons.
  change (fold_left x25_byte [] ?a) with a.
  rewrite Hcrc. unfold crc16_x25.
  rewrite (x25_residue_step _ (x25_fold_range p Hp)). reflexivity.
Qed.

Lemma crc16_residue_witness :
  Forall is_u8 [0x31;0x32;0x33;0x34;0x35;0x36;0x37;0x38;0x39]
  /\ pkttransfer_crc16 [0x31;0x32;0x33;0x34;0x35;0x36;0x37;0x38;0x39;0x6E;0x90] 11 = 0x0F47.
Proof.
  assert (H : Forall is_u8 [0x31;0x32;0x33;0x34;0x35;0x36;0x37;0x38;0x39]).
  { repeat (apply List.Forall_cons; [unfold is_u8; lia|]). apply List.Forall_nil. }
  split; [exact H|]. exact (crc16_residue _ H).
Defined.

Lemma crc16_out_finish_spec c :
  is_u16 c ->
  crc16_out_finish c
  = (Z.lxor c 0xFFFF, [Z.land (Z.lxor c 0xFFFF) 0xFF; Z.shiftr (Z.lxor c 0xFFFF) 8]).
Proof.
  intros Hc.
  assert (H : (match crc16_out_finish c with
               | (v, [a; b]) =>
                   (v =? Z.lxor c 0xFFFF) && (a =? Z.land (Z.lxor c 0xFFFF) 0xFF)
                   && (b =? Z.shiftr (Z.lxor c 0xFFFF) 8)
               | _ => false
               end) = true).
  { apply (all_u16_spec
             (fun c => match crc16_out_finish c with
                       | (v, [a; b]) =>
                           (v =? Z.lxor c 0xFFFF) && (a =? Z.land (Z.lxor c 0xFFFF) 0xFF)
                           && (b =? Z.shiftr (Z.lxor c 0xFFFF) 8)
                       | _ => false
                       end)); [|exact Hc].
    vm_compute. reflexivity. }
  destruct (crc16_out_finish c) as [v [|a [|b [|? ?]]]]; try discriminate.
  apply andb_prop in H as [H Hb]. apply andb_prop in H as [Hv Ha].
  apply Z.eqb_eq in Hv, Ha, Hb. subst. reflexivity.
Qed.

(** X2. The three-argument [pkttransfer_crc16] of [drv_pkttransfer.c]
    returns the same CRC-16/X-25 value as the two-argument one, and leaves in
    [out_p] the two bytes of that value in wire order, low byte first. *)
Theorem crc16_out_wire_order (data : list Z) (Hdata : Forall is_u8 data) :
  fst (pkttransfer_crc16_out data (Z.of_nat (length data)))
  = pkttransfer_crc16 data (Z.of_nat (length data))
  /\ fst (pkttransfer_crc16_out data (Z.of_nat (length data))) = crc16_x25 data
  /\ snd (pkttransfer_crc16_out data (Z.of_nat (length data)))
     = [Z.land (crc16_x25 data) 0xFF; Z.shiftr (crc16_x25 data) 8].
Proof.
  rewrite (crc16_eq_x25 data Hdata).
  unfold pkttransfer_crc16_out, crc16_x25.
  rewrite Nat2Z.id, firstn_all.
  destruct (crc16_fold_x25 data 0xFFFF) as [-> Hr]; [unfold is_u16; lia | exact Hdata |].
  rewrite (crc16_out_finish_spec _ Hr). cbn [fst snd]. auto.
Qed.

Lemma crc16_out_wire_order_witness :
  Forall is_u8 [0x31;0x32;0x33;0x34;0x35;0x36;0x37;0x38;0x39]
  /\ pkttransfer_crc16_out [0x31;0x32;0x33;0x34;0x35;0x36;0x37;0x38;0x39] 9
     = (0x906E, [0x6E; 0x90]).
Proof.
  assert (H : Forall is_u8 [0x31;0x32;0x33;0x34;0x35;0x36;0x37;0x38;0x39]).
  { repeat (apply List.Forall_cons; [unfold is_u8; lia|]). apply List.Forall_nil. }
  split; [exact H|].
  destruct (crc16_out_wire_order _ H) as (_ & H1 & H2).
  change (Z.of_nat (length [0x31;0x32;0x33;0x34;0x35;0x36;0x37;0x38;0x39])) with 9 in *.
  destruct (pkttransfer_crc16_out [0x31;0x32;0x33;0x34;0x35;0x36;0x37;0x38;0x39] 9) as [v out].
  cbn [fst snd] in *. subst. reflexivity.
Defined.

(** ** Transmission, task by task *)

Lemma task_uart_tx_idle i hw :
  uart_tx_is_avail hw = false \/ tx_size (state i) = 0 ->
  wire (snd (pkttransfer_task_uart i hw)) = []
  /\ tx_view (fst (pkttransfer_task_uart i hw)) = tx_view i.
Proof.
  intros H. unfold pkttransfer_task_uart, pkttransfer_bytes_for_sending.
  assert (E : (if negb (tx_size (state i) =? 0)
               then if uart_tx_is_avail hw
                    then let (i', transmit_byte) := pkttransfer_prepare_byte i in
                         (i', [EvUartTx transmit_byte])
                    else (i, [])
               else (i, [])) = (i, [])).
  { destruct H as [-> | ->]; [destruct (negb _)|]; reflexivity. }
  rewrite E.
  destruct (uart_rx_is_ready hw); [|split; reflexivity].
  pose proof (process_byte_tx_view i (uart_rx hw)) as Hv.
  pose proof (process_byte_wire i (uart_rx hw)) as Hw.
  destruct (pkttransfer_process_byte i (uart_rx hw)) as [i2 evs]. cbn [fst snd app] in *.
  auto.
Qed.

Lemma take_S_cons {A : Type} (x : A) (l : list A) (n : nat) : take (S n) (x :: l) = x :: take n l.
Proof. reflexivity. Qed.

(** Any sequence of UART tasks emits the pending bytes in order, one for
    every task in which the hardware was ready. *)
Lemma run_uart_wire hws : forall i,
  tx_next i ->
  wire (snd (run_uart i hws)) = take (uart_avail_count hws) (pending i)
  /\ pending (fst (run_uart i hws)) = drop (uart_avail_count hws) (pending i)
  /\ tx_next (fst (run_uart i hws)).
Proof.
  induction hws as [|hw rest IH]; intros i Hnext.
  - cbn [run_uart fst snd]. unfold uart_avail_count. cbn. auto.
  - cbn [run_uart]. unfold uart_avail_count. cbn [List.filter].
    destruct (uart_tx_is_avail hw) eqn:Ea.
    + destruct (Z.eq_dec (tx_size (state i)) 0) as [E0 | E0].
      * destruct (task_uart_tx_idle i hw (or_intror E0)) as [Hw Hv].
        destruct (pkttransfer_task_uart i hw) as [i1 evs1]. cbn [fst snd] in *.
        destruct (IH i1 (tx_next_view i i1 (eq_sym Hv) Hnext)) as (H1 & H2 & H3).
        destruct (run_uart i1 rest) as [i2 evs2]. cbn [fst snd] in *.
        rewrite wire_app, Hw, H1, H2, (pending_view i1 i Hv).
        rewrite (proj2 (pending_nil i) E0), !take_nil, !drop_nil. auto.
      * destruct Hnext as [H0 | Hr]; [contradiction|].
        destruct (task_uart_tx i hw Hr E0 Ea) as (Hp & Hl & Hnext').
        destruct (pkttransfer_task_uart i hw) as [i1 evs1]. cbn [fst snd] in *.
        destruct (IH i1 Hnext') as (H1 & H2 & H3).
        destruct (run_uart i1 rest) as [i2 evs2]. cbn [fst snd length] in *.
        fold (uart_avail_count rest) in *.
        rewrite wire_app, H1, H2, Hp.
        destruct (wire evs1) as [|byte [|? ?]]; try discriminate.
        cbn [app]. rewrite take_S_cons. cbn [drop]. auto.
    + destruct (task_uart_tx_idle i hw (or_introl Ea)) as [Hw Hv].
      destruct (pkttransfer_task_uart i hw) as [i1 evs1]. cbn [fst snd] in *.
      destruct (IH i1 (tx_next_view i i1 (eq_sym Hv) Hnext)) as (H1 & H2 & H3).
      destruct (run_uart i1 rest) as [i2 evs2]. cbn [fst snd] in *.
      fold (uart_avail_count rest) in *.
      rewrite wire_app, Hw, H1, H2, (pending_view i1 i Hv). auto.
Qed.

(** X3. UART build: after an accepted submit of [p], whatever the hardware
    does, the bytes handed to it by any sequence of task invocations are the
    first [n] bytes of the frame of [p], [n] being the number of invocations
    in which it was ready to send; and [tx_size] is back to 0 exactly when
    all bytes of the frame, closing delimiter included, have been handed
    over. *)
Theorem uart_tx_progress (c : pkttransfer_config_t) (i : pkttransfer_t) (p : list Z) (id : Z)
    (hws : list hw_uart_in)
    (Hreach : reachable OVER_UART c i) (Hbytes : Forall is_u8 p)
    (Haccepted : snd (pkttransfer_send OVER_UART i p (Z.of_nat (length p)) id)
                 = PKTTRANSFER_ERR_OK) :
  wire (snd (run_uart (fst (pkttransfer_send OVER_UART i p (Z.of_nat (length p)) id)) hws))
  = take (uart_avail_count hws) (framed p)
  /\ (tx_size (state (fst (run_uart (fst (pkttransfer_send OVER_UART i p
                                                           (Z.of_nat (length p)) id)) hws))) = 0
      <-> (length (framed p) <= uart_avail_count hws)%nat).
Proof.
  destruct (send_pending OVER_UART c i p id (reachable_inv _ c i Hreach) Hbytes Haccepted)
    as (Hp & Hr & _).
  destruct (run_uart_wire hws _ (or_intror Hr)) as (H1 & H2 & _).
  rewrite Hp in H1, H2. split; [exact H1|].
  rewrite <- pending_nil, H2. split; intros H.
  - apply (f_equal length) in H. rewrite length_drop in H. cbn [length] in H. lia.
  - apply drop_ge. exact H.
Qed.

Lemma uart_tx_progress_witness :
  let i := pkttransfer_init (test_config 8) in
  let p := [0x01;0x7D;0x02;0x7E] in
  let hws := [avail_uart; uart_rx_in 0x55; avail_uart; avail_uart] in
  reachable OVER_UART (test_config 8) i
  /\ Forall is_u8 p
  /\ snd (pkttransfer_send OVER_UART i p 4 0) = PKTTRANSFER_ERR_OK
  /\ wire (snd (run_uart (fst (pkttransfer_send OVER_UART i p 4 0)) hws)) = [0x7E;0x01;0x7D].
Proof.
  intros i p hws.
  assert (Hr : reachable OVER_UART (test_config 8) i)
    by (apply reach_init, test_config_ok; lia).
  assert (Hp : Forall is_u8 p).
  { repeat (apply List.Forall_cons; [unfold is_u8; lia|]). apply List.Forall_nil. }
  assert (Ha : snd (pkttransfer_send OVER_UART i p (Z.of_nat (length p)) 0) = PKTTRANSFER_ERR_OK)
    by reflexivity.
  split; [exact Hr|]. split; [exact Hp|]. split; [exact Ha|].
  exact (proj1 (uart_tx_progress (test_config 8) i p 0 hws Hr Hp Ha)).
Defined.

Lemma length_stuffed body :
  (length body <= length (stuffed body) <= 2 * length body)%nat.
Proof.
  induction body as [|x rest IH]; [cbn; lia|].
  rewrite stuffed_cons, length_app. cbn [length].
  assert (H : (1 <= length (stuff x) <= 2)%nat).
  { unfold stuff. destruct (x =? 0x7E); [cbn; lia|]. destruct (x =? 0x7D); cbn; lia. }
  lia.
Qed.

Lemma length_framed p :
  (length p + 4 <= length (framed p) <= 2 * length p + 6)%nat.
Proof.
  unfold framed. cbn [length]. rewrite length_app. cbn [length].
  pose proof (length_stuffed (p ++ [crc_lo p; crc_hi p])) as H.
  rewrite length_app in H. cbn [length] in H. lia.
Qed.

Lemma tx_phase_view k i j : tx_view i = tx_view j -> tx_phase k i -> tx_phase k j.
Proof.
  unfold tx_view, tx_phase. intros H.
  injection H as -> -> -> -> _ _ _. auto.
Qed.

Lemma prepare_byte_phase i :
  tx_size (state i) <> 0 ->
  tx_phase (sent_packets_cnt (state i)) (fst (pkttransfer_prepare_byte i)).
Proof.
  intros Hn. unfold pkttransfer_prepare_byte, tx_phase.
  destruct (sent_size (state i) =? tx_size (state i)).
  - right. cbn. auto.
  - left. destruct (tx_state (state i)); [cbn; auto | | cbn; auto].
    destruct (_ || _); cbn; auto.
Qed.

Lemma task_uart_phase k i hw : tx_phase k i -> tx_phase k (fst (pkttransfer_task_uart i hw)).
Proof.
  intros Hk.
  assert (Hidle : uart_tx_is_avail hw = false \/ tx_size (state i) = 0 ->
                  tx_phase k (fst (pkttransfer_task_uart i hw))).
  { intros H. destruct (task_uart_tx_idle i hw H) as [_ Hv].
    apply (tx_phase_view k i); [symmetry; exact Hv | exact Hk]. }
  destruct (uart_tx_is_avail hw) eqn:Ea; [|auto].
  destruct Hk as [(Hn & Hc) | (H0 & _)]; [|destruct Hidle; [auto | left; assumption | right; assumption]].
  clear Hidle.
  unfold pkttransfer_task_uart, pkttransfer_bytes_for_sending. rewrite Ea.
  destruct (tx_size (state i) =? 0) eqn:E0; [apply Z.eqb_eq in E0; contradiction|].
  cbn [negb].
  pose proof (prepare_byte_phase i Hn) as Hp. rewrite Hc in Hp.
  destruct (pkttransfer_prepare_byte i) as [i1 byte]. cbn [fst] in Hp.
  destruct (uart_rx_is_ready hw); [|exact Hp].
  pose proof (process_byte_tx_view i1 (uart_rx hw)) as Hv.
  destruct (pkttransfer_process_byte i1 (uart_rx hw)) as [i2 evs]. cbn [fst] in *.
  apply (tx_phase_view k i1); [symmetry; exact Hv | exact Hp].
Qed.

Lemma run_uart_phase k hws : forall i, tx_phase k i -> tx_phase k (fst (run_uart i hws)).
Proof.
  induction hws as [|hw rest IH]; intros i Hk; [exact Hk|].
  cbn [run_uart].
  pose proof (task_uart_phase k i hw Hk) as H1.
  destruct (pkttransfer_task_uart i hw) as [i1 evs1]. cbn [fst] in H1.
  specialize (IH i1 H1). destruct (run_uart i1 rest). exact IH.
Qed.

Lemma run_uart_inv c hws : forall i, inv c i -> inv c (fst (run_uart i hws)).
Proof.
  induction hws as [|hw rest IH]; intros i Hi; [exact Hi|].
  cbn [run_uart].
  pose proof (task_uart_inv c i hw Hi) as H1.
  destruct (pkttransfer_task_uart i hw) as [i1 evs1]. cbn [fst] in H1.
  specialize (IH i1 H1). destruct (run_uart i1 rest). exact IH.
Qed.

Lemma send_sent_packets_cnt b i payload_p size id :
  sent_packets_cnt (state (fst (pkttransfer_send b i payload_p size id)))
  = sent_packets_cnt (state i).
Proof.
  unfold pkttransfer_send.
  destruct (_ <? _); [reflexivity|]. destruct (negb _); [reflexivity|].
  destruct b; reflexivity.
Qed.

(** X4. UART build: after an accepted submit of a payload of [n] bytes,
    [2 n + 6] task invocations with the hardware ready to send always
    suffice, stuffing included: the bytes handed over are exactly the frame,
    further invocations send nothing, and the instance is idle again
    ([tx_size = 0], [sent_size = 0], [tx_state = Delimiter]) with
    [sent_packets_cnt] advanced by one.  The frame has between [n + 4] and
    [2 n + 6] bytes. *)
Theorem uart_drain_bound (c : pkttransfer_config_t) (i : pkttransfer_t) (p : list Z) (id : Z)
    (hws : list hw_uart_in)
    (Hreach : reachable OVER_UART c i) (Hbytes : Forall is_u8 p)
    (Haccepted : snd (pkttransfer_send OVER_UART i p (Z.of_nat (length p)) id)
                 = PKTTRANSFER_ERR_OK)
    (Hticks : (2 * length p + 6 <= uart_avail_count hws)%nat) :
  let i' := fst (run_uart (fst (pkttransfer_send OVER_UART i p (Z.of_nat (length p)) id)) hws) in
  wire (snd (run_uart (fst (pkttransfer_send OVER_UART i p (Z.of_nat (length p)) id)) hws))
  = framed p
  /\ (length p + 4 <= length (framed p) <= 2 * length p + 6)%nat
  /\ tx_size (state i') = 0
  /\ sent_size (state i') = 0
  /\ tx_state (state i') = PKTTRANSFER_STATE_DELIMITER
  /\ sent_packets_cnt (state i') = u32 (sent_packets_cnt (state i) + 1).
Proof.
  intros i'.
  pose proof (length_framed p) as Hlen.
  destruct (send_pending OVER_UART c i p id (reachable_inv _ c i Hreach) Hbytes Haccepted)
    as (Hp & Hr & Hsz & _).
  destruct (run_uart_wire hws _ (or_intror Hr)) as (H1 & H2 & _).
  rewrite Hp in H1, H2.
  split; [rewrite H1; apply take_ge; lia|]. split; [exact Hlen|].
  assert (H0 : tx_size (state i') = 0).
  { apply pending_nil. unfold i'. rewrite H2. apply drop_ge. lia. }
  assert (Hph : tx_phase (sent_packets_cnt (state i)) i').
  { apply run_uart_phase. left. rewrite Hsz, send_sent_packets_cnt. split; [lia | reflexivity]. }
  destruct Hph as [(Hn & _) | (_ & Hs & Hst & Hc)]; [contradiction|]. auto.
Qed.

Lemma uart_drain_bound_witness :
  let i := pkttransfer_init (test_config 8) in
  let p := [0x7E;0x7D;0x7E;0x7D] in
  let hws := replicate 14 avail_uart in
  reachable OVER_UART (test_config 8) i
  /\ Forall is_u8 p
  /\ snd (pkttransfer_send OVER_UART i p 4 0) = PKTTRANSFER_ERR_OK
  /\ (2 * length p + 6 <= uart_avail_count hws)%nat
  /\ wire (snd (run_uart (fst (pkttransfer_send OVER_UART i p 4 0)) hws)) = framed p
  /\ sent_packets_cnt (state (fst (run_uart (fst (pkttransfer_send OVER_UART i p 4 0)) hws))) = 1.
Proof.
  intros i p hws.
  assert (Hr : reachable OVER_UART (test_config 8) i)
    by (apply reach_init, test_config_ok; lia).
  assert (Hp : Forall is_u8 p).
  { repeat (apply List.Forall_cons; [unfold is_u8; lia|]). apply List.Forall_nil. }
  assert (Ha : snd (pkttransfer_send OVER_UART i p (Z.of_nat (length p)) 0) = PKTTRANSFER_ERR_OK)
    by reflexivity.
  assert (Ht : (2 * length p + 6 <= uart_avail_count hws)%nat) by (cbn; lia).
  split; [exact Hr|]. split; [exact Hp|]. split; [exact Ha|]. split; [exact Ht|].
  destruct (uart_drain_bound (test_config 8) i p 0 hws Hr Hp Ha Ht) as (H1 & _ & _ & _ & _ & H6).
  split; [exact H1 | exact H6].
Defined.

(** X5. UART build: once a submit is accepted, every further submit is
    rejected with [TxOverflow] as long as fewer bytes than the whole frame
    have been handed to the hardware, and a submit of an admissible size is
    accepted again as soon as the closing delimiter has been handed over. *)
Theorem send_busy_until_drained (c : pkttransfer_config_t) (i : pkttransfer_t)
    (p q : list Z) (size id id' : Z) (hws : list hw_uart_in)
    (Hreach : reachable OVER_UART c i) (Hbytes : Forall is_u8 p)
    (Haccepted : snd (pkttransfer_send OVER_UART i p (Z.of_nat (length p)) id)
                 = PKTTRANSFER_ERR_OK) :
  snd (pkttransfer_send OVER_UART
         (fst (run_uart (fst (pkttransfer_send OVER_UART i p (Z.of_nat (length p)) id)) hws))
         q size id') = PKTTRANSFER_ERR_TX_OVF
  <-> (payload_size_max c < size \/ (uart_avail_count hws < length (framed p))%nat).
Proof.
  pose proof (reachable_inv _ c i Hreach) as Hinv.
  destruct (send_pending OVER_UART c i p id Hinv Hbytes Haccepted) as (Hp & Hr & _).
  destruct (run_uart_wire hws _ (or_intror Hr)) as (_ & H2 & _).
  rewrite Hp in H2.
  assert (Hinv' : inv c (fst (run_uart (fst (pkttransfer_send OVER_UART i p
                                                              (Z.of_nat (length p)) id)) hws))).
  { apply run_uart_inv, send_inv; [exact Hinv|].
    split; [|lia].
    rewrite send_result in Haccepted.
    destruct (_ <? _) eqn:E; [discriminate|]. apply Z.ltb_ge in E.
    destruct Hinv as ((Hc & Hpm & _) & _). destruct Hc as (_ & Hc2 & _).
    unfold is_usize, PKTTRANSFER_FRAME_CRC_SIZE in *. lia. }
  set (i' := fst (run_uart _ hws)) in *.
  assert (Hidle : tx_size (state i') = 0 <-> (length (framed p) <= uart_avail_count hws)%nat).
  { rewrite <- pending_nil, H2. split; intros H.
    - apply (f_equal length) in H. rewrite length_drop in H. cbn [length] in H. lia.
    - apply drop_ge. exact H. }
  destruct Hinv' as ((_ & Hpm & _) & _).
  rewrite send_result, Hpm.
  destruct (_ <? _) eqn:E1; destruct (tx_size (state i') =? 0) eqn:E2; zbool; cbn [orb negb];
    split; intros H; try reflexivity; try discriminate; try lia; auto;
    try (right; lia); try (destruct H as [H | H]; [lia|]; apply Hidle in E2; lia).
Qed.

Lemma send_busy_until_drained_witness :
  let i := pkttransfer_init (test_config 8) in
  let p := [0x00] in
  reachable OVER_UART (test_config 8) i
  /\ Forall is_u8 p
  /\ snd (pkttransfer_send OVER_UART i p 1 0) = PKTTRANSFER_ERR_OK
  /\ snd (pkttransfer_send OVER_UART
            (fst (run_uart (fst (pkttransfer_send OVER_UART i p 1 0)) (replicate 4 avail_uart)))
            [0x01] 1 0) = PKTTRANSFER_ERR_TX_OVF.
Proof.
  intros i p.
  assert (Hr : reachable OVER_UART (test_config 8) i)
    by (apply reach_init, test_config_ok; lia).
  assert (Hp : Forall is_u8 p).
  { repeat (apply List.Forall_cons; [unfold is_u8; lia|]). apply List.Forall_nil. }
  assert (Ha : snd (pkttransfer_send OVER_UART i p (Z.of_nat (length p)) 0) = PKTTRANSFER_ERR_OK)
    by reflexivity.
  split; [exact Hr|]. split; [exact Hp|]. split; [exact Ha|].
  apply (send_busy_until_drained (test_config 8) i p [0x01] 1 0 0 (replicate 4 avail_uart)
           Hr Hp Ha).
  right. vm_compute. lia.
Defined.

(** ** CAN messages *)

Lemma chunks_aux_fuel n : forall f1 f2 l,
  n <> O -> (length l <= f1)%nat -> (length l <= f2)%nat ->
  chunks_aux n f1 l = chunks_aux n f2 l.
Proof.
  induction f1 as [|f1 IH]; intros f2 l Hn H1 H2.
  - destruct l; [|cbn in H1; lia]. destruct f2; reflexivity.
  - destruct l as [|x l]; [destruct f2; reflexivity|].
    destruct f2 as [|f2]; [cbn in H2; lia|].
    cbn [chunks_aux]. f_equal.
    cbn [length] in H1, H2.
    apply IH; [exact Hn | |]; rewrite length_drop; cbn [length]; lia.
Qed.

Lemma chunks_aux_concat n : forall f l,
  n <> O -> (length l <= f)%nat -> List.concat (chunks_aux n f l) = l.
Proof.
  induction f as [|f IH]; intros l Hn Hl.
  - destruct l; [reflexivity | cbn in Hl; lia].
  - destruct l as [|x l]; [reflexivity|].
    cbn [chunks_aux List.concat]. rewrite IH; [apply take_drop | exact Hn |].
    rewrite length_drop. cbn [length] in *. lia.
Qed.

Lemma prepare_byte_can_id i :
  can_id_tx (state (fst (pkttransfer_prepare_byte i))) = can_id_tx (state i).
Proof.
  unfold pkttransfer_prepare_byte.
  destruct (sent_size (state i) =? tx_size (state i)); [reflexivity|].
  destruct (tx_state (state i)); try reflexivity.
  destruct (_ || _); reflexivity.
Qed.

(** The transmit loop of the CAN task takes the first [n] pending bytes, or
    all of them when fewer are left. *)
Lemma can_prepare_bytes_take n : forall i,
  tx_ready i -> tx_size (state i) <> 0 -> n <> O ->
  snd (can_prepare_bytes n i) = take n (pending i)
  /\ pending (fst (can_prepare_bytes n i)) = drop n (pending i)
  /\ tx_next (fst (can_prepare_bytes n i))
  /\ can_id_tx (state (fst (can_prepare_bytes n i))) = can_id_tx (state i).
Proof.
  induction n as [|n IH]; intros i Hr Hn Hnz; [contradiction|].
  cbn [can_prepare_bytes].
  destruct (prepare_byte_pending i Hr Hn) as [Hp Hnext].
  pose proof (prepare_byte_can_id i) as Hid.
  destruct (pkttransfer_prepare_byte i) as [i1 byte]. cbn [fst snd] in Hp, Hnext, Hid.
  unfold pkttransfer_bytes_for_sending. rewrite Hp, take_S_cons. cbn [drop].
  destruct (tx_size (state i1) =? 0) eqn:E1; cbn [negb fst snd].
  - apply Z.eqb_eq in E1. rewrite (proj2 (pending_nil i1) E1), take_nil, drop_nil. auto.
  - apply Z.eqb_neq in E1. destruct Hnext as [H0 | Hr1]; [contradiction|].
    destruct n as [|n'].
    + cbn [can_prepare_bytes fst snd]. rewrite take_0, drop_0.
      split; [reflexivity|]. split; [reflexivity|]. split; [right; exact Hr1 | exact Hid].
    + destruct (IH i1 Hr1 E1 ltac:(discriminate)) as (H1 & H2 & H3 & H4).
      destruct (can_prepare_bytes (S n') i1) as [i2 bytes]. cbn [fst snd] in *.
      rewrite H1, H2, H4. auto.
Qed.

Lemma can_msgs_app evs1 evs2 : can_msgs (evs1 ++ evs2) = can_msgs evs1 ++ can_msgs evs2.
Proof. unfold can_msgs. apply flat_map_app. Qed.

Lemma process_frame_can_msgs i : can_msgs (snd (pkttransfer_process_frame i)) = [].
Proof. destruct (process_frame_spec i) as [-> | (_ & _ & ->)]; reflexivity. Qed.

Lemma process_byte_can_msgs i byte : can_msgs (snd (pkttransfer_process_byte i byte)) = [].
Proof.
  unfold pkttransfer_process_byte.
  destruct (rx_state (state i)).
  - destruct (byte =? _); reflexivity.
  - destruct (byte =? PKTTRANSFER_FRAME_ESCAPE_BYTE); [reflexivity|].
    destruct (byte =? PKTTRANSFER_FRAME_DELIMITER_BYTE).
    + pose proof (process_frame_can_msgs i) as H.
      destruct (pkttransfer_process_frame i) as [i1 evs]. exact H.
    + destruct (_ <=? _); reflexivity.
  - destruct (_ || _); reflexivity.
Qed.

Lemma process_bytes_can_msgs bytes : forall i, can_msgs (snd (process_bytes i bytes)) = [].
Proof.
  induction bytes as [|byte rest IH]; intros i; [reflexivity|].
  cbn [process_bytes].
  pose proof (process_byte_can_msgs i byte) as H1.
  destruct (pkttransfer_process_byte i byte) as [i1 evs1]. cbn [snd] in H1.
  specialize (IH i1). destruct (process_bytes i1 rest) as [i2 evs2]. cbn [snd] in *.
  rewrite can_msgs_app, H1, IH. reflexivity.
Qed.

Lemma tx_view_can_id i j : tx_view i = tx_view j -> can_id_tx (state i) = can_id_tx (state j).
Proof. unfold tx_view. intros H. injection H as _ _ _ _ _ _ H. exact H. Qed.

(** One CAN task with the hardware ready sends one message: the next slice
    of the pending bytes. *)
Lemma task_can_msg i hw :
  tx_ready i -> tx_size (state i) <> 0 -> can_tx_is_avail hw = true ->
  can_msgs (snd (pkttransfer_task_can i hw))
  = [(take PKTTRANSFER_CAN_MGS_SIZE (pending i),
      Z.of_nat (length (take PKTTRANSFER_CAN_MGS_SIZE (pending i))),
      can_id_tx (state i))]
  /\ pending (fst (pkttransfer_task_can i hw)) = drop PKTTRANSFER_CAN_MGS_SIZE (pending i)
  /\ tx_next (fst (pkttransfer_task_can i hw))
  /\ can_id_tx (state (fst (pkttransfer_task_can i hw))) = can_id_tx (state i).
Proof.
  intros Hr Hn Ha. unfold pkttransfer_task_can, pkttransfer_bytes_for_sending.
  rewrite Ha. destruct (tx_size (state i) =? 0) eqn:E0; [apply Z.eqb_eq in E0; contradiction|].
  cbn [negb].
  destruct (can_prepare_bytes_take PKTTRANSFER_CAN_MGS_SIZE i Hr Hn ltac:(discriminate))
    as (H1 & H2 & H3 & H4).
  destruct (can_prepare_bytes PKTTRANSFER_CAN_MGS_SIZE i) as [i1 bytes].
  cbn [fst snd] in H1, H2, H3, H4. subst bytes. rewrite H4.
  destruct (can_rx_is_ready hw).
  - destruct (process_bytes_tx (can_rx hw) i1) as [Hv _].
    pose proof (process_bytes_can_msgs (can_rx hw) i1) as Hm.
    destruct (process_bytes i1 (can_rx hw)) as [i2 evs]. cbn [fst snd] in *.
    rewrite can_msgs_app. unfold can_msgs at 1 2. cbn [flat_map can_msg_of app].
    fold (can_msgs evs). rewrite Hm, (pending_view i2 i1 Hv), (tx_view_can_id i2 i1 Hv).
    split; [reflexivity|]. split; [exact H2|].
    split; [apply (tx_next_view i1 i2); [symmetry; exact Hv | exact H3] | exact H4].
  - cbn [fst snd]. rewrite app_nil_r. unfold can_msgs. cbn [flat_map can_msg_of app]. auto.
Qed.

(** The messages of the CAN pump are the consecutive slices of the pending
    bytes, one per task invocation. *)
Lemma pump_can_msgs hws : forall i,
  tx_next i -> Forall (fun hw => can_tx_is_avail hw = true) hws ->
  can_msgs (snd (pump_can i hws))
  = map (fun data => (data, Z.of_nat (length data), can_id_tx (state i)))
        (chunks_aux PKTTRANSFER_CAN_MGS_SIZE (length hws) (pending i)).
Proof.
  induction hws as [|hw rest IH]; intros i Hnext Hav; [reflexivity|].
  cbn [pump_can length chunks_aux].
  destruct (tx_size (state i) =? 0) eqn:E0.
  - apply Z.eqb_eq in E0. rewrite (proj2 (pending_nil i) E0). reflexivity.
  - apply Z.eqb_neq in E0. destruct Hnext as [H0 | Hr]; [contradiction|].
    inversion Hav as [|? ? Ha Hav']; subst.
    destruct (task_can_msg i hw Hr E0 Ha) as (H1 & H2 & H3 & H4).
    destruct (pkttransfer_task_can i hw) as [i1 evs1]. cbn [fst snd] in *.
    specialize (IH i1 H3 Hav').
    destruct (pump_can i1 rest) as [i2 evs2]. cbn [fst snd] in *.
    rewrite can_msgs_app, H1, IH, H2, H4.
    destruct (pending i) as [|x l] eqn:Ep; [apply pending_nil in Ep; contradiction|].
    reflexivity.
Qed.

(** X6. CAN build: after an accepted submit of [p] with identifier
    [can_id_tx], the task pump with the hardware ready to send calls [tx_cb]
    once per invocation, with the consecutive 8-byte slices of the frame of
    [p] (the last one shorter when the frame length is no multiple of 8), the
    size passed being the length of the slice and the identifier always the
    submitted one; the slices joined give back the frame. *)
Theorem can_messages (c : pkttransfer_config_t) (i : pkttransfer_t) (p : list Z) (id : Z)
    (hws : list hw_can_in)
    (Hreach : reachable OVER_CAN c i) (Hbytes : Forall is_u8 p)
    (Haccepted : snd (pkttransfer_send OVER_CAN i p (Z.of_nat (length p)) id)
                 = PKTTRANSFER_ERR_OK)
    (Havail : Forall (fun hw => can_tx_is_avail hw = true) hws)
    (Hticks : (length (framed p) <= length hws)%nat) :
  can_msgs (snd (pump_can (fst (pkttransfer_send OVER_CAN i p (Z.of_nat (length p)) id)) hws))
  = map (fun data => (data, Z.of_nat (length data), u32 id))
        (chunks PKTTRANSFER_CAN_MGS_SIZE (framed p))
  /\ List.concat (chunks PKTTRANSFER_CAN_MGS_SIZE (framed p)) = framed p.
Proof.
  pose proof (reachable_inv _ c i Hreach) as Hinv.
  destruct (send_pending OVER_CAN c i p id Hinv Hbytes Haccepted) as (Hp & Hr & _).
  split.
  - rewrite (pump_can_msgs hws _ (or_intror Hr) Havail), Hp.
    rewrite send_result in Haccepted.
    destruct (_ <? _) eqn:E1; [discriminate|].
    destruct (tx_size (state i) =? 0) eqn:E2; [|discriminate]. zbool.
    destruct (send_accepted OVER_CAN i p (Z.of_nat (length p)) id E1 E2)
      as (_ & _ & _ & _ & _ & _ & _ & _ & _ & Hid).
    rewrite Hid. unfold chunks.
    rewrite (chunks_aux_fuel PKTTRANSFER_CAN_MGS_SIZE (length hws) (length (framed p)));
      [reflexivity | discriminate | exact Hticks | lia].
  - unfold chunks. apply chunks_aux_concat; [discriminate | lia].
Qed.

Lemma can_messages_witness :
  let i := pkttransfer_init (test_config 512) in
  let hws := replicate 13 avail_can in
  reachable OVER_CAN (test_config 512) i
  /\ Forall is_u8 can_payload
  /\ snd (pkttransfer_send OVER_CAN i can_payload 9 1) = PKTTRANSFER_ERR_OK
  /\ can_msgs (snd (pump_can (fst (pkttransfer_send OVER_CAN i can_payload 9 1)) hws))
     = [([0x7E;0x31;0x32;0x33;0x34;0x35;0x36;0x37], 8, 1); ([0x38;0x39;0x6E;0x90;0x7E], 5, 1)].
Proof.
  intros i hws.
  assert (Hr : reachable OVER_CAN (test_config 512) i)
    by (apply reach_init, test_config_ok; lia).
  assert (Hp : Forall is_u8 can_payload).
  { repeat (apply List.Forall_cons; [unfold is_u8; lia|]). apply List.Forall_nil. }
  assert (Ha : snd (pkttransfer_send OVER_CAN i can_payload (Z.of_nat (length can_payload)) 1)
               = PKTTRANSFER_ERR_OK) by reflexivity.
  assert (Hav : Forall (fun hw => can_tx_is_avail hw = true) hws).
  { repeat (apply List.Forall_cons; [reflexivity|]). apply List.Forall_nil. }
  assert (Ht : (length (framed can_payload) <= length hws)%nat) by (vm_compute; lia).
  split; [exact Hr|]. split; [exact Hp|]. split; [exact Ha|].
  pose proof (proj1 (can_messages (test_config 512) i can_payload 1 hws Hr Hp Ha Hav Ht)) as H.
  change (Z.of_nat (length can_payload)) with 9 in H. rewrite H.
  vm_compute. reflexivity.
Defined.

(** ** Reception is independent of transmission and of chunking *)

Lemma delivered_app evs1 evs2 : delivered (evs1 ++ evs2) = delivered evs1 ++ delivered evs2.
Proof. unfold delivered. apply flat_map_app. Qed.

Lemma process_frame_rx_view i j :
  rx_view i = rx_view j ->
  snd (pkttransfer_process_frame i) = snd (pkttransfer_process_frame j)
  /\ rx_view (fst (pkttransfer_process_frame i)) = rx_view (fst (pkttransfer_process_frame j)).
Proof.
  unfold rx_view. intros H. injection H as Hst Hsz Hsof Hcnt Hbuf Hpm.
  unfold pkttransfer_process_frame. rewrite Hsz, Hbuf, Hcnt.
  destruct (rx_size (state j) <=? PKTTRANSFER_FRAME_CRC_SIZE).
  - cbn [fst snd]. split; [reflexivity|]. congruence.
  - destruct (negb _); cbn [fst snd with_state state config set_received_packets_cnt
                              rx_state rx_size sof_detections_cnt received_packets_cnt].
    + split; [reflexivity|]. congruence.
    + split; [reflexivity|]. congruence.
Qed.

Lemma process_byte_rx_view i j byte :
  rx_view i = rx_view j ->
  snd (pkttransfer_process_byte i byte) = snd (pkttransfer_process_byte j byte)
  /\ rx_view (fst (pkttransfer_process_byte i byte))
     = rx_view (fst (pkttransfer_process_byte j byte)).
Proof.
  intros H. pose proof (process_frame_rx_view i j H) as [Hf1 Hf2].
  unfold rx_view in H, Hf2. injection H as Hst Hsz Hsof Hcnt Hbuf Hpm.
  unfold pkttransfer_process_byte. rewrite Hst, Hsz, Hpm, Hbuf.
  destruct (rx_state (state j)) eqn:Ej.
  - destruct (byte =? _); cbn; (split; [reflexivity|]); unfold rx_view; cbn; congruence.
  - destruct (byte =? PKTTRANSFER_FRAME_ESCAPE_BYTE).
    { cbn. split; [reflexivity|]. unfold rx_view. cbn. congruence. }
    destruct (byte =? PKTTRANSFER_FRAME_DELIMITER_BYTE).
    { destruct (pkttransfer_process_frame i) as [i1 e1].
      destruct (pkttransfer_process_frame j) as [j1 e2]. cbn [fst snd] in *.
      injection Hf2 as G1 G2 G3 G4 G5 G6.
      split; [exact Hf1|]. unfold rx_view. cbn. congruence. }
    destruct (_ <=? _); cbn; (split; [reflexivity|]); unfold rx_view; cbn; congruence.
  - destruct (_ || _); cbn; (split; [reflexivity|]); unfold rx_view; cbn; congruence.
Qed.

Lemma process_bytes_rx_view bytes : forall i j,
  rx_view i = rx_view j ->
  snd (process_bytes i bytes) = snd (process_bytes j bytes)
  /\ rx_view (fst (process_bytes i bytes)) = rx_view (fst (process_bytes j bytes)).
Proof.
  induction bytes as [|byte rest IH]; intros i j H; [split; [reflexivity | exact H]|].
  cbn [process_bytes].
  destruct (process_byte_rx_view i j byte H) as [H1 H2].
  destruct (pkttransfer_process_byte i byte) as [i1 e1].
  destruct (pkttransfer_process_byte j byte) as [j1 e2]. cbn [fst snd] in *.
  destruct (IH i1 j1 H2) as [H3 H4].
  destruct (process_bytes i1 rest) as [i2 e3].
  destruct (process_bytes j1 rest) as [j2 e4]. cbn [fst snd] in *.
  split; [congruence | exact H4].
Qed.

Lemma prepare_byte_rx_view i : rx_view (fst (pkttransfer_prepare_byte i)) = rx_view i.
Proof.
  unfold pkttransfer_prepare_byte.
  destruct (sent_size (state i) =? tx_size (state i)); [reflexivity|].
  destruct (tx_state (state i)); try reflexivity.
  destruct (_ || _); reflexivity.
Qed.

Lemma can_prepare_bytes_rx_view n : forall i, rx_view (fst (can_prepare_bytes n i)) = rx_view i.
Proof.
  induction n as [|n IH]; intros i; [reflexivity|].
  cbn [can_prepare_bytes].
  pose proof (prepare_byte_rx_view i) as H1.
  destruct (pkttransfer_prepare_byte i) as [i1 byte]. cbn [fst] in H1.
  destruct (negb _); [exact H1|].
  specialize (IH i1). destruct (can_prepare_bytes n i1). cbn [fst] in *. congruence.
Qed.

(** One UART task, seen from the receive side. *)
Lemma task_uart_rx_side i j hw :
  rx_view i = rx_view j ->
  delivered (snd (pkttransfer_task_uart i hw))
  = delivered (snd (process_bytes j (if uart_rx_is_ready hw then [uart_rx hw] else [])))
  /\ rx_view (fst (pkttransfer_task_uart i hw))
     = rx_view (fst (process_bytes j (if uart_rx_is_ready hw then [uart_rx hw] else []))).
Proof.
  intros H. unfold pkttransfer_task_uart.
  set (tx := if pkttransfer_bytes_for_sending i then _ else _).
  assert (Htx : delivered (snd tx) = [] /\ rx_view (fst tx) = rx_view i).
  { subst tx. destruct (pkttransfer_bytes_for_sending i); [|split; reflexivity].
    destruct (uart_tx_is_avail hw); [|split; reflexivity].
    pose proof (prepare_byte_rx_view i) as Hp.
    destruct (pkttransfer_prepare_byte i). split; [reflexivity | exact Hp]. }
  destruct tx as [i1 evs_tx]. cbn [fst snd] in Htx. destruct Htx as [Hd Hv].
  destruct (uart_rx_is_ready hw).
  - cbn [process_bytes].
    destruct (process_byte_rx_view i1 j (uart_rx hw)) as [H1 H2]; [congruence|].
    destruct (pkttransfer_process_byte i1 (uart_rx hw)) as [i2 e1].
    destruct (pkttransfer_process_byte j (uart_rx hw)) as [j2 e2]. cbn [fst snd] in *.
    rewrite delivered_app, Hd, app_nil_r, H1. auto.
  - cbn [process_bytes fst snd]. rewrite app_nil_r. split; [exact Hd | congruence].
Qed.

(** X7. UART build: what is delivered to the application by any sequence of
    task invocations is what the decoder makes of the received bytes alone:
    it does not depend on the frame being transmitted meanwhile, nor on
    whether the hardware is ready to send. *)
Theorem uart_rx_deliveries (i : pkttransfer_t) (hws : list hw_uart_in) :
  delivered (snd (run_uart i hws)) = delivered (snd (process_bytes i (uart_rx_bytes hws))).
Proof.
  enough (H : forall i j, rx_view i = rx_view j ->
            delivered (snd (run_uart i hws))
            = delivered (snd (process_bytes j (uart_rx_bytes hws)))) by (apply H; reflexivity).
  clear i. induction hws as [|hw rest IH]; intros i j Hv; [reflexivity|].
  cbn [run_uart]. unfold uart_rx_bytes. cbn [flat_map]. fold (uart_rx_bytes rest).
  rewrite process_bytes_app.
  destruct (task_uart_rx_side i j hw Hv) as [H1 H2].
  destruct (pkttransfer_task_uart i hw) as [i1 e1].
  destruct (process_bytes j (if uart_rx_is_ready hw then [uart_rx hw] else [])) as [j1 e2].
  cbn [fst snd] in *.
  specialize (IH i1 j1 H2).
  destruct (run_uart i1 rest) as [i2 e3].
  destruct (process_bytes j1 (uart_rx_bytes rest)) as [j2 e4]. cbn [fst snd] in *.
  rewrite !delivered_app, H1, IH. reflexivity.
Qed.

Lemma task_can_rx_side i j hw :
  rx_view i = rx_view j ->
  delivered (snd (pkttransfer_task_can i hw))
  = delivered (snd (process_bytes j (if can_rx_is_ready hw then can_rx hw else [])))
  /\ rx_view (fst (pkttransfer_task_can i hw))
     = rx_view (fst (process_bytes j (if can_rx_is_ready hw then can_rx hw else []))).
Proof.
  intros H. unfold pkttransfer_task_can.
  set (tx := if pkttransfer_bytes_for_sending i then _ else _).
  assert (Htx : delivered (snd tx) = [] /\ rx_view (fst tx) = rx_view i).
  { subst tx. destruct (pkttransfer_bytes_for_sending i); [|split; reflexivity].
    destruct (can_tx_is_avail hw); [|split; reflexivity].
    pose proof (can_prepare_bytes_rx_view PKTTRANSFER_CAN_MGS_SIZE i) as Hp.
    destruct (can_prepare_bytes PKTTRANSFER_CAN_MGS_SIZE i). split; [reflexivity | exact Hp]. }
  destruct tx as [i1 evs_tx]. cbn [fst snd] in Htx. destruct Htx as [Hd Hv].
  destruct (can_rx_is_ready hw).
  - destruct (process_bytes_rx_view (can_rx hw) i1 j) as [H1 H2]; [congruence|].
    destruct (process_bytes i1 (can_rx hw)) as [i2 e1].
    destruct (process_bytes j (can_rx hw)) as [j2 e2]. cbn [fst snd] in *.
    rewrite delivered_app, Hd, H1. auto.
  - cbn [process_bytes fst snd]. rewrite app_nil_r. split; [exact Hd | congruence].
Qed.

(** X8. CAN build: what is delivered to the application depends only on
    the concatenation of the received message payloads: however the same
    byte stream is cut into CAN messages, and whatever is transmitted
    meanwhile, the deliveries are those of the decoder fed the bytes one
    after the other. *)
Theorem can_rx_deliveries (i : pkttransfer_t) (hws : list hw_can_in) :
  delivered (snd (run_can i hws)) = delivered (snd (process_bytes i (can_rx_bytes hws))).
Proof.
  enough (H : forall i j, rx_view i = rx_view j ->
            delivered (snd (run_can i hws))
            = delivered (snd (process_bytes j (can_rx_bytes hws)))) by (apply H; reflexivity).
  clear i. induction hws as [|hw rest IH]; intros i j Hv; [reflexivity|].
  cbn [run_can]. unfold can_rx_bytes. cbn [flat_map]. fold (can_rx_bytes rest).
  rewrite process_bytes_app.
  destruct (task_can_rx_side i j hw Hv) as [H1 H2].
  destruct (pkttransfer_task_can i hw) as [i1 e1].
  destruct (process_bytes j (if can_rx_is_ready hw then can_rx hw else [])) as [j1 e2].
  cbn [fst snd] in *.
  specialize (IH i1 j1 H2).
  destruct (run_can i1 rest) as [i2 e3].
  destruct (process_bytes j1 (can_rx_bytes rest)) as [j2 e4]. cbn [fst snd] in *.
  rewrite !delivered_app, H1, IH. reflexivity.
Qed.

(** ** The decoder between frames *)

Lemma rx_phase_ok_view i j : rx_view i = rx_view j -> rx_phase_ok i -> rx_phase_ok j.
Proof.
  unfold rx_view, rx_phase_ok. intros H. injection H as -> -> _ _ _ _. auto.
Qed.

Lemma process_byte_rx_phase i byte :
  rx_phase_ok i -> rx_phase_ok (fst (pkttransfer_process_byte i byte)).
Proof.
  unfold rx_phase_ok, pkttransfer_process_byte. intros H.
  destruct (rx_state (state i)) eqn:Es.
  - destruct (byte =? _); cbn; [discriminate|]. intros _. apply H. reflexivity.
  - destruct (byte =? PKTTRANSFER_FRAME_ESCAPE_BYTE); [cbn; discriminate|].
    destruct (byte =? PKTTRANSFER_FRAME_DELIMITER_BYTE).
    + destruct (pkttransfer_process_frame i). cbn. reflexivity.
    + destruct (_ <=? _); cbn; [reflexivity | discriminate].
  - destruct (_ || _); cbn; [reflexivity | discriminate].
Qed.

Lemma process_bytes_rx_phase bytes : forall i,
  rx_phase_ok i -> rx_phase_ok (fst (process_bytes i bytes)).
Proof.
  induction bytes as [|byte rest IH]; intros i H; [exact H|].
  cbn [process_bytes].
  pose proof (process_byte_rx_phase i byte H) as H1.
  destruct (pkttransfer_process_byte i byte) as [i1 e1]. cbn [fst] in H1.
  specialize (IH i1 H1). destruct (process_bytes i1 rest). exact IH.
Qed.

Lemma send_rx_view b i payload_p size id :
  rx_view (fst (pkttransfer_send b i payload_p size id)) = rx_view i.
Proof.
  unfold pkttransfer_send.
  destruct (_ <? _); [reflexivity|]. destruct (negb _); [reflexivity|].
  destruct b; reflexivity.
Qed.

Lemma step_rx_phase b i o : rx_phase_ok i -> rx_phase_ok (fst (step b i o)).
Proof.
  intros H. destruct o as [payload_p size id | id | hw | hw]; cbn [step fst].
  - apply (rx_phase_ok_view i); [symmetry; apply send_rx_view | exact H].
  - exact H.
  - destruct (task_uart_rx_side i i hw eq_refl) as [_ Hv].
    apply (rx_phase_ok_view _ _ (eq_sym Hv)), process_bytes_rx_phase, H.
  - destruct (task_can_rx_side i i hw eq_refl) as [_ Hv].
    apply (rx_phase_ok_view _ _ (eq_sym Hv)), process_bytes_rx_phase, H.
Qed.

(** X9. In every reachable state, whenever the decoder is outside a frame
    ([rx_state == Delimiter]) nothing is buffered ([rx_size == 0]): every
    frame starts at the beginning of the RX buffer. *)
Theorem rx_idle_empty (b : build) (c : pkttransfer_config_t) (i : pkttransfer_t)
    (Hreach : reachable b c i) :
  rx_state (state i) = PKTTRANSFER_STATE_DELIMITER -> rx_size (state i) = 0.
Proof.
  induction Hreach as [Hc | i o Hr IH Ho].
  - reflexivity.
  - apply step_rx_phase. exact IH.
Qed.

Lemma rx_idle_empty_witness :
  let c := test_config 4 in
  let i := run_ops OVER_UART (pkttransfer_init c)
                   (map (fun byte => OpTaskUart (uart_rx_in byte)) [0x7E;0x01;0x02;0x03;0x7E]) in
  reachable OVER_UART c i
  /\ rx_state (state i) = PKTTRANSFER_STATE_DELIMITER
  /\ rx_size (state i) = 0.
Proof.
  intros c i.
  assert (Hr : reachable OVER_UART c i).
  { apply reachable_run_ops.
    - apply reach_init, test_config_ok; lia.
    - cbn. repeat split. }
  assert (Hs : rx_state (state i) = PKTTRANSFER_STATE_DELIMITER) by reflexivity.
  split; [exact Hr|]. split; [exact Hs|].
  exact (rx_idle_empty OVER_UART c i Hr Hs).
Defined.

Lemma reachable_rx_phase b c i : reachable b c i -> rx_phase_ok i.
Proof.
  induction 1 as [Hc | i o Hr IH Ho]; [intros _; reflexivity|].
  apply step_rx_phase. exact IH.
Qed.

Lemma process_byte_shape i byte :
  payload_size_max (config (fst (pkttransfer_process_byte i byte))) = payload_size_max (config i)
  /\ length (buf_rx_p (config (fst (pkttransfer_process_byte i byte))))
     = length (buf_rx_p (config i)).
Proof.
  destruct (process_byte_write i byte) as (Hp & [-> | (v & _ & ->)]).
  - auto.
  - rewrite wr_length. auto.
Qed.

Lemma frame_open_idle pm len cnt j :
  rx_idle pm len cnt j ->
  snd (pkttransfer_process_byte j 0x7E) = []
  /\ buffered PKTTRANSFER_STATE_BYTE pm len cnt [] (fst (pkttransfer_process_byte j 0x7E)).
Proof.
  intros (Hst & Hsz & Hlen & Hpm & Hcnt).
  unfold pkttransfer_process_byte. rewrite Hst. cbn [Z.eqb Pos.eqb PKTTRANSFER_FRAME_DELIMITER_BYTE].
  cbn [fst snd]. split; [reflexivity|].
  unfold buffered. cbn. auto 10.
Qed.

(** A well-formed frame after noise, from the idle decoder: one delivery,
    and the decoder is idle again. *)
Lemma decode_frame pm len cnt j noise p :
  rx_idle pm len cnt j -> is_usize pm -> pm <= Z.of_nat len ->
  Forall (fun byte => byte <> 0x7E) noise -> Forall is_u8 p ->
  1 <= Z.of_nat (length p) <= pm - 2 ->
  snd (process_bytes j (noise ++ framed p)) = [EvAppPkt p (Z.of_nat (length p))]
  /\ rx_idle pm len (u32 (cnt + 1)) (fst (process_bytes j (noise ++ framed p))).
Proof.
  intros Hidle Hu Hle Hnoise Hp Hlen.
  rewrite process_bytes_app.
  rewrite (process_bytes_ignored noise j (proj1 Hidle) Hnoise).
  unfold framed.
  change (0x7E :: stuffed (p ++ [crc_lo p; crc_hi p]) ++ [0x7E])
    with ([0x7E] ++ stuffed (p ++ [crc_lo p; crc_hi p]) ++ [0x7E]).
  rewrite process_bytes_app. cbn [process_bytes].
  destruct (frame_open_idle pm len cnt j Hidle) as [He0 Hb0].
  destruct (pkttransfer_process_byte j 0x7E) as [j0 e0]. cbn [fst snd] in He0, Hb0. subst e0.
  rewrite process_bytes_app.
  assert (Hbody : Forall is_u8 (p ++ [crc_lo p; crc_hi p])).
  { apply Forall_app. split; [exact Hp|].
    pose proof (crc16_x25_range p Hp) as Hr.
    apply List.Forall_cons; [apply crc_lo_u8|].
    apply List.Forall_cons; [apply crc_hi_u8, Hr | apply List.Forall_nil]. }
  destruct (decode_stuffed pm len cnt (p ++ [crc_lo p; crc_hi p]) [] j0 Hb0) as [He1 Hb1]; auto.
  { rewrite length_app. cbn [length]. lia. }
  destruct (process_bytes j0 (stuffed (p ++ [crc_lo p; crc_hi p]))) as [j1 e1].
  cbn [fst snd app] in He1, Hb1. subst e1.
  cbn [process_bytes].
  destruct (frame_close pm len cnt p j1 Hb1) as (Hev & Hst & Hsz & Hcnt); [lia | exact Hp |].
  destruct (process_byte_shape j1 0x7E) as [Hpm' Hlen'].
  destruct Hb1 as (_ & _ & _ & Hl1 & Hp1 & _).
  destruct (pkttransfer_process_byte j1 0x7E) as [j2 e2]. cbn [fst snd app] in *.
  rewrite app_nil_r. split; [exact Hev|].
  unfold rx_idle. rewrite Hpm', Hlen'. auto 10.
Qed.

(** A stream of well-formed frames from the idle decoder. *)
Lemma decode_frames pm len frames : forall cnt j,
  rx_idle pm len cnt j -> is_usize pm -> pm <= Z.of_nat len ->
  Forall (frame_ok pm) frames ->
  snd (process_bytes j (stream_of frames))
  = map (fun f => EvAppPkt (snd f) (Z.of_nat (length (snd f)))) frames
  /\ exists cnt', rx_idle pm len cnt' (fst (process_bytes j (stream_of frames))).
Proof.
  induction frames as [|[noise p] rest IH]; intros cnt j Hidle Hu Hle Hok.
  - cbn. eauto.
  - inversion Hok as [|? ? (Hn & Hp & Hl) Hrest]; subst. cbn [fst snd] in *.
    unfold stream_of. cbn [flat_map fst snd map]. fold (stream_of rest).
    rewrite process_bytes_app.
    destruct (decode_frame pm len cnt j noise p Hidle Hu Hle Hn Hp Hl) as [He Hi1].
    destruct (process_bytes j (noise ++ framed p)) as [j1 e1]. cbn [fst snd] in *. subst e1.
    destruct (IH _ j1 Hi1 Hu Hle Hrest) as (He2 & cnt' & Hi2).
    destruct (process_bytes j1 (stream_of rest)) as [j2 e2]. cbn [fst snd] in *.
    subst e2. split; [reflexivity|]. eauto.
Qed.

Lemma reachable_rx_idle b c j :
  reachable b c j -> rx_state (state j) = PKTTRANSFER_STATE_DELIMITER ->
  rx_idle (payload_size_max c) (length (buf_rx_p c)) (received_packets_cnt (state j)) j
  /\ is_usize (payload_size_max c)
  /\ payload_size_max c <= Z.of_nat (length (buf_rx_p c)).
Proof.
  intros Hr Hst.
  pose proof (reachable_rx_phase b c j Hr Hst) as Hsz.
  destruct (reachable_inv b c j Hr) as ((Hc & Hpm & Hlr & _) & _).
  destruct Hc as (Hc1 & Hc2 & Hc3 & _).
  unfold is_usize, PKTTRANSFER_FRAME_CRC_SIZE in *.
  split; [unfold rx_idle; auto 10|]. split; lia.
Qed.

(** X10. Reception of a stream: from any reachable state in which the
    decoder is outside a frame, a stream of frames, each made of a payload of
    1 to [payload_size_max - 2] bytes and each possibly preceded by line
    noise that contains no 0x7E, delivers exactly the payloads, in order and
    once each, and leaves the decoder outside a frame. *)
Theorem decode_stream (c : pkttransfer_config_t) (j : pkttransfer_t)
    (frames : list (list Z * list Z))
    (Hreach : reachable OVER_UART c j)
    (Hidle : rx_state (state j) = PKTTRANSFER_STATE_DELIMITER)
    (Hframes : Forall (frame_ok (payload_size_max c)) frames) :
  snd (run_uart j (map uart_rx_in (stream_of frames)))
  = map (fun f => EvAppPkt (snd f) (Z.of_nat (length (snd f)))) frames
  /\ rx_state (state (fst (run_uart j (map uart_rx_in (stream_of frames)))))
     = PKTTRANSFER_STATE_DELIMITER.
Proof.
  destruct (reachable_rx_idle _ c j Hreach Hidle) as (Hi & Hu & Hle).
  rewrite run_uart_rx.
  destruct (decode_frames _ _ frames _ j Hi Hu Hle Hframes) as (He & cnt' & Hi').
  split; [exact He | apply Hi'].
Qed.

Lemma decode_stream_witness :
  let c := test_config 8 in
  let frames := [([0x55; 0xAA], [0x00]); ([], [0x01;0x7D;0x02;0x7E])] in
  reachable OVER_UART c (pkttransfer_init c)
  /\ rx_state (state (pkttransfer_init c)) = PKTTRANSFER_STATE_DELIMITER
  /\ Forall (frame_ok (payload_size_max c)) frames
  /\ snd (run_uart (pkttransfer_init c) (map uart_rx_in (stream_of frames)))
     = [EvAppPkt [0x00] 1; EvAppPkt [0x01;0x7D;0x02;0x7E] 4].
Proof.
  intros c frames.
  assert (Hr : reachable OVER_UART c (pkttransfer_init c))
    by (apply reach_init, test_config_ok; lia).
  assert (Hs : rx_state (state (pkttransfer_init c)) = PKTTRANSFER_STATE_DELIMITER)
    by reflexivity.
  assert (Hf : Forall (frame_ok (payload_size_max c)) frames).
  { repeat (apply List.Forall_cons;
            [unfold frame_ok; cbn; split; [|split; [|lia]];
             repeat (apply List.Forall_cons; [unfold is_u8; lia|]); apply List.Forall_nil|]).
    apply List.Forall_nil. }
  split; [exact Hr|]. split; [exact Hs|]. split; [exact Hf|].
  exact (proj1 (decode_stream c (pkttransfer_init c) frames Hr Hs Hf)).
Defined.

(** ** Lost synchronisation *)

Lemma process_frame_short i :
  rx_size (state i) <= 2 -> pkttransfer_process_frame i = (i, []).
Proof.
  intros H. unfold pkttransfer_process_frame, PKTTRANSFER_FRAME_CRC_SIZE.
  replace (rx_size (state i) <=? 2) with true by (symmetry; apply Z.leb_le; exact H).
  reflexivity.
Qed.

Lemma process_byte_open j :
  rx_state (state j) = PKTTRANSFER_STATE_DELIMITER ->
  pkttransfer_process_byte j 0x7E = (rx_open j, []).
Proof. intros H. unfold pkttransfer_process_byte. rewrite H. reflexivity. Qed.

Lemma process_byte_close_short j :
  rx_state (state j) = PKTTRANSFER_STATE_BYTE -> rx_size (state j) <= 2 ->
  pkttransfer_process_byte j 0x7E = (rx_drop j, []).
Proof.
  intros H Hs. unfold pkttransfer_process_byte. rewrite H.
  cbn [Z.eqb Pos.eqb PKTTRANSFER_FRAME_ESCAPE_BYTE PKTTRANSFER_FRAME_DELIMITER_BYTE].
  rewrite (process_frame_short j Hs). reflexivity.
Qed.

(** A frame arriving while the decoder is inside an empty frame: its opening
    delimiter closes the empty frame, its body is ignored, its closing
    delimiter opens a new empty frame. *)
Lemma frame_out_of_phase j p :
  rx_state (state j) = PKTTRANSFER_STATE_BYTE -> rx_size (state j) = 0 ->
  process_bytes j (framed p) = (rx_open (rx_drop j), []).
Proof.
  intros Hst Hsz. unfold framed.
  change (0x7E :: stuffed (p ++ [crc_lo p; crc_hi p]) ++ [0x7E])
    with ([0x7E] ++ stuffed (p ++ [crc_lo p; crc_hi p]) ++ [0x7E]).
  rewrite process_bytes_app. cbn [process_bytes].
  rewrite (process_byte_close_short j Hst) by lia.
  rewrite process_bytes_app.
  rewrite (process_bytes_ignored (stuffed _) (rx_drop j)) by
    (auto using stuffed_no_delimiter).
  cbn [process_bytes]. rewrite (process_byte_open (rx_drop j)) by reflexivity.
  reflexivity.
Qed.

(** X11. A stray delimiter desynchronises the decoder for good: from a state
    in which the decoder is inside a frame with nothing buffered (as after a
    single 0x7E), any number of well-formed frames sent back to back delivers
    nothing, since every opening delimiter is taken as a closing one; the
    decoder ends in the same condition. *)
Theorem decode_out_of_phase (j : pkttransfer_t) (payloads : list (list Z))
    (Hst : rx_state (state j) = PKTTRANSFER_STATE_BYTE) (Hsz : rx_size (state j) = 0) :
  snd (run_uart j (map uart_rx_in (flat_map framed payloads))) = []
  /\ rx_state (state (fst (run_uart j (map uart_rx_in (flat_map framed payloads)))))
     = PKTTRANSFER_STATE_BYTE
  /\ rx_size (state (fst (run_uart j (map uart_rx_in (flat_map framed payloads))))) = 0.
Proof.
  rewrite run_uart_rx. revert j Hst Hsz.
  induction payloads as [|p rest IH]; intros j Hst Hsz; [cbn; auto|].
  cbn [flat_map]. rewrite process_bytes_app.
  rewrite (frame_out_of_phase j p Hst Hsz).
  destruct (IH (rx_open (rx_drop j)) eq_refl eq_refl) as (He2 & Hst2 & Hsz2).
  destruct (process_bytes (rx_open (rx_drop j)) (flat_map framed rest)) as [j2 e2].
  cbn [fst snd] in *. subst e2. auto.
Qed.

Lemma decode_out_of_phase_witness :
  let j := fst (run_uart (pkttransfer_init (test_config 8)) [uart_rx_in 0x7E]) in
  rx_state (state j) = PKTTRANSFER_STATE_BYTE
  /\ rx_size (state j) = 0
  /\ snd (run_uart j (map uart_rx_in (flat_map framed [[0x00]; [0x31;0x32;0x33]]))) = [].
Proof.
  intros j.
  assert (H1 : rx_state (state j) = PKTTRANSFER_STATE_BYTE) by reflexivity.
  assert (H2 : rx_size (state j) = 0) by reflexivity.
  split; [exact H1|]. split; [exact H2|].
  exact (proj1 (decode_out_of_phase j [[0x00]; [0x31;0x32;0x33]] H1 H2)).
Defined.

(** X12. Two frames sharing one delimiter: from a reachable state with the
    decoder outside a frame ([rx_state == Delimiter]), when a frame carrying
    a byte payload [p1] of 1 to [payload_size_max - 2] bytes is followed by a
    second frame without its opening delimiter (the closing 0x7E of the first
    being meant as the opening one of the second), only [p1] is delivered;
    the second frame, whatever its payload, causes no callback, and its
    closing delimiter leaves the decoder inside a frame with
    [rx_size == 0]. *)
Theorem shared_delimiter_loses_frame (c : pkttransfer_config_t) (j : pkttransfer_t)
    (p1 p2 : list Z)
    (Hreach : reachable OVER_UART c j)
    (Hidle : rx_state (state j) = PKTTRANSFER_STATE_DELIMITER)
    (Hp1 : Forall is_u8 p1)
    (Hlen : 1 <= Z.of_nat (length p1) <= payload_size_max c - 2) :
  snd (run_uart j (map uart_rx_in (framed p1 ++ tail (framed p2))))
  = [EvAppPkt p1 (Z.of_nat (length p1))]
  /\ rx_state (state (fst (run_uart j (map uart_rx_in (framed p1 ++ tail (framed p2))))))
     = PKTTRANSFER_STATE_BYTE
  /\ rx_size (state (fst (run_uart j (map uart_rx_in (framed p1 ++ tail (framed p2)))))) = 0.
Proof.
  destruct (reachable_rx_idle _ c j Hreach Hidle) as (Hi & Hu & Hle).
  rewrite run_uart_rx, process_bytes_app.
  destruct (decode_frame _ _ _ j [] p1 Hi Hu Hle (List.Forall_nil _) Hp1 Hlen) as [He Hi1].
  cbn [app] in He, Hi1.
  destruct (process_bytes j (framed p1)) as [j1 e1]. cbn [fst snd] in *. subst e1.
  destruct Hi1 as (Hst1 & Hsz1 & _).
  unfold framed at 1 2 3. cbn [tail].
  rewrite process_bytes_app.
  rewrite (process_bytes_ignored (stuffed _) j1 Hst1) by (auto using stuffed_no_delimiter).
  cbn [process_bytes]. rewrite (process_byte_open j1 Hst1).
  cbn [fst snd app rx_open state with_state set_rx rx_state rx_size].
  rewrite Hsz1. auto.
Qed.

Lemma shared_delimiter_loses_frame_witness :
  let c := test_config 8 in
  reachable OVER_UART c (pkttransfer_init c)
  /\ rx_state (state (pkttransfer_init c)) = PKTTRANSFER_STATE_DELIMITER
  /\ Forall is_u8 [0x00]
  /\ 1 <= Z.of_nat (length [0x00]) <= payload_size_max c - 2
  /\ snd (run_uart (pkttransfer_init c)
                   (map uart_rx_in ([0x7E;0x00;0x78;0xF0;0x7E] ++ [0x00;0x78;0xF0;0x7E])))
     = [EvAppPkt [0x00] 1].
Proof.
  intros c.
  assert (Hr : reachable OVER_UART c (pkttransfer_init c))
    by (apply reach_init, test_config_ok; lia).
  assert (Hs : rx_state (state (pkttransfer_init c)) = PKTTRANSFER_STATE_DELIMITER)
    by reflexivity.
  assert (Hp : Forall is_u8 [0x00]).
  { repeat (apply List.Forall_cons; [unfold is_u8; lia|]). apply List.Forall_nil. }
  assert (Hl : 1 <= Z.of_nat (length [0x00]) <= payload_size_max c - 2) by (cbn; lia).
  split; [exact Hr|]. split; [exact Hs|]. split; [exact Hp|]. split; [exact Hl|].
  exact (proj1 (shared_delimiter_loses_frame c (pkttransfer_init c) [0x00] [0x00] Hr Hs Hp Hl)).
Defined.

(** ** Corrupted frames *)

Lemma le16_bytes a b :
  is_u8 a -> is_u8 b -> u16 (Z.lor (Z.shiftl b 8) a) = a + 256 * b.
Proof.
  unfold is_u8. intros Ha Hb.
  assert (Hc : is_u16 (a + 256 * b)) by (unfold is_u16; lia).
  assert (Hlo : Z.land (a + 256 * b) 0xFF = a).
  { change 0xFF with (Z.ones 8). rewrite Z.land_ones by lia.
    symmetry. apply (Z.mod_unique _ _ b); [left; lia | lia]. }
  assert (Hhi : Z.shiftr (a + 256 * b) 8 = b).
  { rewrite Z.shiftr_div_pow2 by lia.
    symmetry. apply (Z.div_unique _ _ b a); [left; lia | lia]. }
  pose proof (le16_crc _ Hc) as H. rewrite Hlo, Hhi in H. exact H.
Qed.

Lemma crc_split c : is_u16 c -> c = Z.land c 0xFF + 256 * Z.shiftr c 8.
Proof.
  unfold is_u16. intros Hc.
  change 0xFF with (Z.ones 8). rewrite Z.land_ones, Z.shiftr_div_pow2 by lia.
  pose proof (Z.div_mod c (2 ^ 8) ltac:(lia)) as H. lia.
Qed.

(** The closing delimiter of a buffered body whose last two bytes are not
    the CRC of the bytes before them. *)
Lemma frame_close_mismatch pm len cnt p a b j :
  buffered PKTTRANSFER_STATE_BYTE pm len cnt (p ++ [a; b]) j ->
  Forall is_u8 p -> is_u8 a -> is_u8 b ->
  a <> crc_lo p \/ b <> crc_hi p ->
  pkttransfer_process_byte j 0x7E = (rx_drop j, []).
Proof.
  intros (Hst & Hsz & Htk & Hlen & Hpm & Hcnt) Hp Ha Hb Hne.
  rewrite length_app in Hsz, Htk. cbn [length] in Hsz, Htk.
  assert (Hlo : rd (buf_rx_p (config j)) (Z.of_nat (length p)) = a).
  { rewrite (rd_take _ (length p + 2)) by lia. rewrite Htk. unfold rd.
    rewrite Nat2Z.id, lookup_app_r by lia.
    replace (length p - length p)%nat with 0%nat by lia. reflexivity. }
  assert (Hhi : rd (buf_rx_p (config j)) (Z.of_nat (length p) + 1) = b).
  { replace (Z.of_nat (length p) + 1) with (Z.of_nat (length p + 1)) by lia.
    rewrite (rd_take _ (length p + 2)) by lia. rewrite Htk. unfold rd.
    rewrite Nat2Z.id, lookup_app_r by lia.
    replace (length p + 1 - length p)%nat with 1%nat by lia. reflexivity. }
  assert (Hpay : take (length p) (buf_rx_p (config j)) = p).
  { replace (length p) with (min (length p) (length p + 2)) at 1 by lia.
    rewrite <- take_take, Htk. apply take_app_length. }
  assert (Hcrc : pkttransfer_crc16 (buf_rx_p (config j)) (Z.of_nat (length p)) = crc16_x25 p).
  { rewrite <- crc16_take by lia. rewrite Nat2Z.id, Hpay. apply crc16_eq_x25, Hp. }
  assert (Hframe : pkttransfer_process_frame j = (j, [])).
  { unfold pkttransfer_process_frame, PKTTRANSFER_FRAME_CRC_SIZE. rewrite Hsz.
    destruct (Z.of_nat (length p + 2) <=? 2); [reflexivity|].
    replace (Z.of_nat (length p + 2) - 1) with (Z.of_nat (length p) + 1) by lia.
    replace (Z.of_nat (length p + 2) - 2) with (Z.of_nat (length p)) by lia.
    rewrite Hlo, Hhi, Hcrc, (le16_bytes a b Ha Hb).
    replace (a + 256 * b =? crc16_x25 p) with false; [reflexivity|].
    symmetry. apply Z.eqb_neq. intros E.
    pose proof (crc_split _ (crc16_x25_range p Hp)) as Hs.
    pose proof (crc_lo_u8 (crc16_x25 p)) as H1.
    pose proof (crc_hi_u8 _ (crc16_x25_range p Hp)) as H2.
    unfold crc_lo, crc_hi, is_u8 in *. lia. }
  unfold pkttransfer_process_byte. rewrite Hst, Hframe. reflexivity.
Qed.

(** X13. A frame with a wrong CRC is discarded silently: from a reachable
    state with the decoder outside a frame ([rx_state == Delimiter]), a
    frame whose body [p ++ [a; b]] has at most [payload_size_max] bytes
    ([|p| + 2 <= payload_size_max]) and whose last two bytes [(a, b)] differ
    from the CRC of [p], low byte first, received stuffed and delimited,
    causes no application callback, leaves [received_packets_cnt] as it was
    and the decoder outside a frame. *)
Theorem bad_crc_discarded (c : pkttransfer_config_t) (j : pkttransfer_t)
    (p : list Z) (a b : Z)
    (Hreach : reachable OVER_UART c j)
    (Hidle : rx_state (state j) = PKTTRANSFER_STATE_DELIMITER)
    (Hp : Forall is_u8 p) (Ha : is_u8 a) (Hb : is_u8 b)
    (Hlen : Z.of_nat (length p) + 2 <= payload_size_max c)
    (Hbad : a <> crc_lo p \/ b <> crc_hi p) :
  let wire_bytes := 0x7E :: stuffed (p ++ [a; b]) ++ [0x7E] in
  snd (run_uart j (map uart_rx_in wire_bytes)) = []
  /\ rx_state (state (fst (run_uart j (map uart_rx_in wire_bytes)))) = PKTTRANSFER_STATE_DELIMITER
  /\ received_packets_cnt (state (fst (run_uart j (map uart_rx_in wire_bytes))))
     = received_packets_cnt (state j).
Proof.
  intros wire_bytes. unfold wire_bytes.
  destruct (reachable_rx_idle _ c j Hreach Hidle) as (Hi & Hu & Hle).
  rewrite run_uart_rx.
  change (0x7E :: stuffed (p ++ [a; b]) ++ [0x7E])
    with ([0x7E] ++ stuffed (p ++ [a; b]) ++ [0x7E]).
  rewrite process_bytes_app. cbn [process_bytes].
  destruct (frame_open_idle _ _ _ j Hi) as [He0 Hb0].
  destruct (pkttransfer_process_byte j 0x7E) as [j0 e0]. cbn [fst snd] in He0, Hb0. subst e0.
  rewrite process_bytes_app.
  assert (Hbody : Forall is_u8 (p ++ [a; b])).
  { apply Forall_app. split; [exact Hp|].
    apply List.Forall_cons; [exact Ha|].
    apply List.Forall_cons; [exact Hb | apply List.Forall_nil]. }
  destruct (decode_stuffed _ _ _ (p ++ [a; b]) [] j0 Hb0) as [He1 Hb1]; auto.
  { rewrite length_app. cbn [length]. lia. }
  destruct (process_bytes j0 (stuffed (p ++ [a; b]))) as [j1 e1].
  cbn [fst snd app] in He1, Hb1. subst e1.
  cbn [process_bytes].
  rewrite (frame_close_mismatch _ _ _ p a b j1 Hb1 Hp Ha Hb Hbad).
  destruct Hb1 as (_ & _ & _ & _ & _ & Hcnt).
  cbn [fst snd app rx_drop state with_state set_rx rx_state received_packets_cnt].
  auto.
Qed.

Lemma bad_crc_discarded_witness :
  let c := test_config 8 in
  reachable OVER_UART c (pkttransfer_init c)
  /\ rx_state (state (pkttransfer_init c)) = PKTTRANSFER_STATE_DELIMITER
  /\ Forall is_u8 [0x00] /\ is_u8 0x78 /\ is_u8 0xF1
  /\ Z.of_nat (length [0x00]) + 2 <= payload_size_max c
  /\ (0x78 <> crc_lo [0x00] \/ 0xF1 <> crc_hi [0x00])
  /\ snd (run_uart (pkttransfer_init c) (map uart_rx_in [0x7E;0x00;0x78;0xF1;0x7E])) = [].
Proof.
  intros c.
  assert (Hr : reachable OVER_UART c (pkttransfer_init c))
    by (apply reach_init, test_config_ok; lia).
  assert (Hs : rx_state (state (pkttransfer_init c)) = PKTTRANSFER_STATE_DELIMITER)
    by reflexivity.
  assert (Hp : Forall is_u8 [0x00]).
  { repeat (apply List.Forall_cons; [unfold is_u8; lia|]). apply List.Forall_nil. }
  assert (Ha : is_u8 0x78) by (unfold is_u8; lia).
  assert (Hb : is_u8 0xF1) by (unfold is_u8; lia).
  assert (Hl : Z.of_nat (length [0x00]) + 2 <= payload_size_max c) by (cbn; lia).
  assert (Hbad : 0x78 <> crc_lo [0x00] \/ 0xF1 <> crc_hi [0x00]).
  { right. vm_compute. discriminate. }
  repeat (split; [assumption|]).
  exact (proj1 (bad_crc_discarded c (pkttransfer_init c) [0x00] 0x78 0xF1 Hr Hs Hp Ha Hb Hl Hbad)).
Defined.

Lemma process_byte_bad_escape j byte :
  rx_state (state j) = PKTTRANSFER_STATE_ENCODED_BYTE ->
  byte <> 0x5E -> byte <> 0x5D ->
  pkttransfer_process_byte j byte = (rx_drop j, []).
Proof.
  intros H H1 H2. unfold pkttransfer_process_byte. rewrite H.
  unfold PKTTRANSFER_FRAME_ENCODED_DELIMITER_BYTE, PKTTRANSFER_FRAME_ENCODED_ESCAPE_BYTE.
  replace (byte =? 0x5E) with false by (symmetry; apply Z.eqb_neq; exact H1).
  replace (byte =? 0x5D) with false by (symmetry; apply Z.eqb_neq; exact H2).
  reflexivity.
Qed.

(** X14. A bad escape sequence costs the frame in progress and nothing
    more: from a reachable state with the decoder inside a frame
    ([rx_state == Byte]), the escape byte 0x7D followed by any byte other
    than 0x5E and 0x5D (0x7E included, which is then no frame boundary) drops
    what was buffered without a delivery and leaves the decoder outside a
    frame with [rx_size == 0]; a frame carrying a byte payload of 1 to
    [payload_size_max - 2] bytes that follows is delivered, as the only
    callback. *)
Theorem bad_escape_resync (c : pkttransfer_config_t) (j : pkttransfer_t)
    (byte : Z) (p : list Z)
    (Hreach : reachable OVER_UART c j)
    (Hin : rx_state (state j) = PKTTRANSFER_STATE_BYTE)
    (Hbad1 : byte <> 0x5E) (Hbad2 : byte <> 0x5D)
    (Hp : Forall is_u8 p)
    (Hlen : 1 <= Z.of_nat (length p) <= payload_size_max c - 2) :
  snd (run_uart j (map uart_rx_in [0x7D; byte])) = []
  /\ rx_state (state (fst (run_uart j (map uart_rx_in [0x7D; byte]))))
     = PKTTRANSFER_STATE_DELIMITER
  /\ rx_size (state (fst (run_uart j (map uart_rx_in [0x7D; byte])))) = 0
  /\ snd (run_uart j (map uart_rx_in ([0x7D; byte] ++ framed p)))
     = [EvAppPkt p (Z.of_nat (length p))].
Proof.
  assert (E : process_bytes j [0x7D; byte] = (rx_drop (rx_escape j), [])).
  { cbn [process_bytes]. rewrite (process_byte_escape j Hin).
    rewrite (process_byte_bad_escape (rx_escape j) byte) by auto. reflexivity. }
  rewrite !run_uart_rx, process_bytes_app, E. cbn [fst snd app].
  split; [reflexivity|]. split; [reflexivity|]. split; [reflexivity|].
  destruct (reachable_inv _ c j Hreach) as ((Hc & Hpm & Hlr & _) & _).
  destruct Hc as (Hc1 & Hc2 & Hc3 & _).
  unfold is_usize, PKTTRANSFER_FRAME_CRC_SIZE in *.
  assert (Hi : rx_idle (payload_size_max c) (length (buf_rx_p c))
                       (received_packets_cnt (state j)) (rx_drop (rx_escape j))).
  { unfold rx_idle. cbn. auto 10. }
  destruct (decode_frame _ _ _ _ [] p Hi) as [He _]; auto;
    [unfold is_usize; lia | lia |].
  cbn [app] in He.
  destruct (process_bytes (rx_drop (rx_escape j)) (framed p)) as [j2 e2].
  cbn [fst snd] in *. exact He.
Qed.

Lemma bad_escape_resync_witness :
  let c := test_config 8 in
  let j := run_ops OVER_UART (pkttransfer_init c)
                   (map (fun byte => OpTaskUart (uart_rx_in byte)) [0x7E; 0x11; 0x22]) in
  reachable OVER_UART c j
  /\ rx_state (state j) = PKTTRANSFER_STATE_BYTE
  /\ 0x7E <> 0x5E /\ 0x7E <> 0x5D
  /\ Forall is_u8 [0x00]
  /\ 1 <= Z.of_nat (length [0x00]) <= payload_size_max c - 2
  /\ snd (run_uart j (map uart_rx_in ([0x7D; 0x7E] ++ [0x7E;0x00;0x78;0xF0;0x7E])))
     = [EvAppPkt [0x00] 1].
Proof.
  intros c j.
  assert (Hr : reachable OVER_UART c j).
  { apply reachable_run_ops.
    - apply reach_init, test_config_ok; lia.
    - cbn. repeat split. }
  assert (Hs : rx_state (state j) = PKTTRANSFER_STATE_BYTE) by reflexivity.
  assert (Hp : Forall is_u8 [0x00]).
  { repeat (apply List.Forall_cons; [unfold is_u8; lia|]). apply List.Forall_nil. }
  assert (Hl : 1 <= Z.of_nat (length [0x00]) <= payload_size_max c - 2) by (cbn; lia).
  assert (H1 : 0x7E <> 0x5E) by lia. assert (H2 : 0x7E <> 0x5D) by lia.
  repeat (split; [assumption|]).
  destruct (bad_escape_resync c j 0x7E [0x00] Hr Hs H1 H2 Hp Hl) as (_ & _ & _ & H).
  exact H.
Defined.

(** ** Counters *)

Lemma u32_succ n : u32 (u32 n + 1) = u32 (n + 1).
Proof. unfold u32. apply Zplus_mod_idemp_l. Qed.

Lemma rx_view_received i j :
  rx_view i = rx_view j -> received_packets_cnt (state i) = received_packets_cnt (state j).
Proof. unfold rx_view. intros H. injection H as _ _ _ H _ _. exact H. Qed.

Lemma process_byte_received i byte n :
  received_packets_cnt (state i) = u32 n ->
  received_packets_cnt (state (fst (pkttransfer_process_byte i byte)))
  = u32 (n + Z.of_nat (length (delivered (snd (pkttransfer_process_byte i byte))))).
Proof.
  intros Hn.
  assert (Hsame : u32 n = u32 (n + Z.of_nat (length (delivered [])))).
  { cbn. rewrite Z.add_0_r. reflexivity. }
  unfold pkttransfer_process_byte.
  destruct (rx_state (state i)).
  - destruct (byte =? _); cbn [fst snd]; rewrite <- Hsame, <- Hn; reflexivity.
  - destruct (byte =? PKTTRANSFER_FRAME_ESCAPE_BYTE);
      [cbn [fst snd]; rewrite <- Hsame, <- Hn; reflexivity|].
    destruct (byte =? PKTTRANSFER_FRAME_DELIMITER_BYTE).
    + destruct (process_frame_spec i) as [-> | (_ & _ & ->)].
      * cbn [fst snd]. rewrite <- Hsame, <- Hn. reflexivity.
      * cbn [fst snd with_state state set_rx set_received_packets_cnt received_packets_cnt].
        rewrite Hn, u32_succ. reflexivity.
    + destruct (_ <=? _); cbn [fst snd]; rewrite <- Hsame, <- Hn; reflexivity.
  - destruct (_ || _); cbn [fst snd]; rewrite <- Hsame, <- Hn; reflexivity.
Qed.

Lemma process_bytes_received bytes : forall i n,
  received_packets_cnt (state i) = u32 n ->
  received_packets_cnt (state (fst (process_bytes i bytes)))
  = u32 (n + Z.of_nat (length (delivered (snd (process_bytes i bytes))))).
Proof.
  induction bytes as [|byte rest IH]; intros i n Hn.
  - cbn. rewrite Z.add_0_r. exact Hn.
  - cbn [process_bytes].
    pose proof (process_byte_received i byte n Hn) as H1.
    destruct (pkttransfer_process_byte i byte) as [i1 e1]. cbn [fst snd] in H1.
    specialize (IH i1 _ H1).
    destruct (process_bytes i1 rest) as [i2 e2]. cbn [fst snd] in *.
    rewrite IH, delivered_app, length_app. f_equal. lia.
Qed.

Lemma step_received b i o n :
  received_packets_cnt (state i) = u32 n ->
  received_packets_cnt (state (fst (step b i o)))
  = u32 (n + Z.of_nat (length (delivered (snd (step b i o))))).
Proof.
  intros Hn. destruct o as [payload_p size id | id | hw | hw]; cbn [step fst snd].
  - rewrite (rx_view_received _ _ (send_rx_view b i payload_p size id)).
    cbn. rewrite Z.add_0_r. exact Hn.
  - cbn. rewrite Z.add_0_r. exact Hn.
  - destruct (task_uart_rx_side i i hw eq_refl) as [Hd Hv].
    rewrite (rx_view_received _ _ Hv), Hd. apply process_bytes_received, Hn.
  - destruct (task_can_rx_side i i hw eq_refl) as [Hd Hv].
    rewrite (rx_view_received _ _ Hv), Hd. apply process_bytes_received, Hn.
Qed.

Lemma run_ops_received b ops : forall i n,
  received_packets_cnt (state i) = u32 n ->
  received_packets_cnt (state (run_ops b i ops))
  = u32 (n + Z.of_nat (length (delivered (trace b i ops)))).
Proof.
  induction ops as [|o rest IH]; intros i n Hn.
  - cbn. rewrite Z.add_0_r. exact Hn.
  - cbn [run_ops trace].
    rewrite (IH _ _ (step_received b i o n Hn)), delivered_app, length_app.
    f_equal. lia.
Qed.

(** X15. [received_packets_cnt] counts the deliveries: after any run of
    submit, set-identifier and task operations on a freshly initialized
    instance, whatever the callbacks return, it equals the number of
    invocations of the application callback made so far, modulo 2^32. *)
Theorem received_packets_cnt_counts (b : build) (c : pkttransfer_config_t) (ops : list op) :
  received_packets_cnt (state (run_ops b (pkttransfer_init c) ops))
  = u32 (Z.of_nat (length (delivered (trace b (pkttransfer_init c) ops)))).
Proof.
  apply (run_ops_received b ops (pkttransfer_init c) 0). reflexivity.
Qed.

Lemma u32_pred_succ a : u32 (u32 (a - 1) + 1) = u32 a.
Proof. rewrite u32_succ. f_equal. lia. Qed.

Lemma sent_ok_view a i j : tx_view i = tx_view j -> sent_ok a i -> sent_ok a j.
Proof.
  unfold tx_view, sent_ok, in_flight. intros H.
  injection H as _ -> _ -> _ _ _. auto.
Qed.

Lemma sent_ok_phase a i i' :
  tx_size (state i) <> 0 -> sent_ok a i -> tx_phase (sent_packets_cnt (state i)) i' ->
  sent_ok a i'.
Proof.
  unfold sent_ok, in_flight. intros Hn Hs Hph.
  destruct (tx_size (state i) =? 0) eqn:E; [apply Z.eqb_eq in E; contradiction|].
  destruct Hph as [(Hn' & Hc) | (H0 & _ & _ & Hc)].
  - destruct (tx_size (state i') =? 0) eqn:E'; [apply Z.eqb_eq in E'; contradiction|].
    congruence.
  - rewrite H0. cbn [Z.eqb]. rewrite Hc, Hs, u32_pred_succ. f_equal. lia.
Qed.

Lemma can_prepare_bytes_phase n : forall i,
  tx_size (state i) <> 0 -> n <> O ->
  tx_phase (sent_packets_cnt (state i)) (fst (can_prepare_bytes n i)).
Proof.
  induction n as [|n IH]; intros i Hn Hnz; [contradiction|].
  cbn [can_prepare_bytes].
  pose proof (prepare_byte_phase i Hn) as Hp.
  destruct (pkttransfer_prepare_byte i) as [i1 byte]. cbn [fst] in Hp.
  unfold pkttransfer_bytes_for_sending.
  destruct (tx_size (state i1) =? 0) eqn:E1; cbn [negb fst]; [exact Hp|].
  apply Z.eqb_neq in E1.
  destruct Hp as [(_ & Hc) | (H0 & _)]; [|contradiction].
  destruct n as [|n']; [cbn [can_prepare_bytes fst]; left; auto|].
  specialize (IH i1 E1 ltac:(discriminate)). rewrite Hc in IH.
  destruct (can_prepare_bytes (S n') i1). exact IH.
Qed.

Lemma task_uart_sent a i hw : sent_ok a i -> sent_ok a (fst (pkttransfer_task_uart i hw)).
Proof.
  intros Hs. destruct (Z.eq_dec (tx_size (state i)) 0) as [E0 | E0].
  - destruct (task_uart_tx_idle i hw (or_intror E0)) as [_ Hv].
    apply (sent_ok_view a i); [symmetry; exact Hv | exact Hs].
  - apply (sent_ok_phase a i _ E0 Hs), task_uart_phase. left. auto.
Qed.

Lemma task_can_sent a i hw : sent_ok a i -> sent_ok a (fst (pkttransfer_task_can i hw)).
Proof.
  intros Hs. unfold pkttransfer_task_can, pkttransfer_bytes_for_sending.
  set (tx := if negb (tx_size (state i) =? 0) then _ else _).
  assert (Htx : sent_ok a (fst tx)).
  { subst tx. destruct (tx_size (state i) =? 0) eqn:E0; cbn [negb]; [exact Hs|].
    apply Z.eqb_neq in E0.
    destruct (can_tx_is_avail hw); [|exact Hs].
    pose proof (can_prepare_bytes_phase PKTTRANSFER_CAN_MGS_SIZE i E0 ltac:(discriminate)) as Hp.
    destruct (can_prepare_bytes PKTTRANSFER_CAN_MGS_SIZE i) as [i1 bytes]. cbn [fst] in *.
    apply (sent_ok_phase a i i1 E0 Hs Hp). }
  destruct tx as [i1 evs_tx]. cbn [fst] in Htx.
  destruct (can_rx_is_ready hw); [|exact Htx].
  destruct (process_bytes_tx (can_rx hw) i1) as [Hv _].
  destruct (process_bytes i1 (can_rx hw)) as [i2 evs]. cbn [fst] in *.
  apply (sent_ok_view a i1); [symmetry; exact Hv | exact Htx].
Qed.

Lemma send_sent b c i payload_p size id a :
  inv c i -> op_ok b i (OpSend payload_p size id) -> sent_ok a i ->
  sent_ok (a + accepted_of b i (OpSend payload_p size id))
          (fst (pkttransfer_send b i payload_p size id)).
Proof.
  intros Hinv (Hsz & _) Hs. unfold accepted_of.
  destruct (snd (pkttransfer_send b i payload_p size id)) eqn:Er;
    try (rewrite send_result in Er; destruct (_ || _); discriminate).
  - rewrite send_result in Er.
    destruct (_ <? _) eqn:E1; [discriminate|].
    destruct (tx_size (state i) =? 0) eqn:E2; [|discriminate]. zbool.
    destruct (send_accepted b i payload_p size id E1 E2)
      as (_ & _ & _ & _ & Hts & _).
    destruct Hinv as ((Hc & Hpm & _) & _). destruct Hc as (_ & Hc2 & _).
    unfold sent_ok, in_flight, is_usize, PKTTRANSFER_FRAME_CRC_SIZE in *.
    rewrite send_sent_packets_cnt, Hts, Hs, E2.
    rewrite (usize_id (size + 2)) by (unfold is_usize; lia).
    destruct (size + 2 =? 0) eqn:E3; [zbool; lia|].
    cbn [Z.eqb]. f_equal. lia.
  - rewrite (send_rejected b i payload_p size id Er), Z.add_0_r. exact Hs.
Qed.

Lemma run_ops_sent b c ops : forall i a,
  inv c i -> sent_ok a i -> ops_ok b i ops ->
  sent_ok (a + accepted b i ops) (run_ops b i ops).
Proof.
  induction ops as [|o rest IH]; intros i a Hinv Hs Hok.
  - cbn [accepted run_ops]. rewrite Z.add_0_r. exact Hs.
  - destruct Hok as [Ho Hrest]. cbn [accepted run_ops].
    rewrite Z.add_assoc. apply IH; [apply step_inv; assumption | | exact Hrest].
    destruct o as [payload_p size id | id | hw | hw]; cbn [step fst accepted_of];
      rewrite ?Z.add_0_r.
    + apply (send_sent b c); assumption.
    + exact Hs.
    + apply task_uart_sent, Hs.
    + apply task_can_sent, Hs.
Qed.

(** X16. [sent_packets_cnt] counts the frames handed over completely: after
    any run of operations on a freshly initialized instance it equals,
    modulo 2^32, the number of accepted submits, less one while a frame is
    still being sent ([tx_size != 0]). *)
Theorem sent_packets_cnt_counts (b : build) (c : pkttransfer_config_t) (ops : list op)
    (Hc : config_ok c) (Hops : ops_ok b (pkttransfer_init c) ops) :
  sent_packets_cnt (state (run_ops b (pkttransfer_init c) ops))
  = u32 (accepted b (pkttransfer_init c) ops
         - in_flight (run_ops b (pkttransfer_init c) ops)).
Proof.
  apply (run_ops_sent b c ops (pkttransfer_init c) 0 (init_inv c Hc)); [reflexivity | exact Hops].
Qed.

Lemma sent_packets_cnt_counts_witness :
  let c := test_config 8 in
  let ops := [OpSend [0x00] 1 0; OpTaskUart avail_uart; OpSend [0x01] 1 0;
              OpTaskUart avail_uart; OpTaskUart avail_uart; OpTaskUart avail_uart;
              OpTaskUart avail_uart; OpSend [0x02] 1 0; OpTaskUart avail_uart] in
  config_ok c
  /\ ops_ok OVER_UART (pkttransfer_init c) ops
  /\ accepted OVER_UART (pkttransfer_init c) ops = 2
  /\ in_flight (run_ops OVER_UART (pkttransfer_init c) ops) = 1
  /\ sent_packets_cnt (state (run_ops OVER_UART (pkttransfer_init c) ops)) = 1.
Proof.
  intros c ops.
  assert (Hc : config_ok c) by (apply test_config_ok; lia).
  assert (Ho : ops_ok OVER_UART (pkttransfer_init c) ops).
  { cbn [ops_ok op_ok]. unfold is_usize.
    repeat split; try reflexivity; try lia; intros _; vm_compute; discriminate. }
  split; [exact Hc|]. split; [exact Ho|]. split; [reflexivity|]. split; [reflexivity|].
  rewrite (sent_packets_cnt_counts OVER_UART c ops Hc Ho). reflexivity.
Defined.

(** ** Assertions *)

Lemma inv_asserts_ok c i : inv c i -> asserts_ok i.
Proof.
  intros Hinv. destruct (inv_asserts c i Hinv) as (H1 & H2 & H3).
  split; [|auto].
  destruct Hinv as ((Hc & Hpm & _) & _). destruct Hc as (Hc1 & _).
  unfold pkttransfer_is_init. rewrite Hpm.
  destruct (payload_size_max c =? 0) eqn:E; [apply Z.eqb_eq in E; lia | reflexivity].
Qed.

(** X17. No assertion of the driver can fail on an initialized instance
    used through its interface: in every reachable state, and in every state
    a task passes through (after its UART transmit step or after any number
    of iterations of the CAN transmit loop, then after any number of received
    bytes), the instance is initialized, [sent_size <= tx_size],
    [rx_size <= payload_size_max + 2], and, when there are bytes for sending,
    [tx_size <= payload_size_max + 2]. *)
Theorem asserts_never_fail (b : build) (c : pkttransfer_config_t) (i : pkttransfer_t)
    (Hreach : reachable b c i) :
  asserts_ok i
  /\ (forall bytes,
        asserts_ok (fst (process_bytes (fst (pkttransfer_prepare_byte i)) bytes)))
  /\ (forall n bytes,
        asserts_ok (fst (process_bytes (fst (can_prepare_bytes n i)) bytes))).
Proof.
  pose proof (reachable_inv b c i Hreach) as Hinv.
  split; [exact (inv_asserts_ok c i Hinv)|]. split.
  - intros bytes. apply (inv_asserts_ok c), process_bytes_inv, prepare_byte_inv, Hinv.
  - intros n bytes. apply (inv_asserts_ok c), process_bytes_inv, can_prepare_bytes_inv, Hinv.
Qed.

Lemma asserts_never_fail_witness :
  let c := test_config 4 in
  let i := run_ops OVER_UART (pkttransfer_init c)
                   [OpSend [0x01;0x7D;0x02;0x7E] 4 0; OpTaskUart avail_uart] in
  reachable OVER_UART c i
  /\ asserts_ok i
  /\ asserts_ok (fst (process_bytes (fst (pkttransfer_prepare_byte i)) [0x7E; 0x01])).
Proof.
  intros c i.
  assert (Hr : reachable OVER_UART c i).
  { apply reachable_run_ops.
    - apply reach_init, test_config_ok; lia.
    - cbn. unfold is_usize. repeat split; lia. }
  split; [exact Hr|].
  destruct (asserts_never_fail OVER_UART c i Hr) as (H1 & H2 & _).
  split; [exact H1 | apply H2].
Defined.

(** ** The receive identifier of the CAN build *)

Lemma rx_requests_app evs1 evs2 :
  rx_requests (evs1 ++ evs2) = rx_requests evs1 ++ rx_requests evs2.
Proof. unfold rx_requests. apply flat_map_app. Qed.

Lemma prepare_byte_can_id_rx i :
  can_id_rx (state (fst (pkttransfer_prepare_byte i))) = can_id_rx (state i).
Proof.
  unfold pkttransfer_prepare_byte.
  destruct (sent_size (state i) =? tx_size (state i)); [reflexivity|].
  destruct (tx_state (state i)); try reflexivity.
  destruct (_ || _); reflexivity.
Qed.

Lemma can_prepare_bytes_can_id_rx n : forall i,
  can_id_rx (state (fst (can_prepare_bytes n i))) = can_id_rx (state i).
Proof.
  induction n as [|n IH]; intros i; [reflexivity|].
  cbn [can_prepare_bytes].
  pose proof (prepare_byte_can_id_rx i) as H1.
  destruct (pkttransfer_prepare_byte i) as [i1 byte]. cbn [fst] in H1.
  destruct (negb _); [exact H1|].
  specialize (IH i1). destruct (can_prepare_bytes n i1). cbn [fst] in *. congruence.
Qed.

Lemma process_byte_can_id_rx i byte :
  can_id_rx (state (fst (pkttransfer_process_byte i byte))) = can_id_rx (state i)
  /\ rx_requests (snd (pkttransfer_process_byte i byte)) = [].
Proof.
  unfold pkttransfer_process_byte.
  destruct (rx_state (state i)).
  - destruct (byte =? _); split; reflexivity.
  - destruct (byte =? PKTTRANSFER_FRAME_ESCAPE_BYTE); [split; reflexivity|].
    destruct (byte =? PKTTRANSFER_FRAME_DELIMITER_BYTE).
    + destruct (process_frame_spec i) as [-> | (_ & _ & ->)]; split; reflexivity.
    + destruct (_ <=? _); split; reflexivity.
  - destruct (_ || _); split; reflexivity.
Qed.

Lemma process_bytes_can_id_rx bytes : forall i,
  can_id_rx (state (fst (process_bytes i bytes))) = can_id_rx (state i)
  /\ rx_requests (snd (process_bytes i bytes)) = [].
Proof.
  induction bytes as [|byte rest IH]; intros i; [split; reflexivity|].
  cbn [process_bytes].
  destruct (process_byte_can_id_rx i byte) as [H1 H2].
  destruct (pkttransfer_process_byte i byte) as [i1 e1]. cbn [fst snd] in *.
  destruct (IH i1) as [H3 H4].
  destruct (process_bytes i1 rest) as [i2 e2]. cbn [fst snd] in *.
  split; [congruence|]. rewrite rx_requests_app, H2, H4. reflexivity.
Qed.

Lemma send_can_id_rx b i payload_p size id :
  can_id_rx (state (fst (pkttransfer_send b i payload_p size id))) = can_id_rx (state i).
Proof.
  unfold pkttransfer_send.
  destruct (_ <? _); [reflexivity|]. destruct (negb _); [reflexivity|].
  destruct b; reflexivity.
Qed.

Lemma step_can_id_rx b i o :
  keeps_can_id_rx o ->
  can_id_rx (state (fst (step b i o))) = can_id_rx (state i)
  /\ Forall (fun r => r = can_id_rx (state i)) (rx_requests (snd (step b i o))).
Proof.
  intros Hk. destruct o as [payload_p size id | id | hw | hw]; cbn [step fst snd].
  - split; [apply send_can_id_rx | apply List.Forall_nil].
  - destruct Hk.
  - unfold pkttransfer_task_uart.
    set (tx := if pkttransfer_bytes_for_sending i then _ else _).
    assert (Htx : can_id_rx (state (fst tx)) = can_id_rx (state i)
                  /\ rx_requests (snd tx) = []).
    { subst tx. destruct (pkttransfer_bytes_for_sending i); [|split; reflexivity].
      destruct (uart_tx_is_avail hw); [|split; reflexivity].
      pose proof (prepare_byte_can_id_rx i) as Hp.
      destruct (pkttransfer_prepare_byte i). split; [exact Hp | reflexivity]. }
    destruct tx as [i1 evs_tx]. cbn [fst snd] in Htx. destruct Htx as [H1 H2].
    destruct (uart_rx_is_ready hw).
    + destruct (process_byte_can_id_rx i1 (uart_rx hw)) as [H3 H4].
      destruct (pkttransfer_process_byte i1 (uart_rx hw)) as [i2 e2]. cbn [fst snd] in *.
      split; [congruence|]. rewrite rx_requests_app, H2, H4. apply List.Forall_nil.
    + cbn [fst snd]. split; [exact H1|]. rewrite rx_requests_app, H2. apply List.Forall_nil.
  - unfold pkttransfer_task_can.
    set (tx := if pkttransfer_bytes_for_sending i then _ else _).
    assert (Htx : can_id_rx (state (fst tx)) = can_id_rx (state i)
                  /\ rx_requests (snd tx) = []).
    { subst tx. destruct (pkttransfer_bytes_for_sending i); [|split; reflexivity].
      destruct (can_tx_is_avail hw); [|split; reflexivity].
      pose proof (can_prepare_bytes_can_id_rx PKTTRANSFER_CAN_MGS_SIZE i) as Hp.
      destruct (can_prepare_bytes PKTTRANSFER_CAN_MGS_SIZE i).
      split; [exact Hp | reflexivity]. }
    destruct tx as [i1 evs_tx]. cbn [fst snd] in Htx. destruct Htx as [H1 H2].
    destruct (can_rx_is_ready hw).
    + destruct (process_bytes_can_id_rx (can_rx hw) i1) as [H3 H4].
      destruct (process_bytes i1 (can_rx hw)) as [i2 e2]. cbn [fst snd] in *.
      split; [congruence|].
      rewrite rx_requests_app, H2. unfold rx_requests at 1. cbn [flat_map rx_request_of app].
      fold (rx_requests e2). rewrite H4.
      apply List.Forall_cons; [exact H1 | apply List.Forall_nil].
    + cbn [fst snd]. split; [exact H1|]. rewrite rx_requests_app, H2. apply List.Forall_nil.
Qed.

Lemma run_ops_can_id_rx b ops : forall i,
  Forall keeps_can_id_rx ops ->
  can_id_rx (state (run_ops b i ops)) = can_id_rx (state i)
  /\ Forall (fun r => r = can_id_rx (state i)) (rx_requests (trace b i ops)).
Proof.
  induction ops as [|o rest IH]; intros i Hk; [split; [reflexivity | apply List.Forall_nil]|].
  inversion Hk as [|? ? Ho Hrest]; subst.
  cbn [run_ops trace].
  destruct (step_can_id_rx b i o Ho) as [H1 H2].
  destruct (IH (fst (step b i o)) Hrest) as [H3 H4].
  rewrite H1 in H3, H4.
  split; [exact H3|]. rewrite rx_requests_app. apply Forall_app. auto.
Qed.

(** X18. The receive identifier: after [pkttransfer_set_can_id_rx] with
    identifier [id], every call of the CAN receive callback made by the task
    asks for [id] (as a 32-bit value), whatever is submitted, sent or
    received meanwhile, until the identifier is set again; submits and tasks
    leave [can_id_rx] as it is. *)
Theorem can_rx_identifier (b : build) (i : pkttransfer_t) (id : Z) (ops : list op)
    (Hops : Forall keeps_can_id_rx ops) :
  Forall (fun r => r = u32 id) (rx_requests (trace b (pkttransfer_set_can_id_rx i id) ops))
  /\ can_id_rx (state (run_ops b (pkttransfer_set_can_id_rx i id) ops)) = u32 id.
Proof.
  destruct (run_ops_can_id_rx b ops (pkttransfer_set_can_id_rx i id) Hops) as [H1 H2].
  split; [exact H2 | exact H1].
Qed.

Lemma can_rx_identifier_witness :
  let ops := [OpSend can_payload 9 1; OpTaskCan (mk_can_in true true [0x7E; 0x00]);
              OpTaskCan (can_rx_in [0x78; 0xF0; 0x7E])] in
  Forall keeps_can_id_rx ops
  /\ rx_requests (trace OVER_CAN
                        (pkttransfer_set_can_id_rx (pkttransfer_init (test_config 512)) 2) ops)
     = [2; 2]
  /\ Forall (fun r => r = u32 2)
            (rx_requests (trace OVER_CAN
                                (pkttransfer_set_can_id_rx (pkttransfer_init (test_config 512)) 2)
                                ops)).
Proof.
  intros ops.
  assert (Hk : Forall keeps_can_id_rx ops).
  { repeat (apply List.Forall_cons; [exact I|]). apply List.Forall_nil. }
  split; [exact Hk|]. split; [vm_compute; reflexivity|].
  exact (proj1 (can_rx_identifier OVER_CAN (pkttransfer_init (test_config 512)) 2 ops Hk)).
Defined.
